(** * ha-outliers: outlier scan, grouping and review session

    A shallow embedding of [ha_outliers.py].  Python [int] is [Z], Python
    [str] is [string] (ASCII), and a Python [float] is a binary64, held as
    the rational [Q] it denotes: the scan rounds every conversion and
    every operation to the nearest float, ties to even ([round64]); what
    the grouping does to floats (comparisons, minima and maxima, floors of
    quotients by 1, 2 and 5) is exact.  Overflow to an infinity is the one
    thing left to a hypothesis ([finite_store]).  The data store is a
    collaborator: its query results are inputs, the [WHERE] clause that
    the source writes is evaluated here.  Rendering (tables, colours,
    progress bar) produces no value and is left out. *)

From Stdlib Require Import ZArith QArith Qabs Qround Lqa Lia.
From Stdlib Require Import List String Ascii Bool Permutation Sorted.
From Stdlib Require Import DecimalString DecimalN.
Import ListNotations.

Local Open Scope string_scope.
Local Open Scope Z_scope.

(** ** Configuration constants *)

Definition SIGMA_THRESHOLD : Q := 5.
Definition MIN_SAMPLES : Z := 200.
Definition FREQUENCY_THRESHOLD : Q := 1 # 100.
Definition PAGE_SIZE : Z := 25.

(** ** Comparisons on rationals, as booleans *)

Definition Qltb (x y : Q) : bool := negb (Qle_bool y x).

(** Python's two-argument [min] and [max]: the first argument wins a tie. *)
Definition py_min (a b : Q) : Q := if Qltb b a then b else a.
Definition py_max (a b : Q) : Q := if Qltb a b then b else a.

(** ** Python string built-ins (ASCII) *)

Definition is_space (c : ascii) : bool :=
  let n := nat_of_ascii c in
  ((9 <=? n) && (n <=? 13) || (28 <=? n) && (n <=? 32))%nat.

Definition is_digit (c : ascii) : bool :=
  let n := nat_of_ascii c in ((48 <=? n) && (n <=? 57))%nat.

Definition digit_val (c : ascii) : Z := Z.of_nat (nat_of_ascii c) - 48.

Definition lower_ascii (c : ascii) : ascii :=
  let n := nat_of_ascii c in
  if ((65 <=? n) && (n <=? 90))%nat then ascii_of_nat (n + 32) else c.

Fixpoint lower (s : string) : string :=
  match s with
  | EmptyString => EmptyString
  | String c r => String (lower_ascii c) (lower r)
  end.

Fixpoint lstrip (s : string) : string :=
  match s with
  | String c r => if is_space c then lstrip r else s
  | EmptyString => EmptyString
  end.

(** Drop the trailing characters that satisfy [p]. *)
Fixpoint rstrip_by (p : ascii -> bool) (s : string) : string :=
  match s with
  | EmptyString => EmptyString
  | String c r =>
      match rstrip_by p r with
      | EmptyString => if p c then EmptyString else String c EmptyString
      | r' => String c r'
      end
  end.

Definition rstrip : string -> string := rstrip_by is_space.

Definition strip (s : string) : string := rstrip (lstrip s).

(** The blanks that [int] and [float] skip around a number: space, tab,
    line feed, vertical tab, form feed and carriage return, fewer than
    [str.strip] removes. *)
Definition is_blank (c : ascii) : bool :=
  let n := nat_of_ascii c in
  ((9 <=? n) && (n <=? 13) || (n =? 32))%nat.

Fixpoint lskip (s : string) : string :=
  match s with
  | String c r => if is_blank c then lskip r else s
  | EmptyString => EmptyString
  end.

Definition trim (s : string) : string := rstrip_by is_blank (lskip s).

(** A run of decimal digits, single underscores allowed between digits:
    the value read (on top of [acc]), how many digits, and what is left. *)
Fixpoint scan_digits (s : string) (acc : Z) (n : Z) : Z * Z * string :=
  match s with
  | EmptyString => (acc, n, s)
  | String c r =>
      if is_digit c then scan_digits r (10 * acc + digit_val c) (n + 1)
      else if Ascii.eqb c "_" && (0 <? n) then
        match r with
        | String d _ => if is_digit d then scan_digits r acc n else (acc, n, s)
        | EmptyString => (acc, n, s)
        end
      else (acc, n, s)
  end.

Definition split_sign (s : string) : bool * string :=
  match s with
  | String "-" r => (true, r)
  | String "+" r => (false, r)
  | _ => (false, s)
  end.

(** [int(s)]: [None] stands for [ValueError]. *)
Definition py_int (s : string) : option Z :=
  let '(neg, body) := split_sign (trim s) in
  match scan_digits body 0 0 with
  | (v, n, EmptyString) =>
      if 0 <? n then Some (if neg then - v else v) else None
  | _ => None
  end.

(** What [float(s)] can return.  [Finite q] is the float nearest to the
    number [q] that the text writes, which is a finite one; what the float
    is used for is its [str], which the float determines. *)
Inductive pyfloat : Type :=
  | Finite (q : Q)
  | Infinite (negative : bool)
  | NotANumber.

(** From [2^1024 - 2^970] on, half a unit above the largest finite float,
    the nearest float is an infinity. *)
Definition overflows (q : Q) : bool :=
  Qle_bool (inject_Z (2 ^ 1024 - 2 ^ 970)) (Qabs q).

Definition nearest_float (q : Q) : pyfloat :=
  if overflows q then Infinite (Qnum q <? 0) else Finite q.

Definition pow10 (k : Z) : Z := 10 ^ k.

Definition scale10 (m : Z) (e : Z) : Q :=
  if 0 <=? e then inject_Z (m * pow10 e)
  else Qmake m (Z.to_pos (pow10 (- e))).

(** The number that the text of a float writes, as it stands, or the
    infinity or the NaN that it names; [None] where [float(s)] raises
    [ValueError]. *)
Definition read_float (s : string) : option pyfloat :=
  let '(neg, body) := split_sign (trim s) in
  let word := lower body in
  if String.eqb word "nan" then Some NotANumber
  else if String.eqb word "inf" || String.eqb word "infinity"
  then Some (Infinite neg)
  else
    let '(ip, n1, r1) := scan_digits body 0 0 in
    let '(m, n2, r2) :=
      match r1 with
      | String "." r => scan_digits r ip 0
      | _ => (ip, 0, r1)
      end in
    if (n1 + n2 =? 0) then None
    else
      let signed := if neg then - m else m in
      match r2 with
      | EmptyString => Some (Finite (scale10 signed (- n2)))
      | String c r =>
          if Ascii.eqb (lower_ascii c) "e" then
            let '(eneg, ebody) := split_sign r in
            match scan_digits ebody 0 0 with
            | (ev, n3, EmptyString) =>
                if 0 <? n3
                then Some (Finite (scale10 signed
                                     ((if eneg then - ev else ev) - n2)))
                else None
            | _ => None
            end
          else None
      end.

(** [float(s)]: the float nearest to the number written; [None] stands
    for [ValueError]. *)
Definition py_float (s : string) : option pyfloat :=
  match read_float s with
  | Some (Finite q) => Some (nearest_float q)
  | r => r
  end.

(** ** [f"{x:.6g}"]: six significant digits, shortest general format *)

(** [p / q] rounded to the nearest integer, ties to even ([0 < q]). *)
Definition round_half_even (p q : Z) : Z :=
  let f := p / q in
  match 2 * (p mod q) ?= q with
  | Lt => f
  | Gt => f + 1
  | Eq => if Z.even f then f else f + 1
  end.

Definition dec_string (n : Z) : string :=
  NilZero.string_of_uint (N.to_uint (Z.to_N n)).

Definition ndigits (n : Z) : Z := Z.of_nat (String.length (dec_string n)).

Fixpoint zeros (k : nat) : string :=
  match k with
  | O => EmptyString
  | S k' => String "0" (zeros k')
  end.

Definition rstrip_zeros : string -> string :=
  rstrip_by (fun c => Ascii.eqb c "0").

Definition with_point (ip frac : string) : string :=
  match rstrip_zeros frac with
  | EmptyString => ip
  | f => ip ++ "." ++ f
  end.

(** [digits] are the six significant digits, [e] the decimal exponent of
    the first one. *)
Definition fmt_fixed (digits : string) (e : Z) : string :=
  if 0 <=? e then
    let k := Z.to_nat (e + 1) in
    with_point (substring 0 k digits) (substring k (6 - k) digits)
  else with_point "0" (zeros (Z.to_nat (- e - 1)) ++ digits).

Definition fmt_exp (digits : string) (e : Z) : string :=
  let ea := dec_string (Z.abs e) in
  with_point (substring 0 1 digits) (substring 1 5 digits)
  ++ "e" ++ (if e <? 0 then "-" else "+")
  ++ (if Z.abs e <? 10 then "0" ++ ea else ea).

Definition fmt_6g (x : Q) : string :=
  let n := Qnum x in
  let d := Zpos (Qden x) in
  if n =? 0 then "0"
  else
    let a := Z.abs n in
    let e0 := ndigits a - ndigits d in
    let reaches :=
      if 0 <=? e0 then d * pow10 e0 <=? a else d <=? a * pow10 (- e0) in
    let e1 := if reaches then e0 else e0 - 1 in
    let k := 5 - e1 in
    let m0 :=
      if 0 <=? k then round_half_even (a * pow10 k) d
      else round_half_even a (d * pow10 (- k)) in
    let '(m, e) := if m0 =? 1000000 then (100000, e1 + 1) else (m0, e1) in
    (if n <? 0 then "-" else "")
    ++ (if (-4 <=? e) && (e <? 6) then fmt_fixed (dec_string m) e
        else fmt_exp (dec_string m) e).

(** ** Binary64 *)

(** A float is the rational it holds.  Every finite binary64 is a whole
    number of units of [2^-1074]. *)
Definition unit64 : Z := 2 ^ 1074.

(** The exponent of the last place of [n / d >= 0]: 52 under that of its
    leading bit, and [-1074] in the subnormal range. *)
Definition last_place (n d : Z) : Z :=
  Z.max (Z.log2 (n * unit64 / d) - 52) 0 - 1074.

(** [n / d >= 0] in units of its last place, to the nearest whole number,
    ties to even. *)
Definition significand (n d : Z) : Z :=
  let e := last_place n d in
  if 0 <=? e then round_half_even n (d * 2 ^ e)
  else round_half_even (n * 2 ^ (- e)) d.

(** [m * 2^e] *)
Definition ldexp (m e : Z) : Q :=
  if 0 <=? e then inject_Z (m * 2 ^ e) else m # Z.to_pos (2 ^ (- e)).

(** The float nearest to [x].  The exponent has no upper limit here: a
    result of [2^1024] or more stands for what is an infinity in the
    source, see [finite64]. *)
Definition round64 (x : Q) : Q :=
  let n := Z.abs (Qnum x) in
  let d := Zpos (Qden x) in
  Qred (ldexp (Z.sgn (Qnum x) * significand n d) (last_place n d)).

(** [x + y], [x - y], [x * y] and [x / y] on floats. *)
Definition float_add (x y : Q) : Q := round64 (x + y).
Definition float_sub (x y : Q) : Q := round64 (x - y).
Definition float_mul (x y : Q) : Q := round64 (x * y).
Definition float_div (x y : Q) : Q := round64 (x / y).

(** The float is a finite one. *)
Definition finite64 (x : Q) : Prop := (Qabs x < inject_Z (2 ^ 1024))%Q.

(** The same rounding, counted in units: the reference of the proofs. *)
Definition round64_units (n d : Z) : Z :=
  let u := n * unit64 in
  let c := Z.max (Z.log2 (u / d) - 52) 0 in
  round_half_even u (d * 2 ^ c) * 2 ^ c.

(** ** Data model *)

(** A row of the candidate query: [recent_state] is [None] for SQL NULL. *)
Record Candidate : Type := {
  metadata_id : Z;
  entity_id : string;
  recent_state : option string;
}.

(** The row of the aggregate query: COUNT, AVG and STDDEV of the valid
    states of one entity; STDDEV is [None] for SQL NULL. *)
Record Stats : Type := {
  cnt : Z;
  mean_val : Q;
  std_val : option Q;
}.

(** A valid state of an entity, its text already cast to a number. *)
Record StateRow : Type := {
  state_id : Z;
  numeric_value : Q;
  last_updated_ts : option Q;
}.

(** What the store answers: the candidate rows, the aggregate row of an
    entity, and the valid states of an entity. *)
Record Database : Type := {
  states_meta : list Candidate;
  aggregate : Z -> option Stats;
  valid_states : Z -> list StateRow;
}.

(** The dictionary appended to [all_outliers]. *)
Record Outlier : Type := {
  id : Z;
  o_metadata_id : Z;
  o_entity_id : string;
  value : Q;
  lower_bound : Q;
  upper_bound : Q;
  mean : Q;
  deviation : Q;
  timestamp : option Q;
  total_samples : Z;
}.

(** ** [sorted(xs, key=..., reverse=True)]: stable, descending *)

Section Sorting.
Context {A : Type} (key : A -> Q).

(** [x] goes in front of the first element whose key is not above its
    own, so that equal keys keep the order they came in. *)
Fixpoint insert_desc (x : A) (l : list A) : list A :=
  match l with
  | [] => [x]
  | y :: l' =>
      if Qltb (key x) (key y) then y :: insert_desc x l' else x :: l
  end.

Definition sorted_desc (l : list A) : list A :=
  fold_right insert_desc [] l.

Definition desc (x y : A) : Prop := (key y <= key x)%Q.
End Sorting.

(** ** [find_outliers_in_states] *)

(** [float(c["recent_state"])] succeeds. *)
Definition is_numeric (c : Candidate) : bool :=
  match recent_state c with
  | Some s => match py_float s with Some _ => true | None => false end
  | None => false
  end.

(** The third query: the valid states of the entity outside the bounds. *)
Definition fetch_outside (db : Database) (meta_id : Z) (lower upper : Q)
  : list StateRow :=
  filter (fun r => Qltb (numeric_value r) lower || Qltb upper (numeric_value r))
         (valid_states db meta_id).

(** [Counter(keys)[k]] *)
Definition Counter (keys : list string) (k : string) : Z :=
  Z.of_nat (count_occ string_dec keys k).

(** [mean_val - SIGMA_THRESHOLD * std_val] and
    [mean_val + SIGMA_THRESHOLD * std_val], on floats. *)
Definition lower_of (mean_v std : Q) : Q :=
  float_sub mean_v (float_mul SIGMA_THRESHOLD std).
Definition upper_of (mean_v std : Q) : Q :=
  float_add mean_v (float_mul SIGMA_THRESHOLD std).

(** [value_counts[f"{value:.6g}"]] for the value of [row], the counter
    being taken over [f"{float(r['numeric_value']):.6g}"] for the rows of
    [outlier_rows]. *)
Definition occurrence_count (outlier_rows : list StateRow) (row : StateRow) : Z :=
  Counter (map (fun r => fmt_6g (round64 (numeric_value r))) outlier_rows)
          (fmt_6g (round64 (numeric_value row))).

(** [occurrence_count > total_samples * FREQUENCY_THRESHOLD] *)
Definition too_frequent (total : Z) (outlier_rows : list StateRow)
  (row : StateRow) : bool :=
  Qltb (inject_Z total * FREQUENCY_THRESHOLD)
       (inject_Z (occurrence_count outlier_rows row)).

(** The dictionary appended for [row]; [mean_v] and [std] are the floats
    [mean_val] and [std_val] of the source. *)
Definition outlier_record (candidate : Candidate) (total : Z)
  (mean_v std : Q) (row : StateRow) : Outlier :=
  let v := round64 (numeric_value row) in
  {| id := state_id row;
     o_metadata_id := metadata_id candidate;
     o_entity_id := entity_id candidate;
     value := v;
     lower_bound := lower_of mean_v std;
     upper_bound := upper_of mean_v std;
     mean := mean_v;
     deviation := float_div (Qabs (float_sub v mean_v)) std;
     timestamp := last_updated_ts row;
     total_samples := total |}.

(** The rows of one entity that pass the frequency filter, as records. *)
Definition keep_rare (candidate : Candidate) (total : Z) (mean_v std : Q)
  (outlier_rows : list StateRow) : list Outlier :=
  flat_map
    (fun row =>
       if too_frequent total outlier_rows row then []
       else [outlier_record candidate total mean_v std row])
    outlier_rows.

(** The body of the loop over candidates: the records one entity adds to
    [all_outliers]. *)
Definition scan_candidate (db : Database) (min_samples : Z) (candidate : Candidate)
  : list Outlier :=
  let meta_id := metadata_id candidate in
  match aggregate db meta_id with
  | None => []
  | Some stats =>
      if cnt stats <? min_samples then []
      else
        match std_val stats with
        | None => []
        | Some std_raw =>
            if Qeq_bool std_raw 0 then []
            else
              let total := cnt stats in
              let mean_v := round64 (mean_val stats) in
              let std := round64 std_raw in
              if Qeq_bool std 0 then []
              else
                let outlier_rows :=
                  fetch_outside db meta_id (lower_of mean_v std)
                                (upper_of mean_v std) in
                keep_rare candidate total mean_v std outlier_rows
        end
  end.

Definition find_outliers_in_states (db : Database) (min_samples : Z)
  : list Outlier :=
  let candidates := filter is_numeric (states_meta db) in
  let all_outliers := flat_map (scan_candidate db min_samples) candidates in
  sorted_desc deviation all_outliers.

(** What the scan computes for one row, from the mean and the deviation
    of the entity and the number of the row as the store holds them, are
    finite floats. *)
Definition finite_scan (mean_raw std_raw number : Q) : Prop :=
  let mean_v := round64 mean_raw in
  let std := round64 std_raw in
  let v := round64 number in
  finite64 mean_v /\ finite64 std /\ finite64 v
  /\ finite64 (float_mul SIGMA_THRESHOLD std)
  /\ finite64 (lower_of mean_v std) /\ finite64 (upper_of mean_v std)
  /\ finite64 (float_sub v mean_v)
  /\ finite64 (float_div (Qabs (float_sub v mean_v)) std).

(** No float of the scan is an infinity: the domain on which [round64]
    is the arithmetic of the source. *)
Definition finite_store (db : Database) : Prop :=
  forall c st std_raw row,
    In c (states_meta db) ->
    aggregate db (metadata_id c) = Some st ->
    std_val st = Some std_raw ->
    In row (valid_states db (metadata_id c)) ->
    finite_scan (mean_val st) std_raw (numeric_value row).

(** ** [group_outliers] *)

Inductive Direction : Type := Above | Below.

(** The dictionary key [(entity_id, band, direction)]. *)
Definition Key : Type := (string * Z * Direction)%type.

Definition key_eq_dec (a b : Key) : {a = b} + {a <> b}.
Proof.
  repeat decide equality; try apply Z.eq_dec; apply string_dec.
Defined.
Arguments key_eq_dec : simpl never.

(** A value of the [groups] dictionary: the fields of the first record of
    the key ([**o]), the member lists, and the [_removed] mark that the
    review session sets (absent, hence false, at creation). *)
Record Group : Type := {
  rep : Outlier;
  count : Z;
  ids : list Z;
  timestamps : list (option Q);
  values : list Q;
  min_value : Q;
  max_value : Q;
  removed : bool;
}.

Definition band_size (dev : Q) : Z :=
  if Qltb dev 10 then 1 else if Qltb dev 20 then 2 else 5.

(** [int(dev // band_size) * band_size] *)
Definition band_of (dev : Q) : Z :=
  let w := band_size dev in
  Qfloor (dev / inject_Z w) * w.

Definition direction_of (o : Outlier) : Direction :=
  if Qltb (mean o) (value o) then Above else Below.

Definition key_of (o : Outlier) : Key :=
  (o_entity_id o, band_of (deviation o), direction_of o).

Definition new_group (o : Outlier) : Group :=
  {| rep := o;
     count := 1;
     ids := [id o];
     timestamps := [timestamp o];
     values := [value o];
     min_value := value o;
     max_value := value o;
     removed := false |}.

Definition add_member (g : Group) (o : Outlier) : Group :=
  {| rep := rep g;
     count := count g + 1;
     ids := ids g ++ [id o];
     timestamps := timestamps g ++ [timestamp o];
     values := values g ++ [value o];
     min_value := py_min (min_value g) (value o);
     max_value := py_max (max_value g) (value o);
     removed := removed g |}.

(** The dictionary [groups], in insertion order: a key that is present
    keeps its place, a new key goes last. *)
Fixpoint upsert (key : Key) (o : Outlier) (groups : list (Key * Group))
  : list (Key * Group) :=
  match groups with
  | [] => [(key, new_group o)]
  | (k, g) :: rest =>
      if key_eq_dec key k then (k, add_member g o) :: rest
      else (k, g) :: upsert key o rest
  end.

Definition build_groups (outliers : list Outlier) : list (Key * Group) :=
  fold_left (fun groups o => upsert (key_of o) o groups) outliers [].

Definition group_deviation (g : Group) : Q := deviation (rep g).

Definition group_outliers (outliers : list Outlier) : list Group :=
  sorted_desc group_deviation (map snd (build_groups outliers)).

(** The scan followed by the grouping, as [main] chains them. *)
Definition scan_and_group (db : Database) : list Group :=
  group_outliers (find_outliers_in_states db MIN_SAMPLES).

(** ** The review session: operator, console and storage as a world *)

Inductive exn : Type :=
  | EOFError              (* the operator's input has ended *)
  | ZeroDivisionError
  | IndexError
  | MySQLError            (* mysql.connector.Error, not operational *)
  | OperationalError.     (* mysql.connector.OperationalError *)

Inductive result (A : Type) : Type :=
  | Ok (a : A)
  | Raise (e : exn).
Arguments Ok {A} a.
Arguments Raise {A} e.

Inductive statement : Type :=
  | UpdateState (new_value : pyfloat) (state_ids : list Z)
  | ClearOldState (state_ids : list Z)
  | DeleteStates (state_ids : list Z).

Inductive db_call : Type :=
  | Connect
  | Cursor
  | Execute (s : statement)
  | Commit
  | Rollback
  | Close.

(** How the store answers a call. *)
Inductive db_reply : Type :=
  | Done
  | Failed      (* raises mysql.connector.Error *)
  | Lost.       (* raises mysql.connector.OperationalError *)

(** [prompts] and [confirms] are what the operator will answer to
    [Prompt.ask] and [Confirm.ask]; [replies] is how the store will answer
    the calls to come (it answers [Done] once the script is used up);
    [db_log] are the calls made and [shown] the pages rendered, oldest
    first. *)
Record World : Type := {
  prompts : list string;
  confirms : list bool;
  replies : list db_reply;
  db_log : list db_call;
  shown : list Z;
}.

Definition M (A : Type) : Type := World -> result A * World.

Definition ret {A} (a : A) : M A := fun w => (Ok a, w).

Definition raise {A} (e : exn) : M A := fun w => (Raise e, w).

Definition bind {A B} (m : M A) (f : A -> M B) : M B :=
  fun w =>
    match m w with
    | (Ok a, w') => f a w'
    | (Raise e, w') => (Raise e, w')
    end.

Notation "x <- m ;; k" := (bind m (fun x => k))
  (at level 61, m at next level, right associativity).
Notation "m ;;; k" := (bind m (fun _ => k))
  (at level 61, right associativity).

(** [try: body except mysql.connector.Error: handler]; the operational
    error is a subclass and is caught as well. *)
Definition except_mysql {A} (body handler : M A) : M A :=
  fun w =>
    match body w with
    | (Raise MySQLError, w') => handler w'
    | (Raise OperationalError, w') => handler w'
    | r => r
    end.

(** [try: body except mysql.connector.OperationalError: handler] *)
Definition except_operational {A} (body handler : M A) : M A :=
  fun w =>
    match body w with
    | (Raise OperationalError, w') => handler w'
    | r => r
    end.

(** [Prompt.ask(...).strip().lower()] *)
Definition ask : M string :=
  fun w =>
    match prompts w with
    | [] => (Raise EOFError, w)
    | line :: rest =>
        (Ok (lower (strip line)),
         {| prompts := rest; confirms := confirms w; replies := replies w;
            db_log := db_log w; shown := shown w |})
    end.

(** [Confirm.ask("Are you sure?", default=False)] *)
Definition confirm : M bool :=
  fun w =>
    match confirms w with
    | [] => (Raise EOFError, w)
    | b :: rest =>
        (Ok b,
         {| prompts := prompts w; confirms := rest; replies := replies w;
            db_log := db_log w; shown := shown w |})
    end.

(** A call to the store: logged, then answered from the script. *)
Definition call (c : db_call) : M unit :=
  fun w =>
    let reply := hd Done (replies w) in
    let w' := {| prompts := prompts w; confirms := confirms w;
                 replies := List.tl (replies w);
                 db_log := db_log w ++ [c]; shown := shown w |} in
    match reply with
    | Done => (Ok tt, w')
    | Failed => (Raise MySQLError, w')
    | Lost => (Raise OperationalError, w')
    end.

(** ** [display_outliers] *)

Definition len {A} (l : list A) : Z := Z.of_nat (List.length l).

(** [(action, index, outlier)] *)
Definition Selection : Type := (ascii * Z * Group)%type.

(** What one pass of the prompt loop decides. *)
Inductive Browse : Type :=
  | Stay (page : Z)          (* back to the top of [while True] *)
  | Leave                    (* [break] *)
  | Pick (sel : Selection).  (* [return] *)

Definition handle_choice (outliers : list Group) (total_pages page : Z)
  (choice : string) : Browse :=
  if String.eqb choice "n" && (page <? total_pages - 1) then Stay (page + 1)
  else if String.eqb choice "p" && (0 <? page) then Stay (page - 1)
  else if String.eqb choice "q" then Leave
  else
    match choice with
    | String c rest =>
        if Ascii.eqb c "e" || Ascii.eqb c "d" then
          match py_int (strip rest) with
          | Some num =>
              if (1 <=? num) && (num <=? len outliers) then
                match nth_error outliers (Z.to_nat (num - 1)) with
                | Some g =>
                    if removed g then Stay page else Pick (c, num - 1, g)
                | None => Stay page
                end
              else Stay page
          | None => Stay page
          end
        else Stay page
    | EmptyString => Stay page
    end.

(** The [while True] loop, one operator line per pass: what is returned,
    the lines left, and the pages rendered on the way. *)
Fixpoint browse (outliers : list Group) (total_pages page : Z)
  (lines : list string) : result (option Selection) * list string * list Z :=
  match lines with
  | [] => (Raise EOFError, [], [page])
  | line :: rest =>
      match handle_choice outliers total_pages page (lower (strip line)) with
      | Stay page' =>
          let '(r, rest', pages) := browse outliers total_pages page' rest in
          (r, rest', page :: pages)
      | Leave => (Ok None, rest, [page])
      | Pick sel => (Ok (Some sel), rest, [page])
      end
  end.

Definition total_pages_of (outliers : list Group) (page_size : Z) : Z :=
  (len outliers + page_size - 1) / page_size.

Definition first_page (total_pages start_page : Z) : Z :=
  if 0 <? total_pages then Z.max 0 (Z.min start_page (total_pages - 1)) else 0.

Definition display_outliers (outliers : list Group) (page_size start_page : Z)
  : M (option Selection) :=
  fun w =>
    match filter (fun o => negb (removed o)) outliers with
    | [] => (Ok None, w)
    | _ :: _ =>
        if page_size =? 0 then (Raise ZeroDivisionError, w)
        else
          let total_pages := total_pages_of outliers page_size in
          let page := first_page total_pages start_page in
          let '(r, rest, pages) :=
            browse outliers total_pages page (prompts w) in
          (r, {| prompts := rest; confirms := confirms w;
                 replies := replies w; db_log := db_log w;
                 shown := shown w ++ pages |})
    end.

(** ** [edit_outlier] and [delete_outlier] *)

(** The [with conn.cursor() as cursor:] block of [edit_outlier]. *)
Definition update_states (new_value : pyfloat) (state_ids : list Z) : M bool :=
  call Cursor ;;;
  except_mysql
    (call (Execute (UpdateState new_value state_ids)) ;;;
     call Commit ;;;
     ret true)
    (call Rollback ;;;
     ret false).

Definition edit_outlier (outlier : Group) : M bool :=
  choice <- ask ;;
  if String.eqb choice "c" then ret false
  else
    match (if String.eqb choice "m"
           then Some (Finite (mean (rep outlier)))
           else py_float choice) with
    | None => ret false
    | Some new_value => update_states new_value (ids outlier)
    end.

(** The [with conn.cursor() as cursor:] block of [delete_outlier]. *)
Definition purge_states (state_ids : list Z) : M bool :=
  call Cursor ;;;
  except_mysql
    (call (Execute (ClearOldState state_ids)) ;;;
     call (Execute (DeleteStates state_ids)) ;;;
     call Commit ;;;
     ret true)
    (call Rollback ;;;
     ret false).

Definition delete_outlier (outlier : Group) : M bool :=
  sure <- confirm ;;
  if negb sure then ret false
  else purge_states (ids outlier).

(** ** The review loop of [main] *)

Definition set_removed (g : Group) : Group :=
  {| rep := rep g; count := count g; ids := ids g;
     timestamps := timestamps g; values := values g;
     min_value := min_value g; max_value := max_value g;
     removed := true |}.

Fixpoint mark_at (i : nat) (l : list Group) : option (list Group) :=
  match l, i with
  | [], _ => None
  | g :: l', O => Some (set_removed g :: l')
  | g :: l', S i' => option_map (cons g) (mark_at i' l')
  end.

(** [all_outliers[idx]["_removed"] = True] *)
Definition mark_removed (idx : Z) (all_outliers : list Group)
  : M (list Group) :=
  let i := if idx <? 0 then len all_outliers + idx else idx in
  match (if i <? 0 then None else mark_at (Z.to_nat i) all_outliers) with
  | Some l => ret l
  | None => raise IndexError
  end.

(** The condition of the [if] in the loop body. *)
Definition mutate (action : ascii) (outlier : Group) : M bool :=
  edited <- (if Ascii.eqb action "e" then edit_outlier outlier else ret false) ;;
  if edited then ret true
  else if Ascii.eqb action "d" then delete_outlier outlier else ret false.

(** One turn of [while result := display_outliers(...)]: [None] when the
    loop ends, else the list and the page for the next turn. *)
Definition review_turn (all_outliers : list Group) (current_page : Z)
  : M (option (list Group * Z)) :=
  shown_result <- display_outliers all_outliers PAGE_SIZE current_page ;;
  match shown_result with
  | None => ret None
  | Some (action, idx, outlier) =>
      let current_page := idx / PAGE_SIZE in
      all_outliers' <-
        except_operational
          (ok <- mutate action outlier ;;
           if ok then mark_removed idx all_outliers else ret all_outliers)
          (call Connect ;;;
           ret all_outliers) ;;
      ret (Some (all_outliers', current_page))
  end.

Fixpoint review_loop (fuel : nat) (all_outliers : list Group)
  (current_page : Z) (w : World) : option (result (list Group) * World) :=
  match fuel with
  | O => None
  | S fuel' =>
      match review_turn all_outliers current_page w with
      | (Ok None, w') => Some (Ok all_outliers, w')
      | (Ok (Some (all_outliers', page')), w') =>
          review_loop fuel' all_outliers' page' w'
      | (Raise e, w') => Some (Raise e, w')
      end
  end.

(** The session of [main] from [current_page = 0] to [conn.close()].  Each
    turn that goes on has read a line, so the lines at hand bound the
    number of turns. *)
Definition review_session (all_outliers : list Group) (w : World)
  : option (result (list Group) * World) :=
  match review_loop (S (List.length (prompts w))) all_outliers 0 w with
  | Some (Ok l, w') =>
      Some (match call Close w' with
            | (Ok _, w'') => (Ok l, w'')
            | (Raise e, w'') => (Raise e, w'')
            end)
  | r => r
  end.

(** ** Vocabulary of the statements *)

(** The records of [outliers] that carry the key [k], in order. *)
Definition members (k : Key) (outliers : list Outlier) : list Outlier :=
  filter (fun o => if key_eq_dec (key_of o) k then true else false) outliers.
Arguments members : simpl never.

(** What a group keeps of each member. *)
Definition Member : Type := (Z * option Q * Q)%type.

Definition member_of (o : Outlier) : Member := (id o, timestamp o, value o).

Fixpoint zip3 (a : list Z) (b : list (option Q)) (c : list Q) : list Member :=
  match a, b, c with
  | x :: a', y :: b', z :: c' => (x, y, z) :: zip3 a' b' c'
  | _, _, _ => []
  end.

Definition group_members (g : Group) : list Member :=
  zip3 (ids g) (timestamps g) (values g).

Definition group_key (g : Group) : Key := key_of (rep g).

Fixpoint lookup (k : Key) (groups : list (Key * Group)) : option Group :=
  match groups with
  | [] => None
  | (k', g) :: rest => if key_eq_dec k k' then Some g else lookup k rest
  end.

(** The group of a key is its first record, with the later ones merged in
    one after the other. *)
Definition group_from (ms : list Outlier) : option Group :=
  match ms with
  | [] => None
  | m :: ms' => Some (fold_left add_member ms' (new_group m))
  end.

(** The minimum and the maximum bracket every member value. *)
Definition bracketed (g : Group) : Prop :=
  forall v, In v (values g) -> (min_value g <= v <= max_value g)%Q.

(** A member together with the key of the group that holds it, and a
    record together with its own key. *)
Definition tagged_members (g : Group) : list (Key * Member) :=
  map (pair (group_key g)) (group_members g).

Definition tagged (o : Outlier) : Key * Member := (key_of o, member_of o).

(** ** Sample data *)

Definition sample_row (i : Z) (v : Q) : StateRow :=
  {| state_id := i; numeric_value := v; last_updated_ts := Some (inject_Z i) |}.

Definition sample_candidate : Candidate :=
  {| metadata_id := 1; entity_id := "sensor.temp"; recent_state := Some "21.5" |}.

(** An entity with 300 valid samples, mean 20 and deviation 1, of which
    these rows are a part. *)
Definition sample_db : Database :=
  {| states_meta := [sample_candidate];
     aggregate := fun m =>
       if m =? 1 then Some {| cnt := 300; mean_val := 20; std_val := Some 1%Q |}
       else None;
     valid_states := fun m =>
       if m =? 1
       then [sample_row 1 (41 # 2); sample_row 2 (169 # 4);
             sample_row 3 (- 7); sample_row 4 19; sample_row 5 (109 # 4);
             sample_row 6 (59 # 4)]
       else [] |}.

(** An entity with 1000 valid samples whose out-of-bounds rows repeat: the
    value 99 eleven times, the value 77 nine times. *)
Definition repeated_rows : list StateRow :=
  map (fun i => sample_row i 99) [1; 2; 3; 4; 5; 6; 7; 8; 9; 10; 11]
  ++ map (fun i => sample_row i 77) [12; 13; 14; 15; 16; 17; 18; 19; 20].

Definition repeated_db : Database :=
  {| states_meta := [sample_candidate];
     aggregate := fun m =>
       if m =? 1 then Some {| cnt := 1000; mean_val := 20; std_val := Some 1%Q |}
       else None;
     valid_states := fun m => if m =? 1 then repeated_rows else [] |}.



(** Three records of one entity, in descending order of deviation, and a
    fourth below the mean. *)
Definition sample_outliers : list Outlier :=
  [ outlier_record sample_candidate 300 20 1 (sample_row 2 (169 # 4));
    outlier_record sample_candidate 300 20 1 (sample_row 7 42);
    outlier_record sample_candidate 300 20 1 (sample_row 5 (109 # 4));
    outlier_record sample_candidate 300 20 1 (sample_row 6 (59 # 4)) ].

(** Thirty groups of one record each, so that the list fills two pages. *)
Definition sample_group (i : Z) : Group :=
  new_group (outlier_record sample_candidate 300 20 1
               (sample_row i (inject_Z (100 - i)))).

Definition thirty_groups : list Group :=
  map sample_group
      [1; 2; 3; 4; 5; 6; 7; 8; 9; 10; 11; 12; 13; 14; 15; 16; 17; 18; 19; 20;
       21; 22; 23; 24; 25; 26; 27; 28; 29; 30].

Definition operator (lines : list string) (answers : list bool)
  (store : list db_reply) : World :=
  {| prompts := lines; confirms := answers; replies := store;
     db_log := []; shown := [] |}.

(** What a mutation leaves in the log, [calls] being the calls it made:
    success ends on a commit with no rollback, and a mutation that reached
    the store without success ends on a rollback. *)
Definition settled (r : result bool) (calls : list db_call) : Prop :=
  (r = Ok true -> last calls Cursor = Commit /\ ~ In Rollback calls)
  /\ ((exists s, In (Execute s) calls) -> r <> Ok true ->
      last calls Cursor = Rollback).

(** The mutation touched nothing but the store and the operator's input. *)
Definition extends (w w' : World) (calls : list db_call) : Prop :=
  db_log w' = (db_log w ++ calls)%list
  /\ shown w' = shown w
  /\ (List.length (prompts w') <= List.length (prompts w))%nat.

(** [sum(o.get("count", 1) for o in groups)]: every group has a count. *)
Definition sum_counts (groups : list Group) : Z :=
  fold_left (fun acc g => acc + count g) groups 0.

(** ** What the display renders *)

(** [l[start:stop]] for any two integers, as Python clips them. *)
Definition py_slice {A} (l : list A) (start stop : Z) : list A :=
  let n := len l in
  let clip i := if i <? 0 then Z.max 0 (n + i) else Z.min i n in
  let a := clip start in
  let b := clip stop in
  firstn (Z.to_nat (b - a)) (skipn (Z.to_nat a) l).

(** [enumerate(l, start=i)] *)
Fixpoint enumerate {A} (l : list A) (i : Z) : list (Z * A) :=
  match l with
  | [] => []
  | x :: l' => (i, x) :: enumerate l' (i + 1)
  end.

(** The rows of the table for [page]: the number in the first column and
    the group of the row. *)
Definition page_rows (outliers : list Group) (page_size page : Z)
  : list (Z * Group) :=
  let start_idx := page * page_size in
  enumerate (py_slice outliers start_idx (start_idx + page_size)) (start_idx + 1).

(** [active] and [total_records], the two numbers of the header line. *)
Definition active (outliers : list Group) : list Group :=
  filter (fun o => negb (removed o)) outliers.

Definition total_records (outliers : list Group) : Z :=
  sum_counts (active outliers).

(** How many calls of a log are commits. *)
Definition commits (calls : list db_call) : nat :=
  List.length (filter (fun c => match c with Commit => true | _ => false end) calls).

(** One list is the other with some more groups marked removed. *)
Definition only_marks (before after : list Group) : Prop :=
  List.length after = List.length before
  /\ forall j g', nth_error after j = Some g' ->
       exists g, nth_error before j = Some g
                 /\ (g' = g \/ (g' = set_removed g /\ removed g = false)).

(** A session in which the operator deletes group 27 and quits, and what
    it leaves. *)
Definition delete_27 : World := operator ["d27"; "q"] [true] [].

Definition after_delete_27 : list Group * World :=
  (map (fun g => if id (rep g) =? 27 then set_removed g else g) thirty_groups,
   {| prompts := []; confirms := []; replies := [];
      db_log := [Cursor; Execute (ClearOldState [27]);
                 Execute (DeleteStates [27]); Commit; Close];
      shown := [0; 1] |}).

(** Every character of [s] is a decimal digit. *)
Fixpoint all_digits (s : string) : bool :=
  match s with
  | EmptyString => true
  | String c r => is_digit c && all_digits r
  end.

(** [str(n)] for an integer. *)
Definition py_str (n : Z) : string :=
  if n <? 0 then String "-" (dec_string (- n)) else dec_string n.

(** The number a run of decimal digits denotes, on top of [acc]. *)
Fixpoint digits_value (s : string) (acc : Z) : Z :=
  match s with
  | EmptyString => acc
  | String c r => digits_value r (10 * acc + digit_val c)
  end.

(** ** [format_number] *)

(** The grouping of [f"{x:,}"]: a comma before every three digits counted
    from the right. *)
Fixpoint commas (digits : string) : string :=
  match digits with
  | EmptyString => EmptyString
  | String c r =>
      String c (if Nat.ltb 0 (String.length r)
                   && Nat.eqb (Nat.modulo (String.length r) 3) 0
                then String "," (commas r)
                else commas r)
  end.

Definition sign_of (neg : bool) : string := if neg then "-" else "".

Definition signed (neg : bool) (v : Z) : Z := if neg then - v else v.

Definition sign_text (x : Q) : string := sign_of (Qnum x <? 0).

(** [f"{x:,.0f}"] *)
Definition fmt_comma_0f (x : Q) : string :=
  sign_text x
  ++ commas (dec_string (round_half_even (Z.abs (Qnum x)) (Zpos (Qden x)))).

(** [f"{x:.4f}"] *)
Definition fmt_4f (x : Q) : string :=
  let m := round_half_even (Z.abs (Qnum x) * 10000) (Zpos (Qden x)) in
  let frac := dec_string (m mod 10000) in
  sign_text x ++ dec_string (m / 10000) ++ "."
  ++ zeros (4 - String.length frac) ++ frac.

(** [n] is the rational the float denotes: the digits are those of the
    exact value, rounded half to even as the formatting of a float does;
    infinities, NaN and the negative zero are no numbers of the model. *)
Definition format_number (n : Q) : string :=
  if Qle_bool 1000 (Qabs n) then fmt_comma_0f n
  else rstrip_by (fun c => Ascii.eqb c ".") (rstrip_zeros (fmt_4f n)).

(** Every character is a digit, a sign, a comma or a point. *)
Fixpoint plain (s : string) : bool :=
  match s with
  | EmptyString => true
  | String c r =>
      (is_digit c || Ascii.eqb c "-" || Ascii.eqb c "," || Ascii.eqb c ".")
      && plain r
  end.

(** No character of [s] satisfies [p]. *)
Fixpoint free_of (p : ascii -> bool) (s : string) : bool :=
  match s with
  | EmptyString => true
  | String c r => negb (p c) && free_of p r
  end.

(** ** [interactive_config] *)

Record Config : Type := {
  host : string;
  port : Z;
  user : string;
  password : string;
  database : string;
}.

(** What [load_cached_config() or {}] holds: any of the keys may be
    missing; the values are of the types [save_cached_config] writes. *)
Record Cache : Type := {
  cached_host : option string;
  cached_port : option Z;
  cached_user : option string;
  cached_password : option string;
  cached_database : option string;
}.

Definition updated {A} (default : A) (cached : option A) : A :=
  match cached with
  | Some a => a
  | None => default
  end.

(** [defaults] after [defaults.update(cached)]. *)
Definition config_defaults (cached : option Cache) : Config :=
  match cached with
  | None =>
      {| host := "localhost"; port := 3306; user := "homeassistant";
         password := ""; database := "homeassistant" |}
  | Some c =>
      {| host := updated "localhost" (cached_host c);
         port := updated 3306 (cached_port c);
         user := updated "homeassistant" (cached_user c);
         password := updated "" (cached_password c);
         database := updated "homeassistant" (cached_database c) |}
  end.

(** [Prompt.ask(label, default=default)] on the line the operator enters:
    the default for an empty line, else the line without the blanks
    around it. *)
Definition prompt_ask (line default : string) : string :=
  if String.eqb line "" then default else strip line.

(** The configuration returned, which is also the one handed to
    [save_cached_config], from what the cache holds and the five lines
    entered; [None] stands for the [ValueError] of [int]. *)
Definition interactive_config (cached : option Cache)
  (host_line port_line user_line password_line database_line : string)
  : option Config :=
  let defaults := config_defaults cached in
  let pw_display :=
    if String.eqb (password defaults) "" then "" else "**********" in
  let host := prompt_ask host_line (host defaults) in
  match py_int (prompt_ask port_line (py_str (port defaults))) with
  | None => None
  | Some port =>
      let user := prompt_ask user_line (user defaults) in
      let pw_input := prompt_ask password_line pw_display in
      let password :=
        if String.eqb pw_input pw_display then password defaults else pw_input in
      let database := prompt_ask database_line (database defaults) in
      Some {| host := host; port := port; user := user; password := password;
              database := database |}
  end.

(** What [json.loads] reads of what [save_cached_config] wrote. *)
Definition cache_of (config : Config) : Cache :=
  {| cached_host := Some (host config); cached_port := Some (port config);
     cached_user := Some (user config);
     cached_password := Some (password config);
     cached_database := Some (database config) |}.

(** ** The row of the table *)

(** [max((ts for ts in timestamps if ts), default=None)]: [None] and zero
    are left out, and the first of the greatest wins. *)
Definition later (best : option Q) (ts : option Q) : option Q :=
  match ts with
  | None => best
  | Some t =>
      if Qeq_bool t 0 then best
      else
        match best with
        | None => Some t
        | Some b => if Qltb b t then Some t else Some b
        end
  end.

Definition latest_ts (timestamps : list (option Q)) : option Q :=
  fold_left later timestamps None.

(** What [later] keeps. *)
Definition latest_of (seen : list (option Q)) (best : option Q) : Prop :=
  match best with
  | None => forall ts, In ts seen -> ts = None \/ exists t, ts = Some t /\ (t == 0)%Q
  | Some b =>
      In (Some b) seen /\ ~ (b == 0)%Q
      /\ forall t, In (Some t) seen -> ~ (t == 0)%Q -> (t <= b)%Q
  end.

(** ** The statements sent to the store *)

(** [sep.join(parts)] *)
Fixpoint join (sep : string) (parts : list string) : string :=
  match parts with
  | [] => ""
  | [p] => p
  | p :: rest => p ++ sep ++ join sep rest
  end.

Definition _in_placeholders {A} (items : list A) : string :=
  join "," (repeat "%s" (List.length items)).

(** The text passed to [cursor.execute]. *)
Definition statement_text (s : statement) : string :=
  match s with
  | UpdateState _ state_ids =>
      "UPDATE states SET state = %s WHERE state_id IN ("
      ++ _in_placeholders state_ids ++ ")"
  | ClearOldState state_ids =>
      "UPDATE states SET old_state_id = NULL WHERE old_state_id IN ("
      ++ _in_placeholders state_ids ++ ")"
  | DeleteStates state_ids =>
      "DELETE FROM states WHERE state_id IN ("
      ++ _in_placeholders state_ids ++ ")"
  end.

(** How many parameters are passed along: [[str(new_value)] + ids], or
    [ids]. *)
Definition statement_arity (s : statement) : nat :=
  match s with
  | UpdateState _ state_ids => S (List.length state_ids)
  | ClearOldState state_ids => List.length state_ids
  | DeleteStates state_ids => List.length state_ids
  end.

(** The occurrences of [%s] in a text. *)
Fixpoint placeholders (s : string) : nat :=
  match s with
  | EmptyString => O
  | String c r =>
      match r with
      | String d r' =>
          if Ascii.eqb c "%" && Ascii.eqb d "s"
          then S (placeholders r')
          else placeholders r
      | EmptyString => O
      end
  end.

(** * Properties *)

Local Open Scope list_scope.

(** ** Built-ins *)

Lemma Qltb_lt (x y : Q) : Qltb x y = true <-> (x < y)%Q.
Proof.
  unfold Qltb. rewrite negb_true_iff.
  destruct (Qle_bool y x) eqn:E.
  - apply Qle_bool_iff in E. split; [discriminate | intro H; lra].
  - split; [intros _ | reflexivity].
    destruct (Qlt_le_dec x y) as [H | H]; [exact H |].
    apply Qle_bool_iff in H. congruence.
Qed.

Lemma Qltb_ge (x y : Q) : Qltb x y = false <-> (y <= x)%Q.
Proof.
  unfold Qltb. rewrite negb_false_iff. apply Qle_bool_iff.
Qed.

Example py_int_ex :
  py_int " 12 " = Some 12 /\ py_int "-3" = Some (-3) /\ py_int "1_0" = Some 10
  /\ py_int "" = None /\ py_int "1__0" = None /\ py_int "5x" = None
  /\ py_int "_5" = None /\ py_int "+" = None.
Proof. repeat split; reflexivity. Qed.

Example py_float_ex :
  py_float "21.5" = Some (Finite (215 # 10))
  /\ py_float "-1e3" = Some (Finite (-1000))
  /\ py_float ".5" = Some (Finite (5 # 10))
  /\ py_float "5." = Some (Finite 5)
  /\ py_float "abc" = None /\ py_float "" = None /\ py_float "." = None
  /\ py_float "1e" = None /\ py_float "NaN" = Some NotANumber
  /\ py_float "1e400" = Some (Infinite false)
  /\ py_float " -1E+400 " = Some (Infinite true)
  /\ py_float (String (ascii_of_nat 28) "1") = None
  /\ py_int (String (ascii_of_nat 28) "1") = None
  /\ py_float (String (ascii_of_nat 9) "1") = Some (Finite 1).
Proof. repeat split; vm_compute; reflexivity. Qed.

Example fmt_6g_ex :
  fmt_6g (12345678 # 10000) = "1234.57"
  /\ fmt_6g (1234 # 10000000) = "0.0001234"
  /\ fmt_6g (1234 # 100000000) = "1.234e-05"
  /\ fmt_6g 1234567 = "1.23457e+06"
  /\ fmt_6g (9999995 # 10) = "1e+06"
  /\ fmt_6g 100000 = "100000"
  /\ fmt_6g (1 # 2) = "0.5"
  /\ fmt_6g (1234565 # 10) = "123456"
  /\ fmt_6g (1234575 # 10) = "123458"
  /\ fmt_6g (- 423 # 10) = "-42.3"
  /\ fmt_6g (inject_Z (10 ^ 20)) = "1e+20"
  /\ fmt_6g 0 = "0"
  /\ fmt_6g (3 # 1024) = "0.00292969".
Proof. repeat split; vm_compute; reflexivity. Qed.

(** ** Rounding to the nearest integer *)

Lemma round_half_even_spec (p q : Z) :
  0 < q ->
  let r := round_half_even p q in
  - q <= 2 * (r * q - p) <= q
  /\ (2 * (r * q - p) = q \/ 2 * (r * q - p) = - q -> Z.even r = true).
Proof.
  intros Hq. unfold round_half_even. cbv zeta.
  pose proof (Z.div_mod p q ltac:(lia)) as Hd.
  pose proof (Z.mod_pos_bound p q Hq) as Hm.
  destruct (Z.compare_spec (2 * (p mod q)) q) as [E | E | E].
  - destruct (Z.even (p / q)) eqn:Ev.
    + split; [nia |]. intros _. exact Ev.
    + split; [nia |]. intros _. rewrite Z.even_add, Ev. reflexivity.
  - split; [nia |]. intros [H | H]; nia.
  - split; [nia |]. intros [H | H]; nia.
Qed.

(** Rounding is monotone in the ratio. *)
Lemma round_half_even_mono (p1 q1 p2 q2 : Z) :
  0 < q1 -> 0 < q2 -> p1 * q2 <= p2 * q1 ->
  round_half_even p1 q1 <= round_half_even p2 q2.
Proof.
  intros H1 H2 Hle.
  destruct (round_half_even_spec p1 q1 H1) as [Hb1 He1].
  destruct (round_half_even_spec p2 q2 H2) as [Hb2 He2].
  set (r1 := round_half_even p1 q1) in *. set (r2 := round_half_even p2 q2) in *.
  destruct (Z_le_gt_dec r1 r2) as [Hok | Hgt]; [exact Hok | exfalso].
  assert (Hr : r2 + 1 <= r1) by lia.
  (* 2 r1 q1 q2 - q1 q2 <= 2 p1 q2 <= 2 p2 q1 <= 2 r2 q1 q2 + q1 q2 *)
  assert (Ha : (2 * r1 - 1) * (q1 * q2) <= 2 * (p1 * q2)) by nia.
  assert (Hb : 2 * (p2 * q1) <= (2 * r2 + 1) * (q1 * q2)) by nia.
  assert (Hq : 0 < q1 * q2) by nia.
  assert (Hc : (2 * r1 - 1) * (q1 * q2) <= (2 * r2 + 1) * (q1 * q2)) by lia.
  assert (Hr1 : r1 = r2 + 1) by nia.
  assert (Heq1 : (2 * r1 - 1) * (q1 * q2) = 2 * (p1 * q2)) by nia.
  assert (Heq2 : 2 * (p2 * q1) = (2 * r2 + 1) * (q1 * q2)) by nia.
  assert (T1 : 2 * (r1 * q1 - p1) = q1) by nia.
  assert (T2 : 2 * (r2 * q2 - p2) = - q2) by nia.
  specialize (He1 (or_introl T1)). specialize (He2 (or_intror T2)).
  rewrite Hr1, Z.even_add, He2 in He1. discriminate He1.
Qed.

Lemma round_half_even_exact (k q : Z) : 0 < q -> round_half_even (k * q) q = k.
Proof.
  intros Hq. unfold round_half_even.
  rewrite Z.mod_mul, Z.div_mul by lia.
  destruct q as [| q' | q']; [lia | reflexivity | lia].
Qed.

Lemma round_half_even_ge (k p q : Z) :
  0 < q -> k * q <= p -> k <= round_half_even p q.
Proof.
  intros Hq H.
  pose proof (round_half_even_mono (k * 1) 1 p q ltac:(lia) Hq ltac:(lia)) as H0.
  rewrite round_half_even_exact in H0 by lia. exact H0.
Qed.

Lemma round_half_even_le (k p q : Z) :
  0 < q -> p <= k * q -> round_half_even p q <= k.
Proof.
  intros Hq H.
  pose proof (round_half_even_mono p q (k * 1) 1 Hq ltac:(lia) ltac:(lia)) as H0.
  rewrite round_half_even_exact in H0 by lia. exact H0.
Qed.

(** ** Binary64: rounding is monotone and leaves a float alone *)

Lemma div_cross_mono (p1 q1 p2 q2 : Z) :
  0 < q1 -> 0 < q2 -> p1 * q2 <= p2 * q1 -> p1 / q1 <= p2 / q2.
Proof.
  intros H1 H2 H. apply Z.div_le_lower_bound; [exact H2 |].
  pose proof (Z.mul_div_le p1 q1 H1) as Hf. nia.
Qed.

Lemma unit64_pos : 0 < unit64.
Proof. reflexivity. Qed.

Lemma round64_units_nonneg (n d : Z) : 0 <= n -> 0 < d -> 0 <= round64_units n d.
Proof.
  intros Hn Hd. unfold round64_units. cbv zeta.
  set (c := Z.max _ 0).
  assert (Hp : 0 < 2 ^ c) by (apply Z.pow_pos_nonneg; lia).
  apply Z.mul_nonneg_nonneg; [| lia].
  apply round_half_even_ge; [nia |]. pose proof unit64_pos. nia.
Qed.

(** The significand of the result has at most 53 bits, and exactly 53
    above the subnormal range. *)
Lemma round64_units_shape (n d : Z) :
  0 <= n -> 0 < d ->
  let u := n * unit64 in
  let c := Z.max (Z.log2 (u / d) - 52) 0 in
  let m := round_half_even u (d * 2 ^ c) in
  0 <= c /\ 0 <= m <= 2 ^ 53 /\ (0 < c -> 2 ^ 52 <= m)
  /\ round64_units n d = m * 2 ^ c.
Proof.
  intros Hn Hd u c m.
  assert (Hc : 0 <= c) by (unfold c; lia).
  assert (Hp : 0 < 2 ^ c) by (apply Z.pow_pos_nonneg; lia).
  assert (Hu : 0 <= u) by (unfold u; pose proof unit64_pos; nia).
  set (f := u / d) in *.
  assert (Hf : 0 <= f) by (apply Z.div_pos; lia).
  assert (Hfd : f * d <= u < (f + 1) * d).
  { pose proof (Z.div_mod u d ltac:(lia)) as Hdm.
    pose proof (Z.mod_pos_bound u d Hd). fold f in Hdm. nia. }
  assert (Hlt : f < 2 ^ (c + 53)).
  { destruct (Z.eq_dec f 0) as [-> | Hnz];
      [apply Z.pow_pos_nonneg; lia |].
    apply Z.log2_lt_pow2; [lia |]. unfold c. lia. }
  split; [exact Hc |]. split; [split |]; [| | split; [| reflexivity]].
  - apply round_half_even_ge; [nia | lia].
  - apply round_half_even_le; [nia |].
    rewrite Z.pow_add_r in Hlt by lia. nia.
  - intros Hc0.
    assert (Hcf : c = Z.log2 f - 52) by (unfold c in *; lia).
    assert (Hfpos : 0 < f).
    { destruct (Z.eq_dec f 0) as [E | E]; [| lia].
      rewrite E in Hcf. cbn in Hcf. lia. }
    pose proof (Z.log2_spec f Hfpos) as [Hlow _].
    replace (Z.log2 f) with (c + 52) in Hlow by lia.
    rewrite Z.pow_add_r in Hlow by lia.
    apply round_half_even_ge; [nia | nia].
Qed.

Lemma round64_units_mono (n1 d1 n2 d2 : Z) :
  0 <= n1 -> 0 < d1 -> 0 <= n2 -> 0 < d2 ->
  n1 * d2 <= n2 * d1 ->
  round64_units n1 d1 <= round64_units n2 d2.
Proof.
  intros Hn1 Hd1 Hn2 Hd2 Hle.
  pose proof unit64_pos as HU.
  unfold round64_units. cbv zeta.
  set (u1 := n1 * unit64). set (u2 := n2 * unit64).
  set (f1 := u1 / d1). set (f2 := u2 / d2).
  set (c1 := Z.max (Z.log2 f1 - 52) 0). set (c2 := Z.max (Z.log2 f2 - 52) 0).
  assert (Hu : u1 * d2 <= u2 * d1) by (unfold u1, u2; nia).
  assert (Hu1 : 0 <= u1) by (unfold u1; nia).
  assert (Hu2 : 0 <= u2) by (unfold u2; nia).
  assert (Hf : f1 <= f2) by (apply div_cross_mono; assumption).
  assert (Hf1 : 0 <= f1) by (apply Z.div_pos; lia).
  assert (Hc : c1 <= c2).
  { unfold c1, c2. pose proof (Z.log2_le_mono f1 f2 Hf). lia. }
  assert (Hc1 : 0 <= c1) by (unfold c1; lia).
  assert (Hp1 : 0 < 2 ^ c1) by (apply Z.pow_pos_nonneg; lia).
  assert (Hp2 : 0 < 2 ^ c2) by (apply Z.pow_pos_nonneg; lia).
  destruct (Z.eq_dec c1 c2) as [E | E].
  - rewrite E. apply Z.mul_le_mono_nonneg_r; [lia |].
    apply round_half_even_mono; nia.
  - assert (Hlt : c1 < c2) by lia.
    assert (Hc2 : c2 = Z.log2 f2 - 52) by (unfold c2 in *; lia).
    assert (Hf2 : 0 < f2).
    { destruct (Z.eq_dec f2 0) as [E0 | E0]; [| lia].
      rewrite E0 in Hc2. cbn in Hc2. lia. }
    pose proof (Z.log2_spec f2 Hf2) as [Hlow _].
    replace (Z.log2 f2) with (c2 + 52) in Hlow by lia.
    assert (Hf1b : f1 < 2 ^ (c2 + 52)).
    { destruct (Z.eq_dec f1 0) as [-> | Hnz];
        [apply Z.pow_pos_nonneg; lia |].
      apply Z.log2_lt_pow2; [lia |]. unfold c1 in *. lia. }
    assert (Hd1m : f1 * d1 <= u1 < (f1 + 1) * d1).
    { pose proof (Z.div_mod u1 d1 ltac:(lia)) as Hdm.
      pose proof (Z.mod_pos_bound u1 d1 Hd1). fold f1 in Hdm. nia. }
    assert (Hd2m : f2 * d2 <= u2).
    { pose proof (Z.mul_div_le u2 d2 Hd2). fold f2 in H. nia. }
    set (b := 2 ^ (c2 + 52)) in *.
    assert (Hb2 : b = 2 ^ 52 * 2 ^ c2)
      by (unfold b; rewrite Z.pow_add_r by lia; ring).
    assert (Hb1 : b = 2 ^ (c2 + 52 - c1) * 2 ^ c1).
    { unfold b. rewrite <- Z.pow_add_r by lia. f_equal. lia. }
    apply Z.le_trans with b.
    + rewrite Hb1. apply Z.mul_le_mono_nonneg_r; [lia |].
      apply round_half_even_le; [nia |].
      assert (u1 <= b * d1) by nia. rewrite Hb1 in H. nia.
    + rewrite Hb2. apply Z.mul_le_mono_nonneg_r; [lia |].
      apply round_half_even_ge; [nia |].
      assert (b * d2 <= u2) by nia. rewrite Hb2 in H. nia.
Qed.

Lemma round64_units_ratio (n1 d1 n2 d2 : Z) :
  0 <= n1 -> 0 < d1 -> 0 <= n2 -> 0 < d2 ->
  n1 * d2 = n2 * d1 ->
  round64_units n1 d1 = round64_units n2 d2.
Proof.
  intros. apply Z.le_antisymm; apply round64_units_mono; lia.
Qed.

(** A result of the rounding, given in units, rounds to itself. *)
Lemma round64_units_fixed (n d : Z) :
  0 <= n -> 0 < d ->
  round64_units (round64_units n d) unit64 = round64_units n d.
Proof.
  intros Hn Hd.
  destruct (round64_units_shape n d Hn Hd) as (Hc & Hm & Hlow & ->).
  set (c := Z.max (Z.log2 (n * unit64 / d) - 52) 0) in *.
  set (m := round_half_even (n * unit64) (d * 2 ^ c)) in *.
  pose proof unit64_pos as HU.
  assert (Hp : 0 < 2 ^ c) by (apply Z.pow_pos_nonneg; lia).
  unfold round64_units. cbv zeta.
  rewrite Z.div_mul by lia.
  destruct (Z.eq_dec m 0) as [E0 | E0].
  { rewrite E0. cbn [Z.mul Z.log2 Z.sub Z.max]. cbn.
    unfold round_half_even. cbn. reflexivity. }
  assert (Hmpos : 0 < m) by lia.
  rewrite Z.log2_mul_pow2 by lia.
  destruct (Z.eq_dec m (2 ^ 53)) as [E53 | E53].
  - rewrite E53. replace (Z.log2 (2 ^ 53)) with 53 by reflexivity.
    replace (Z.max (c + 53 - 52) 0) with (c + 1) by lia.
    replace (2 ^ 53 * 2 ^ c * unit64) with (2 ^ 52 * (unit64 * 2 ^ (c + 1)))
      by (rewrite Z.pow_add_r by lia; change (2 ^ 53) with (2 ^ 52 * 2); ring).
    rewrite round_half_even_exact
      by (apply Z.mul_pos_pos; [lia | apply Z.pow_pos_nonneg; lia]).
    rewrite Z.pow_add_r by lia. change (2 ^ 53) with (2 ^ 52 * 2). ring.
  - assert (Hlog : Z.log2 m <= 52).
    { apply Z.lt_succ_r. apply Z.log2_lt_pow2; [lia |].
      change (Z.succ 52) with 53. lia. }
    assert (Hcc : Z.max (c + Z.log2 m - 52) 0 = c).
    { destruct (Z.eq_dec c 0) as [Ec | Ec]; [lia |].
      specialize (Hlow ltac:(lia)).
      assert (52 <= Z.log2 m) by (apply Z.log2_le_pow2; lia). lia. }
    rewrite Hcc.
    replace (m * 2 ^ c * unit64) with (m * (unit64 * 2 ^ c)) by ring.
    rewrite round_half_even_exact by nia. reflexivity.
Qed.

Lemma round64_units_zero (d : Z) : 0 < d -> round64_units 0 d = 0.
Proof.
  intros Hd. unfold round64_units. cbv zeta.
  rewrite Z.mul_0_l, Z.div_0_l by lia. cbn [Z.log2 Z.sub Z.max].
  change (Z.max (0 - 52) 0) with 0. rewrite Z.pow_0_r, Z.mul_1_r.
  unfold round_half_even. rewrite Z.mod_0_l, Z.div_0_l by lia.
  destruct d; [lia | reflexivity | lia].
Qed.


Lemma round_half_even_ratio (p1 q1 p2 q2 : Z) :
  0 < q1 -> 0 < q2 -> p1 * q2 = p2 * q1 ->
  round_half_even p1 q1 = round_half_even p2 q2.
Proof.
  intros. apply Z.le_antisymm; apply round_half_even_mono; lia.
Qed.

Lemma last_place_low (n d : Z) : - 1074 <= last_place n d.
Proof. unfold last_place. lia. Qed.

(** The significand and the last place give the rounding in units. *)
Lemma round64_units_split (n d : Z) :
  0 < d ->
  round64_units n d = significand n d * 2 ^ (last_place n d + 1074).
Proof.
  intros Hd. unfold round64_units, significand, last_place. cbv zeta.
  set (c := Z.max (Z.log2 (n * unit64 / d) - 52) 0).
  assert (Hc : 0 <= c) by (unfold c; lia).
  replace (c - 1074 + 1074) with c by lia.
  f_equal.
  assert (Hp : forall k, 0 <= k -> 0 < 2 ^ k)
    by (intros; apply Z.pow_pos_nonneg; lia).
  destruct (Z.leb_spec 0 (c - 1074)) as [E | E].
  - apply round_half_even_ratio; [pose proof (Hp c Hc); nia
                                 | pose proof (Hp (c - 1074) E); nia |].
    replace (2 ^ c) with (unit64 * 2 ^ (c - 1074))
      by (unfold unit64; rewrite <- Z.pow_add_r by lia; f_equal; lia).
    ring.
  - apply round_half_even_ratio; [pose proof (Hp c Hc); nia | exact Hd |].
    replace unit64 with (2 ^ (- (c - 1074)) * 2 ^ c)
      by (unfold unit64; rewrite <- Z.pow_add_r by lia; f_equal; lia).
    ring.
Qed.

Lemma ldexp_units (m e : Z) :
  - 1074 <= e ->
  (ldexp m e == inject_Z (m * 2 ^ (e + 1074)) / inject_Z unit64)%Q.
Proof.
  intros He. unfold ldexp.
  assert (HU : ~ (inject_Z unit64 == 0)%Q) by discriminate.
  destruct (Z.leb_spec 0 e) as [E | E].
  - unfold Qeq, Qdiv.
    change (Qinv (inject_Z unit64)) with (1 # Z.to_pos unit64)%Q.
    cbn [Qnum Qden Qmult inject_Z].
    rewrite Pos.mul_1_l, Z2Pos.id by exact unit64_pos.
    rewrite Z.pow_add_r by lia. fold unit64. ring.
  - unfold Qeq, Qdiv. cbn [Qnum Qden Qmult Qinv inject_Z].
    change (Qinv (inject_Z unit64)) with (1 # Z.to_pos unit64)%Q.
    cbn [Qnum Qden Qmult].
    rewrite Pos.mul_1_l.
    rewrite (Z2Pos.id unit64) by exact unit64_pos.
    rewrite (Z2Pos.id (2 ^ (- e))) by (apply Z.pow_pos_nonneg; lia).
    replace unit64 with (2 ^ (e + 1074) * 2 ^ (- e))
      by (unfold unit64; rewrite <- Z.pow_add_r by lia; f_equal; lia).
    ring.
Qed.

Lemma ldexp_round64_units (s n d : Z) :
  0 < d ->
  (ldexp (s * significand n d) (last_place n d)
   == inject_Z (s * round64_units n d) / inject_Z unit64)%Q.
Proof.
  intros Hd. rewrite ldexp_units by apply last_place_low.
  rewrite (round64_units_split n d Hd), Z.mul_assoc. reflexivity.
Qed.

Lemma round64_value (x : Q) :
  (round64 x
   == inject_Z (Z.sgn (Qnum x) * round64_units (Z.abs (Qnum x)) (Zpos (Qden x)))
      / inject_Z unit64)%Q.
Proof.
  unfold round64. cbv zeta. rewrite Qred_correct.
  apply ldexp_round64_units. reflexivity.
Qed.



(** Rounding sees the number, not the fraction that writes it. *)
Lemma round64_eq (x y : Q) : (x == y)%Q -> round64 x = round64 y.
Proof.
  intros Hxy. unfold round64. cbv zeta. apply Qred_complete.
  rewrite !ldexp_round64_units by reflexivity.
  destruct x as [n1 d1], y as [n2 d2]. unfold Qeq in Hxy. cbn [Qnum Qden] in *.
  assert (Hs : Z.sgn n1 = Z.sgn n2) by nia.
  rewrite Hs.
  rewrite (round64_units_ratio (Z.abs n1) (Zpos d1) (Z.abs n2) (Zpos d2));
    [reflexivity | lia | reflexivity | lia | reflexivity | nia].
Qed.

Lemma round64_idem (x : Q) : round64 (round64 x) = round64 x.
Proof.
  set (r := round64_units (Z.abs (Qnum x)) (Zpos (Qden x))).
  assert (Hr : 0 <= r) by (apply round64_units_nonneg; [lia | reflexivity]).
  set (y := (Z.sgn (Qnum x) * r # Z.to_pos unit64)).
  assert (Hy : (round64 x == y)%Q).
  { rewrite round64_value. fold r. unfold y.
    rewrite (Qmake_Qdiv _ (Z.to_pos unit64)).
    rewrite Z2Pos.id by exact unit64_pos. reflexivity. }
  assert (Hfix : (round64 y == y)%Q).
  { rewrite round64_value. unfold y at 1 2 3. cbn [Qnum Qden].
    rewrite Z2Pos.id by exact unit64_pos.
    unfold y. rewrite (Qmake_Qdiv _ (Z.to_pos unit64)).
    rewrite Z2Pos.id by exact unit64_pos.
    destruct (Z.eq_dec (Qnum x) 0) as [E | E].
    - rewrite E. cbn [Z.sgn Z.mul Z.abs]. reflexivity.
    - assert (Hra : Z.abs (Z.sgn (Qnum x) * r) = r).
      { rewrite Z.abs_mul, (Z.abs_eq r) by lia.
        destruct (Qnum x); [congruence | |]; cbn [Z.sgn Z.abs]; lia. }
      rewrite Hra. unfold r at 2.
      rewrite round64_units_fixed by (try lia; reflexivity). fold r.
      destruct (Z.eq_dec r 0) as [E0 | E0].
      + rewrite E0, !Z.mul_0_r. reflexivity.
      + assert (Hsg : Z.sgn (Z.sgn (Qnum x) * r) = Z.sgn (Qnum x)).
        { rewrite Z.sgn_mul, Z.sgn_sgn. rewrite (Z.sgn_pos r) by lia. lia. }
        rewrite Hsg. reflexivity. }
  rewrite (round64_eq _ _ Hy).
  assert (Hred : round64 x = Qred (round64 x)).
  { unfold round64 at 2. cbv zeta. symmetry. apply Qred_complete, Qred_correct. }
  rewrite Hred. unfold round64 at 1. cbv zeta.
  apply Qred_complete.
  fold (round64 y) in Hfix.
  change (Qred (ldexp (Z.sgn (Qnum y) * significand (Z.abs (Qnum y)) (Zpos (Qden y)))
                      (last_place (Z.abs (Qnum y)) (Zpos (Qden y)))))
    with (round64 y) in Hfix.
  unfold round64 in Hfix. cbv zeta in Hfix. rewrite Qred_correct in Hfix.
  rewrite Hfix. symmetry. exact Hy.
Qed.

Lemma round64_zero : round64 0 = 0%Q.
Proof. vm_compute. reflexivity. Qed.

Example round64_ex :
  round64 20 = 20%Q
  /\ round64 (1 # 4) = (1 # 4)%Q
  /\ round64 (1 # 10) = (3602879701896397 # 36028797018963968)%Q
  /\ float_add (round64 (1 # 10)) (round64 (2 # 10))
     = (1351079888211149 # 4503599627370496)%Q
  /\ (round64 (3 # 10) < float_add (round64 (1 # 10)) (round64 (2 # 10)))%Q
  /\ float_mul 5 (round64 (47 # 100)) = (1322932390540083 # 562949953421312)%Q
  /\ round64 (1 # Z.to_pos (2 ^ 1075)) = 0%Q
  /\ round64 (3 # Z.to_pos (2 ^ 1075)) = (1 # Z.to_pos (2 ^ 1073))%Q.
Proof. repeat (split; [vm_compute; reflexivity |]). vm_compute. reflexivity. Qed.

(** ** Sorting *)

Section SortingFacts.
Context {A : Type} (key : A -> Q).

Lemma insert_desc_perm (x : A) (l : list A) :
  Permutation (insert_desc key x l) (x :: l).
Proof.
  induction l as [| y l IH]; simpl.
  - apply Permutation_refl.
  - destruct (Qltb (key x) (key y)).
    + eapply perm_trans; [apply perm_skip, IH | apply perm_swap].
    + apply Permutation_refl.
Qed.

Lemma sorted_desc_perm (l : list A) : Permutation (sorted_desc key l) l.
Proof.
  induction l as [| x l IH]; simpl.
  - apply perm_nil.
  - eapply perm_trans; [apply insert_desc_perm | apply perm_skip, IH].
Qed.

Lemma sorted_desc_In (x : A) (l : list A) :
  In x (sorted_desc key l) <-> In x l.
Proof.
  split; apply Permutation_in;
    [apply sorted_desc_perm | apply Permutation_sym, sorted_desc_perm].
Qed.

Lemma desc_trans (x y z : A) : desc key x y -> desc key y z -> desc key x z.
Proof. unfold desc. intros H1 H2. lra. Qed.

Lemma insert_desc_hd (x a : A) (l : list A) :
  desc key a x -> HdRel (desc key) a l -> HdRel (desc key) a (insert_desc key x l).
Proof.
  intros Hax Hl. destruct l as [| y l]; simpl.
  - constructor. exact Hax.
  - destruct (Qltb (key x) (key y)); constructor.
    + inversion Hl; assumption.
    + exact Hax.
Qed.

Lemma insert_desc_sorted (x : A) (l : list A) :
  Sorted (desc key) l -> Sorted (desc key) (insert_desc key x l).
Proof.
  induction l as [| y l IH]; intros Hs; simpl.
  - repeat constructor.
  - inversion Hs as [| ? ? Hs' Hhd]; subst.
    destruct (Qltb (key x) (key y)) eqn:E.
    + constructor; [apply IH, Hs' |].
      apply insert_desc_hd; [| exact Hhd].
      apply Qltb_lt in E. unfold desc. lra.
    + constructor; [exact Hs |]. constructor.
      apply Qltb_ge in E. exact E.
Qed.

Lemma sorted_desc_sorted (l : list A) : Sorted (desc key) (sorted_desc key l).
Proof.
  induction l as [| x l IH]; simpl.
  - constructor.
  - apply insert_desc_sorted, IH.
Qed.
End SortingFacts.

(** ** The scan *)

Lemma fetch_outside_In (db : Database) (m : Z) (lo hi : Q) (row : StateRow) :
  In row (fetch_outside db m lo hi) <->
  In row (valid_states db m)
  /\ ((numeric_value row < lo)%Q \/ (hi < numeric_value row)%Q).
Proof.
  unfold fetch_outside. rewrite filter_In, orb_true_iff, !Qltb_lt. tauto.
Qed.

Lemma keep_rare_In (c : Candidate) (total : Z) (mean_v std : Q)
  (rows : list StateRow) (o : Outlier) :
  In o (keep_rare c total mean_v std rows) <->
  exists row, In row rows /\ too_frequent total rows row = false
              /\ o = outlier_record c total mean_v std row.
Proof.
  unfold keep_rare. rewrite in_flat_map. split.
  - intros (row & Hin & Ho). exists row.
    destruct (too_frequent total rows row); simpl in Ho.
    + contradiction.
    + destruct Ho as [Ho | []]. auto.
  - intros (row & Hin & Hf & ->). exists row. rewrite Hf. simpl. auto.
Qed.

Lemma scan_candidate_In (db : Database) (ms : Z) (c : Candidate) (o : Outlier) :
  In o (scan_candidate db ms c) <->
  exists st std_raw,
    aggregate db (metadata_id c) = Some st
    /\ ms <= cnt st
    /\ std_val st = Some std_raw
    /\ ~ (round64 std_raw == 0)%Q
    /\ In o (keep_rare c (cnt st) (round64 (mean_val st)) (round64 std_raw)
               (fetch_outside db (metadata_id c)
                  (lower_of (round64 (mean_val st)) (round64 std_raw))
                  (upper_of (round64 (mean_val st)) (round64 std_raw)))).
Proof.
  unfold scan_candidate. cbv zeta. split.
  - destruct (aggregate db (metadata_id c)) as [st |]; [| contradiction].
    destruct (cnt st <? ms) eqn:Ec; [contradiction |].
    destruct (std_val st) as [std |] eqn:Esd; [| contradiction].
    destruct (Qeq_bool std 0) eqn:Es; [contradiction |].
    destruct (Qeq_bool (round64 std) 0) eqn:Er; [contradiction |].
    intros H. exists st, std.
    split; [reflexivity |]. split; [apply Z.ltb_ge, Ec |].
    split; [exact Esd |]. split; [| exact H].
    intros Hz. apply Qeq_bool_iff in Hz. congruence.
  - intros (st & std & -> & Hc & -> & Hs & H).
    apply Z.ltb_ge in Hc. rewrite Hc.
    destruct (Qeq_bool std 0) eqn:Es.
    + exfalso. apply Hs. apply Qeq_bool_iff in Es.
      rewrite (round64_eq _ _ Es). reflexivity.
    + destruct (Qeq_bool (round64 std) 0) eqn:Er; [| exact H].
      apply Qeq_bool_iff in Er. contradiction.
Qed.

Lemma find_outliers_In (db : Database) (ms : Z) (o : Outlier) :
  In o (find_outliers_in_states db ms) <->
  exists c, In c (states_meta db) /\ is_numeric c = true
            /\ In o (scan_candidate db ms c).
Proof.
  unfold find_outliers_in_states. rewrite sorted_desc_In, in_flat_map.
  split.
  - intros (c & Hc & Ho). apply filter_In in Hc. exists c. tauto.
  - intros (c & Hc & Hn & Ho). exists c. rewrite filter_In. tauto.
Qed.


(** Where a record of the scan comes from. *)
Lemma scan_record (db : Database) (ms : Z) (o : Outlier) :
  In o (find_outliers_in_states db ms) ->
  exists c st std_raw row,
    In c (states_meta db)
    /\ is_numeric c = true
    /\ aggregate db (metadata_id c) = Some st
    /\ ms <= cnt st
    /\ std_val st = Some std_raw
    /\ ~ (round64 std_raw == 0)%Q
    /\ In row (valid_states db (metadata_id c))
    /\ ((numeric_value row
         < lower_of (round64 (mean_val st)) (round64 std_raw))%Q
        \/ (upper_of (round64 (mean_val st)) (round64 std_raw)
            < numeric_value row)%Q)
    /\ o = outlier_record c (cnt st) (round64 (mean_val st)) (round64 std_raw) row.
Proof.
  intros Ho. apply find_outliers_In in Ho. destruct Ho as (c & Hc & Hn & Ho).
  apply scan_candidate_In in Ho.
  destruct Ho as (st & std & Ha & Hm & Hs & Hnz & Ho).
  apply keep_rare_In in Ho. destruct Ho as (row & Hrow & _ & ->).
  apply fetch_outside_In in Hrow. destruct Hrow as [Hrow Hout].
  exists c, st, std, row. auto 10.
Qed.







(** ** The grouping *)

Lemma lookup_upsert (k key : Key) (o : Outlier) (gs : list (Key * Group)) :
  lookup k (upsert key o gs) =
  if key_eq_dec k key
  then Some match lookup key gs with
            | Some g => add_member g o
            | None => new_group o
            end
  else lookup k gs.
Proof.
  induction gs as [| [k' g] gs IH]; simpl.
  - destruct (key_eq_dec k key); reflexivity.
  - destruct (key_eq_dec key k') as [E | E]; simpl.
    + subst k'. destruct (key_eq_dec k key); reflexivity.
    + destruct (key_eq_dec k k') as [E' | E'].
      * destruct (key_eq_dec k key); [congruence | reflexivity].
      * exact IH.
Qed.

Lemma keys_upsert (key : Key) (o : Outlier) (gs : list (Key * Group)) :
  map fst (upsert key o gs) =
  if in_dec key_eq_dec key (map fst gs) then map fst gs
  else map fst gs ++ [key].
Proof.
  induction gs as [| [k' g] gs IH]; simpl.
  - reflexivity.
  - destruct (key_eq_dec key k') as [E | E]; simpl.
    + subst k'. destruct (key_eq_dec key key); [reflexivity | congruence].
    + rewrite IH. destruct (key_eq_dec k' key); [congruence |].
      destruct (in_dec key_eq_dec key (map fst gs)); reflexivity.
Qed.

Lemma build_groups_snoc (os : list Outlier) (o : Outlier) :
  build_groups (os ++ [o]) = upsert (key_of o) o (build_groups os).
Proof. unfold build_groups. rewrite fold_left_app. reflexivity. Qed.

Lemma members_snoc (k : Key) (os : list Outlier) (o : Outlier) :
  members k (os ++ [o]) =
  members k os ++ (if key_eq_dec (key_of o) k then [o] else []).
Proof.
  unfold members. rewrite filter_app. simpl.
  destruct (key_eq_dec (key_of o) k); reflexivity.
Qed.

Lemma lookup_build_groups (k : Key) (os : list Outlier) :
  lookup k (build_groups os) = group_from (members k os).
Proof.
  induction os as [| o os IH] using rev_ind.
  - reflexivity.
  - rewrite build_groups_snoc, lookup_upsert, members_snoc.
    destruct (key_eq_dec k (key_of o)) as [E | E].
    + subst k. rewrite IH.
      destruct (key_eq_dec (key_of o) (key_of o)); [| congruence].
      destruct (members (key_of o) os) as [| m ms]; simpl.
      * reflexivity.
      * rewrite fold_left_app. reflexivity.
    + destruct (key_eq_dec (key_of o) k); [congruence |].
      rewrite app_nil_r. exact IH.
Qed.

Lemma keys_build_groups_NoDup (os : list Outlier) :
  NoDup (map fst (build_groups os)).
Proof.
  induction os as [| o os IH] using rev_ind.
  - constructor.
  - rewrite build_groups_snoc, keys_upsert.
    destruct (in_dec key_eq_dec (key_of o) (map fst (build_groups os)))
      as [Hin | Hin]; [exact IH |].
    apply NoDup_rev in IH. rewrite <- (rev_involutive (_ ++ _)).
    apply NoDup_rev. rewrite rev_app_distr. simpl.
    constructor; [| exact IH].
    rewrite <- in_rev. exact Hin.
Qed.

Lemma lookup_In (k : Key) (g : Group) (gs : list (Key * Group)) :
  NoDup (map fst gs) -> (In (k, g) gs <-> lookup k gs = Some g).
Proof.
  induction gs as [| [k' g'] gs IH]; simpl; intros Hnd.
  - split; [contradiction | discriminate].
  - inversion Hnd as [| ? ? Hni Hnd']; subst.
    destruct (key_eq_dec k k') as [E | E].
    + subst k'. split.
      * intros [H | H]; [congruence |].
        exfalso. apply Hni. apply (in_map fst) in H. exact H.
      * intros H. left. congruence.
    + rewrite <- (IH Hnd'). split.
      * intros [H | H]; [congruence | exact H].
      * auto.
Qed.

Lemma build_groups_In (k : Key) (g : Group) (os : list Outlier) :
  In (k, g) (build_groups os) <-> group_from (members k os) = Some g.
Proof.
  rewrite (lookup_In k g _ (keys_build_groups_NoDup os)).
  rewrite lookup_build_groups. reflexivity.
Qed.

Lemma py_min_le (a b : Q) : (py_min a b <= a)%Q /\ (py_min a b <= b)%Q.
Proof.
  unfold py_min. destruct (Qltb b a) eqn:E.
  - apply Qltb_lt in E. split; lra.
  - apply Qltb_ge in E. split; lra.
Qed.

Lemma py_max_ge (a b : Q) : (a <= py_max a b)%Q /\ (b <= py_max a b)%Q.
Proof.
  unfold py_max. destruct (Qltb a b) eqn:E.
  - apply Qltb_lt in E. split; lra.
  - apply Qltb_ge in E. split; lra.
Qed.

Lemma add_member_bracketed (g : Group) (o : Outlier) :
  bracketed g -> bracketed (add_member g o).
Proof.
  unfold bracketed. simpl. intros Hg v Hv.
  destruct (py_min_le (min_value g) (value o)) as [Hm1 Hm2].
  destruct (py_max_ge (max_value g) (value o)) as [HM1 HM2].
  apply in_app_or in Hv. destruct Hv as [Hv | [Hv | []]].
  - specialize (Hg v Hv). lra.
  - subst v. lra.
Qed.

Lemma len_cons {A} (x : A) (l : list A) : len (x :: l) = len l + 1.
Proof. unfold len. cbn [List.length]. lia. Qed.

Lemma len_nonneg {A} (l : list A) : 0 <= len l.
Proof. unfold len. lia. Qed.

Lemma fold_add_member (ms : list Outlier) (g0 : Group) :
  let g := fold_left add_member ms g0 in
  rep g = rep g0
  /\ ids g = ids g0 ++ map id ms
  /\ timestamps g = timestamps g0 ++ map timestamp ms
  /\ values g = values g0 ++ map value ms
  /\ count g = count g0 + len ms
  /\ removed g = removed g0
  /\ (bracketed g0 -> bracketed g).
Proof.
  revert g0. induction ms as [| m ms IH]; intros g0; cbn [fold_left map].
  - rewrite !app_nil_r. change (len (@nil Outlier)) with 0.
    repeat (split; [solve [auto | lia] |]). auto.
  - destruct (IH (add_member g0 m)) as (H1 & H2 & H3 & H4 & H5 & H6 & H7).
    cbn zeta in *. rewrite H1, H2, H3, H4, H5, H6, len_cons. simpl.
    rewrite <- !app_assoc. simpl.
    repeat (split; [reflexivity |]).
    split; [lia |].
    split; [reflexivity |].
    intros Hb. apply H7, add_member_bracketed, Hb.
Qed.

Lemma group_from_spec (m : Outlier) (ms : list Outlier) (g : Group) :
  group_from (m :: ms) = Some g ->
  rep g = m
  /\ ids g = map id (m :: ms)
  /\ timestamps g = map timestamp (m :: ms)
  /\ values g = map value (m :: ms)
  /\ count g = len (m :: ms)
  /\ removed g = false
  /\ bracketed g.
Proof.
  cbn [group_from]. intros H. injection H as <-.
  destruct (fold_add_member ms (new_group m)) as (H1 & H2 & H3 & H4 & H5 & H6 & H7).
  cbn zeta in *. cbn [new_group rep ids timestamps values count removed app] in *.
  repeat (split; [assumption |]).
  split; [rewrite H5, len_cons; lia |].
  split; [assumption |].
  apply H7. intros v [<- | []]. simpl. lra.
Qed.

Lemma zip3_map (ms : list Outlier) :
  zip3 (map id ms) (map timestamp ms) (map value ms) = map member_of ms.
Proof.
  induction ms as [| m ms IH]; simpl; [reflexivity |].
  rewrite IH. reflexivity.
Qed.

Lemma members_In (k : Key) (os : list Outlier) (o : Outlier) :
  In o (members k os) <-> In o os /\ key_of o = k.
Proof.
  unfold members. rewrite filter_In.
  destruct (key_eq_dec (key_of o) k); intuition congruence.
Qed.

(** What membership in the dictionary says about a group. *)
Lemma build_groups_spec (k : Key) (g : Group) (os : list Outlier) :
  In (k, g) (build_groups os) ->
  exists m ms,
    members k os = m :: ms
    /\ rep g = m
    /\ group_key g = k
    /\ ids g = map id (m :: ms)
    /\ timestamps g = map timestamp (m :: ms)
    /\ values g = map value (m :: ms)
    /\ group_members g = map member_of (m :: ms)
    /\ count g = len (m :: ms)
    /\ removed g = false
    /\ bracketed g.
Proof.
  intros H. apply build_groups_In in H.
  destruct (members k os) as [| m ms] eqn:Em; [discriminate |].
  destruct (group_from_spec m ms g H) as (H1 & H2 & H3 & H4 & H5 & H6 & H7).
  exists m, ms.
  split; [reflexivity |]. split; [exact H1 |].
  split.
  { unfold group_key. rewrite H1.
    assert (Hin : In m (members k os)) by (rewrite Em; left; reflexivity).
    apply members_In in Hin. tauto. }
  split; [exact H2 |]. split; [exact H3 |]. split; [exact H4 |].
  split; [unfold group_members; rewrite H2, H3, H4; apply zip3_map |].
  split; [exact H5 |]. split; [exact H6 | exact H7].
Qed.

Lemma lookup_Some_In (k : Key) (g : Group) (gs : list (Key * Group)) :
  lookup k gs = Some g -> In (k, g) gs.
Proof.
  induction gs as [| [k' g'] gs IH]; simpl; [discriminate |].
  destruct (key_eq_dec k k') as [-> | E].
  - intros H. left. congruence.
  - auto.
Qed.

Lemma build_groups_covers (os : list Outlier) (o : Outlier) :
  In o os -> exists g, In (key_of o, g) (build_groups os).
Proof.
  intros Hin.
  destruct (lookup (key_of o) (build_groups os)) as [g |] eqn:E.
  - exists g. apply lookup_Some_In, E.
  - rewrite lookup_build_groups in E.
    assert (Hm : In o (members (key_of o) os)) by (apply members_In; auto).
    destruct (members (key_of o) os); [contradiction | discriminate].
Qed.

Lemma build_groups_keys (os : list Outlier) :
  map group_key (map snd (build_groups os)) = map fst (build_groups os).
Proof.
  rewrite map_map. apply map_ext_in. intros [k g] Hin. simpl.
  destruct (build_groups_spec k g os Hin) as (m & ms & _ & _ & Hk & _).
  exact Hk.
Qed.

Lemma members_cons (k : Key) (o : Outlier) (os : list Outlier) :
  members k (o :: os) =
  if key_eq_dec (key_of o) k then o :: members k os else members k os.
Proof. unfold members. simpl. destruct (key_eq_dec (key_of o) k); reflexivity. Qed.

Lemma flat_members_other (o : Outlier) (os : list Outlier) (ks : list Key) :
  ~ In (key_of o) ks ->
  flat_map (fun k => members k (o :: os)) ks = flat_map (fun k => members k os) ks.
Proof.
  induction ks as [| k ks IH]; simpl; intros Hni; [reflexivity |].
  rewrite members_cons.
  destruct (key_eq_dec (key_of o) k) as [E | E]; [intuition congruence |].
  rewrite IH by tauto. reflexivity.
Qed.

(** Sorting the records by key, one distinct key after the other, only
    reorders them. *)
Lemma members_partition (ks : list Key) (os : list Outlier) :
  NoDup ks ->
  (forall o, In o os -> In (key_of o) ks) ->
  Permutation (flat_map (fun k => members k os) ks) os.
Proof.
  intros Hnd. induction os as [| o os IH]; intros Hcov.
  - replace (flat_map (fun k => members k []) ks) with (@nil Outlier).
    + constructor.
    + clear. induction ks; simpl; auto.
  - assert (Hin : In (key_of o) ks) by (apply Hcov; left; reflexivity).
    apply in_split in Hin. destruct Hin as (ks1 & ks2 & Hks).
    rewrite Hks in Hnd. pose proof (NoDup_remove_2 _ _ _ Hnd) as Hni.
    assert (IH' : Permutation (flat_map (fun k => members k os) ks) os)
      by (apply IH; intros; apply Hcov; right; assumption).
    rewrite Hks in *. rewrite flat_map_app in *. simpl in *.
    rewrite members_cons.
    destruct (key_eq_dec (key_of o) (key_of o)); [| congruence].
    rewrite !flat_members_other
      by (intros H; apply Hni, in_or_app; tauto).
    simpl. apply Permutation_sym.
    eapply perm_trans; [| apply Permutation_middle].
    apply perm_skip, Permutation_sym, IH'.
Qed.

Lemma build_groups_tagged (os : list Outlier) :
  flat_map tagged_members (map snd (build_groups os)) =
  map tagged (flat_map (fun k => members k os) (map fst (build_groups os))).
Proof.
  assert (H : forall gs,
             (forall k g, In (k, g) gs -> In (k, g) (build_groups os)) ->
             flat_map tagged_members (map snd gs) =
             map tagged (flat_map (fun k => members k os) (map fst gs))).
  { induction gs as [| [k g] gs IH]; simpl; intros Hsub; [reflexivity |].
    rewrite map_app, <- IH by (intros; apply Hsub; right; assumption).
    f_equal.
    destruct (build_groups_spec k g os (Hsub k g (or_introl eq_refl)))
      as (m & ms & Hm & _ & Hk & _ & _ & _ & Hmem & _).
    unfold tagged_members. rewrite Hk, Hmem, <- Hm, map_map.
    apply map_ext_in. intros o Ho. apply members_In in Ho.
    unfold tagged. destruct Ho as [_ ->]. reflexivity. }
  apply H. auto.
Qed.

Lemma build_groups_partition (os : list Outlier) :
  Permutation (flat_map tagged_members (map snd (build_groups os)))
              (map tagged os).
Proof.
  rewrite build_groups_tagged. apply Permutation_map.
  apply members_partition.
  - apply keys_build_groups_NoDup.
  - intros o Ho. destruct (build_groups_covers os o Ho) as [g Hg].
    apply (in_map fst) in Hg. exact Hg.
Qed.

Lemma group_outliers_In (os : list Outlier) (g : Group) :
  In g (group_outliers os) <-> exists k, In (k, g) (build_groups os).
Proof.
  unfold group_outliers. rewrite sorted_desc_In, in_map_iff. split.
  - intros ([k g'] & Hg & Hin). simpl in Hg. subst g'. exists k. exact Hin.
  - intros (k & Hin). exists (k, g). auto.
Qed.

Lemma group_outliers_perm (os : list Outlier) :
  Permutation (group_outliers os) (map snd (build_groups os)).
Proof. apply sorted_desc_perm. Qed.

(** ** The scan: deviation and bounds *)



Ltac finite_rows :=
  repeat match goal with
         | H : _ \/ _ |- _ => destruct H as [H | H]
         | H : False |- _ => destruct H
         | H : _ = ?row |- finite_scan _ _ (numeric_value ?row) =>
             rewrite <- H; clear H
         end;
  unfold finite_scan; cbv zeta;
  repeat (split; [vm_compute; reflexivity |]); vm_compute; reflexivity.

Lemma sample_db_finite : finite_store sample_db.
Proof.
  intros c st std_raw row [<- | []] Ha Hs Hrow.
  cbn [sample_db aggregate valid_states sample_candidate metadata_id] in Ha, Hrow.
  change (1 =? 1) with true in Ha, Hrow. cbv iota in Ha, Hrow.
  injection Ha as <-. cbn [std_val mean_val] in *. injection Hs as <-.
  cbn [In] in Hrow. finite_rows.
Qed.



(** ** The scan: frequency filter *)

Lemma Counter_filter {A} (f : A -> string) (l : list A) (k : string) :
  Counter (map f l) k = len (filter (fun x => String.eqb (f x) k) l).
Proof.
  unfold Counter, len. f_equal.
  induction l as [| x l IH]; simpl; [reflexivity |].
  destruct (string_dec (f x) k) as [E | E].
  - rewrite (proj2 (String.eqb_eq _ _) E). simpl. rewrite IH. reflexivity.
  - rewrite (proj2 (String.eqb_neq _ _) E). exact IH.
Qed.

Lemma too_frequent_iff (total : Z) (rows : list StateRow) (row : StateRow) :
  too_frequent total rows row = true <->
  (inject_Z total * FREQUENCY_THRESHOLD < inject_Z (occurrence_count rows row))%Q.
Proof. unfold too_frequent. apply Qltb_lt. Qed.

Lemma keep_rare_record (c : Candidate) (total : Z) (mean_v std : Q)
  (rows : list StateRow) (row : StateRow) :
  In row rows ->
  (In (outlier_record c total mean_v std row) (keep_rare c total mean_v std rows)
   <-> too_frequent total rows row = false).
Proof.
  intros Hin. rewrite keep_rare_In. split.
  - intros (row' & _ & Hf & Heq).
    unfold too_frequent, occurrence_count in *.
    assert (Hv : round64 (numeric_value row) = round64 (numeric_value row'))
      by (apply (f_equal value) in Heq; exact Heq).
    rewrite Hv. exact Hf.
  - intros Hf. exists row. auto.
Qed.

(** C2: a fetched out-of-bounds row is dropped exactly when the number of
    fetched rows of its entity whose value prints, at six significant
    digits, like its own is above [total_samples * FREQUENCY_THRESHOLD];
    with 1000 samples, eleven occurrences drop the row and nine keep it. *)
Theorem C2_frequency_filter (db : Database) (min_samples : Z) (c : Candidate)
  (st : Stats) (std_raw : Q) (row : StateRow) :
  aggregate db (metadata_id c) = Some st ->
  min_samples <= cnt st ->
  std_val st = Some std_raw ->
  ~ (round64 std_raw == 0)%Q ->
  let mean_v := round64 (mean_val st) in
  let std := round64 std_raw in
  let rows := fetch_outside db (metadata_id c)
                (lower_of mean_v std) (upper_of mean_v std) in
  let n := occurrence_count rows row in
  let record := outlier_record c (cnt st) mean_v std row in
  In row rows ->
  n = len (filter (fun r => String.eqb (fmt_6g (round64 (numeric_value r)))
                                       (fmt_6g (round64 (numeric_value row))))
                  rows)
  /\ (FREQUENCY_THRESHOLD == 1 # 100)%Q
  /\ (~ In record (scan_candidate db min_samples c)
      <-> (inject_Z (cnt st) * FREQUENCY_THRESHOLD < inject_Z n)%Q)
  /\ (cnt st = 1000 -> n = 11 -> ~ In record (scan_candidate db min_samples c))
  /\ (cnt st = 1000 -> n = 9 -> In record (scan_candidate db min_samples c)).
Proof.
  intros Ha Hc Hs Hnz mean_v std rows n record Hin.
  assert (Hscan : In record (scan_candidate db min_samples c)
                  <-> too_frequent (cnt st) rows row = false).
  { rewrite scan_candidate_In. split.
    - intros (st' & std' & Ha' & _ & Hs' & _ & H).
      rewrite Ha in Ha'. injection Ha' as <-.
      rewrite Hs in Hs'. injection Hs' as <-.
      apply (keep_rare_record c (cnt st) mean_v std rows row Hin) in H.
      exact H.
    - intros Hf. exists st, std_raw.
      repeat (split; [assumption |]).
      apply (keep_rare_record c (cnt st) mean_v std rows row Hin). exact Hf. }
  assert (Hiff : ~ In record (scan_candidate db min_samples c)
                 <-> (inject_Z (cnt st) * FREQUENCY_THRESHOLD < inject_Z n)%Q).
  { unfold n. rewrite Hscan, <- too_frequent_iff.
    destruct (too_frequent (cnt st) rows row); intuition congruence. }
  split; [apply Counter_filter |].
  split; [reflexivity |].
  split; [exact Hiff |].
  split.
  - intros H1 H2. apply Hiff. rewrite H1, H2. reflexivity.
  - intros H1 H2. apply Hscan.
    destruct (too_frequent (cnt st) rows row) eqn:E; [| reflexivity].
    apply too_frequent_iff in E. fold n in E. rewrite H1, H2 in E.
    discriminate E.
Qed.

Lemma C2_frequency_filter_witness :
  ~ In (outlier_record sample_candidate 1000 20 1 (sample_row 1 99))
       (scan_candidate repeated_db MIN_SAMPLES sample_candidate)
  /\ In (outlier_record sample_candidate 1000 20 1 (sample_row 12 77))
        (scan_candidate repeated_db MIN_SAMPLES sample_candidate).
Proof.
  pose (st := {| cnt := 1000; mean_val := 20; std_val := Some 1%Q |}).
  assert (Hz : ~ (round64 1 == 0)%Q) by (vm_compute; discriminate).
  assert (Hc : MIN_SAMPLES <= cnt st) by (vm_compute; discriminate).
  assert (H99 : In (sample_row 1 99)
                   (fetch_outside repeated_db (metadata_id sample_candidate)
                      (lower_of (round64 (mean_val st)) (round64 1))
                      (upper_of (round64 (mean_val st)) (round64 1))))
    by (vm_compute; left; reflexivity).
  assert (H77 : In (sample_row 12 77)
                   (fetch_outside repeated_db (metadata_id sample_candidate)
                      (lower_of (round64 (mean_val st)) (round64 1))
                      (upper_of (round64 (mean_val st)) (round64 1))))
    by (vm_compute; do 11 right; left; reflexivity).
  destruct (C2_frequency_filter repeated_db MIN_SAMPLES sample_candidate st 1
              (sample_row 1 99) eq_refl Hc eq_refl Hz H99)
    as (_ & _ & _ & Hdrop & _).
  destruct (C2_frequency_filter repeated_db MIN_SAMPLES sample_candidate st 1
              (sample_row 12 77) eq_refl Hc eq_refl Hz H77)
    as (_ & _ & _ & _ & Hkeep).
  change (round64 (mean_val st)) with (round64 20) in Hdrop, Hkeep.
  assert (E20 : round64 20 = 20%Q) by (vm_compute; reflexivity).
  assert (E1 : round64 1 = 1%Q) by (vm_compute; reflexivity).
  rewrite E20, E1 in Hdrop, Hkeep.
  split.
  - apply Hdrop; [reflexivity | vm_compute; reflexivity].
  - apply Hkeep; [reflexivity | vm_compute; reflexivity].
Defined.

(** ** The grouping: bands *)

Lemma band_size_cases (dev : Q) :
  ((dev < 10)%Q -> band_size dev = 1)
  /\ ((10 <= dev)%Q -> (dev < 20)%Q -> band_size dev = 2)
  /\ ((20 <= dev)%Q -> band_size dev = 5).
Proof.
  unfold band_size.
  destruct (Qltb dev 10) eqn:E1; destruct (Qltb dev 20) eqn:E2;
    try apply Qltb_lt in E1; try apply Qltb_lt in E2;
    try apply Qltb_ge in E1; try apply Qltb_ge in E2;
    repeat split; intros; try reflexivity; exfalso; lra.
Qed.

Lemma band_size_pos (dev : Q) : 0 < band_size dev.
Proof.
  unfold band_size. destruct (Qltb dev 10); [lia |].
  destruct (Qltb dev 20); lia.
Qed.

(** The band is the multiple of the width just below the deviation. *)
Lemma band_of_floor (dev : Q) :
  (inject_Z (band_of dev) <= dev)%Q
  /\ (dev < inject_Z (band_of dev) + inject_Z (band_size dev))%Q.
Proof.
  unfold band_of. cbv zeta.
  pose proof (band_size_pos dev) as Hw.
  set (w := band_size dev) in *.
  assert (Hwq : (0 < inject_Z w)%Q)
    by (change 0%Q with (inject_Z 0); rewrite <- Zlt_Qlt; exact Hw).
  assert (Hne : ~ (inject_Z w == 0)%Q) by lra.
  pose proof (Qfloor_le (dev / inject_Z w)) as Hlo.
  pose proof (Qlt_floor (dev / inject_Z w)) as Hhi.
  rewrite inject_Z_plus in Hhi. rewrite inject_Z_mult.
  change (inject_Z 1) with 1%Q in Hhi.
  assert (Hd : (dev / inject_Z w * inject_Z w == dev)%Q) by (field; exact Hne).
  set (q := (dev / inject_Z w)%Q) in *.
  set (f := inject_Z (Qfloor q)) in *.
  assert (H1 : (f * inject_Z w <= q * inject_Z w)%Q)
    by (apply Qmult_le_compat_r; lra).
  assert (H2 : (q * inject_Z w < (f + 1) * inject_Z w)%Q)
    by (apply Qmult_lt_compat_r; lra).
  assert (H3 : ((f + 1) * inject_Z w == f * inject_Z w + inject_Z w)%Q) by ring.
  rewrite Hd in H1, H2. rewrite H3 in H2. split; assumption.
Qed.

Lemma group_outliers_member (os : list Outlier) (o : Outlier) :
  In o os ->
  exists g, In g (group_outliers os)
            /\ group_key g = key_of o
            /\ In (member_of o) (group_members g).
Proof.
  intros Hin. destruct (build_groups_covers os o Hin) as [g Hg].
  exists g. split; [apply group_outliers_In; eauto |].
  destruct (build_groups_spec _ _ _ Hg)
    as (m & ms & Hm & _ & Hk & _ & _ & _ & Hmem & _).
  split; [exact Hk |].
  rewrite Hmem, <- Hm. apply in_map, members_In. auto.
Qed.

(** C3: for every record the grouping takes the width 1 below deviation
    10, 2 below 20 and 5 from 20 on, and files the record under the band
    [floor(deviation / w) * w]; deviation 7.2 falls in band 7, 14.7 in
    band 14 and 23.0 in band 20. *)
Theorem C3_band_assignment (outliers : list Outlier) (o : Outlier) :
  In o outliers ->
  let dev := deviation o in
  let w := band_size dev in
  ((dev < 10)%Q -> w = 1)
  /\ ((10 <= dev)%Q -> (dev < 20)%Q -> w = 2)
  /\ ((20 <= dev)%Q -> w = 5)
  /\ band_of dev = Qfloor (dev / inject_Z w) * w
  /\ (inject_Z (band_of dev) <= dev)%Q
  /\ (dev < inject_Z (band_of dev) + inject_Z w)%Q
  /\ (exists g, In g (group_outliers outliers)
                /\ group_key g = (o_entity_id o, band_of dev, direction_of o)
                /\ In (member_of o) (group_members g))
  /\ band_of (72 # 10) = 7
  /\ band_of (147 # 10) = 14
  /\ band_of 23 = 20.
Proof.
  intros Hin dev w.
  destruct (band_size_cases dev) as (H1 & H2 & H3).
  destruct (band_of_floor dev) as (H4 & H5).
  repeat (split; [assumption |]).
  split; [reflexivity |].
  repeat (split; [assumption |]).
  split; [apply group_outliers_member, Hin |].
  repeat split; vm_compute; reflexivity.
Qed.

Lemma C3_band_assignment_witness :
  exists g, In g (group_outliers sample_outliers)
            /\ group_key g = ("sensor.temp", 20, Above)
            /\ In (2, Some 2%Q, (169 # 4)%Q) (group_members g).
Proof.
  destruct (C3_band_assignment sample_outliers
              (outlier_record sample_candidate 300 20 1 (sample_row 2 (169 # 4)))
              (or_introl eq_refl))
    as (_ & _ & _ & _ & _ & _ & H & _).
  exact H.
Defined.

(** ** The grouping: invariants *)

Lemma map_length_len {A B} (f : A -> B) (l : list A) : len (map f l) = len l.
Proof. unfold len. rewrite length_map. reflexivity. Qed.

Lemma NoDup_map_eq {A B} (f : A -> B) (l : list A) (x y : A) :
  NoDup (map f l) -> In x l -> In y l -> f x = f y -> x = y.
Proof.
  induction l as [| a l IH]; simpl; intros Hnd Hx Hy Hf; [contradiction |].
  inversion Hnd as [| ? ? Hni Hnd']; subst.
  destruct Hx as [-> | Hx]; destruct Hy as [-> | Hy].
  - reflexivity.
  - exfalso. apply Hni. rewrite Hf. apply in_map, Hy.
  - exfalso. apply Hni. rewrite <- Hf. apply in_map, Hx.
  - apply IH; assumption.
Qed.

Lemma group_outliers_keys_NoDup (os : list Outlier) :
  NoDup (map group_key (group_outliers os)).
Proof.
  eapply Permutation_NoDup.
  - apply Permutation_sym, Permutation_map, group_outliers_perm.
  - rewrite build_groups_keys. apply keys_build_groups_NoDup.
Qed.

(** C4: in every group the count is the length of each of the three
    member lists and the minimum and maximum bracket every member value;
    no two groups share a key; and the groups partition the records: each
    record is a member of the one group that has its key. *)
Theorem C4_group_invariants (outliers : list Outlier) :
  let groups := group_outliers outliers in
  (forall g, In g groups ->
     count g = len (ids g)
     /\ count g = len (timestamps g)
     /\ count g = len (values g)
     /\ forall v, In v (values g) -> (min_value g <= v <= max_value g)%Q)
  /\ NoDup (map group_key groups)
  /\ Permutation (flat_map tagged_members groups) (map tagged outliers)
  /\ (forall o, In o outliers ->
        exists g, In g groups
                  /\ group_key g = key_of o
                  /\ In (member_of o) (group_members g)
                  /\ forall g', In g' groups -> group_key g' = key_of o -> g' = g).
Proof.
  intros groups. split; [| split; [| split]].
  - intros g Hg. apply group_outliers_In in Hg. destruct Hg as [k Hg].
    destruct (build_groups_spec _ _ _ Hg)
      as (m & ms & _ & _ & _ & Hi & Ht & Hv & _ & Hc & _ & Hb).
    rewrite Hi, Ht, Hv, !map_length_len.
    repeat (split; [exact Hc |]).
    intros v Hin. apply Hb. rewrite Hv. exact Hin.
  - apply group_outliers_keys_NoDup.
  - eapply perm_trans; [| apply build_groups_partition].
    apply Permutation_flat_map, group_outliers_perm.
  - intros o Ho.
    destruct (group_outliers_member outliers o Ho) as (g & Hg & Hk & Hm).
    exists g. repeat (split; [assumption |]).
    intros g' Hg' Hk'.
    apply (NoDup_map_eq group_key groups);
      [apply group_outliers_keys_NoDup | assumption | assumption | congruence].
Qed.

(** ** The grouping: representative and order *)

Lemma desc_Transitive {A} (key : A -> Q) : Relations_1.Transitive (desc key).
Proof. intros x y z. apply desc_trans. Qed.

Lemma StronglySorted_filter {A} (R : A -> A -> Prop) (p : A -> bool) (l : list A) :
  StronglySorted R l -> StronglySorted R (filter p l).
Proof.
  induction 1 as [| x l Hs IH Hall]; simpl; [constructor |].
  destruct (p x); [| exact IH].
  constructor; [exact IH |].
  rewrite Forall_forall in *. intros y Hy. apply filter_In in Hy.
  apply Hall. tauto.
Qed.

Lemma members_first_highest (k : Key) (os : list Outlier) (m : Outlier)
  (ms : list Outlier) :
  Sorted (desc deviation) os ->
  members k os = m :: ms ->
  forall o, In o (m :: ms) -> (deviation o <= deviation m)%Q.
Proof.
  intros Hs Hm o Ho.
  apply Sorted_StronglySorted in Hs; [| apply desc_Transitive].
  apply (StronglySorted_filter _ (fun o => if key_eq_dec (key_of o) k then true else false))
    in Hs.
  fold (members k os) in Hs. rewrite Hm in Hs.
  inversion Hs as [| ? ? _ Hall]; subst.
  destruct Ho as [<- | Ho]; [lra |].
  rewrite Forall_forall in Hall. apply Hall, Ho.
Qed.

(** C5: on an input in descending order of deviation, the representative
    fields of a group are those of the first record of its key, no member
    of the group has a higher deviation, and the groups come out in
    descending order of that deviation. *)
Theorem C5_representative (outliers : list Outlier) :
  Sorted (desc deviation) outliers ->
  let groups := group_outliers outliers in
  (forall g, In g groups ->
     exists first rest,
       members (group_key g) outliers = first :: rest
       /\ group_members g = map member_of (first :: rest)
       /\ deviation (rep g) = deviation first
       /\ mean (rep g) = mean first
       /\ lower_bound (rep g) = lower_bound first
       /\ upper_bound (rep g) = upper_bound first
       /\ total_samples (rep g) = total_samples first
       /\ forall o, In o (first :: rest) ->
                    (deviation o <= deviation (rep g))%Q)
  /\ Sorted (desc group_deviation) groups.
Proof.
  intros Hs groups. split.
  - intros g Hg. apply group_outliers_In in Hg. destruct Hg as [k Hg].
    destruct (build_groups_spec _ _ _ Hg)
      as (m & ms & Hm & Hr & Hk & _ & _ & _ & Hmem & _).
    exists m, ms. rewrite Hk, Hr.
    repeat (split; [first [assumption | reflexivity] |]).
    apply (members_first_highest k outliers m ms Hs Hm).
  - apply sorted_desc_sorted.
Qed.

Lemma sample_outliers_sorted : Sorted (desc deviation) sample_outliers.
Proof.
  repeat constructor; unfold desc; vm_compute; discriminate.
Qed.

Lemma C5_representative_witness :
  (forall g, In g (group_outliers sample_outliers) ->
     exists first rest,
       members (group_key g) sample_outliers = first :: rest
       /\ group_members g = map member_of (first :: rest)
       /\ deviation (rep g) = deviation first
       /\ mean (rep g) = mean first
       /\ lower_bound (rep g) = lower_bound first
       /\ upper_bound (rep g) = upper_bound first
       /\ total_samples (rep g) = total_samples first
       /\ forall o, In o (first :: rest) ->
                    (deviation o <= deviation (rep g))%Q)
  /\ Sorted (desc group_deviation) (group_outliers sample_outliers).
Proof.
  apply (C5_representative sample_outliers). exact sample_outliers_sorted.
Defined.

Example group_outliers_sample :
  map (fun g => (group_key g, count g, ids g, min_value g, max_value g))
      (group_outliers sample_outliers)
  = [ (("sensor.temp", 20, Above), 2, [2; 7], 42%Q, (169 # 4)%Q);
      (("sensor.temp", 7, Above), 1, [5], (109 # 4)%Q, (109 # 4)%Q);
      (("sensor.temp", 5, Below), 1, [6], (59 # 4)%Q, (59 # 4)%Q) ].
Proof. vm_compute. reflexivity. Qed.

(** ** The review display: commands *)

Lemma handle_choice_select (outliers : list Group) (total_pages page : Z)
  (c : ascii) (rest : string) :
  c = "e"%char \/ c = "d"%char ->
  handle_choice outliers total_pages page (String c rest) =
  match py_int (strip rest) with
  | Some num =>
      if (1 <=? num) && (num <=? len outliers) then
        match nth_error outliers (Z.to_nat (num - 1)) with
        | Some g => if removed g then Stay page else Pick (c, num - 1, g)
        | None => Stay page
        end
      else Stay page
  | None => Stay page
  end.
Proof. intros [-> | ->]; reflexivity. Qed.

Lemma handle_choice_pick (outliers : list Group) (total_pages page : Z)
  (c : ascii) (rest : string) (n : Z) (g : Group) :
  c = "e"%char \/ c = "d"%char ->
  py_int (strip rest) = Some n ->
  1 <= n <= len outliers ->
  nth_error outliers (Z.to_nat (n - 1)) = Some g ->
  removed g = false ->
  handle_choice outliers total_pages page (String c rest) = Pick (c, n - 1, g).
Proof.
  intros Hc Hp Hn Hg Hr. rewrite handle_choice_select by exact Hc.
  rewrite Hp.
  replace ((1 <=? n) && (n <=? len outliers)) with true
    by (symmetry; apply andb_true_iff; split; apply Z.leb_le; lia).
  rewrite Hg, Hr. reflexivity.
Qed.

Lemma handle_choice_picked (outliers : list Group) (total_pages page : Z)
  (choice : string) (a : ascii) (i : Z) (g : Group) :
  handle_choice outliers total_pages page choice = Pick (a, i, g) ->
  exists rest n,
    choice = String a rest
    /\ (a = "e"%char \/ a = "d"%char)
    /\ py_int (strip rest) = Some n
    /\ 1 <= n <= len outliers
    /\ i = n - 1
    /\ nth_error outliers (Z.to_nat (n - 1)) = Some g
    /\ removed g = false.
Proof.
  unfold handle_choice. intros H.
  destruct (String.eqb choice "n" && (page <? total_pages - 1)); [discriminate |].
  destruct (String.eqb choice "p" && (0 <? page)); [discriminate |].
  destruct (String.eqb choice "q"); [discriminate |].
  destruct choice as [| c rest]; [discriminate |].
  destruct (Ascii.eqb c "e" || Ascii.eqb c "d") eqn:Ec; [| discriminate].
  destruct (py_int (strip rest)) as [num |] eqn:Ep; [| discriminate].
  destruct ((1 <=? num) && (num <=? len outliers)) eqn:Er; [| discriminate].
  destruct (nth_error outliers (Z.to_nat (num - 1))) as [g' |] eqn:En;
    [| discriminate].
  destruct (removed g') eqn:Erm; [discriminate |].
  injection H as <- <- <-.
  apply andb_true_iff in Er. destruct Er as [E1 E2].
  apply Z.leb_le in E1, E2.
  apply orb_true_iff in Ec. rewrite !Ascii.eqb_eq in Ec.
  exists rest, num. repeat (split; [first [assumption | reflexivity | lia] |]).
  exact Erm.
Qed.

Lemma browse_stay (outliers : list Group) (total_pages page page' : Z)
  (line : string) (lines : list string) :
  handle_choice outliers total_pages page (lower (strip line)) = Stay page' ->
  browse outliers total_pages page (line :: lines) =
  let '(r, rest, pages) := browse outliers total_pages page' lines in
  (r, rest, page :: pages).
Proof. intros H. simpl. rewrite H. reflexivity. Qed.

(** C6: an edit or delete selection is taken only for a number [n] with
    [1 <= n <= len outliers] whose group, at position [n] of the whole
    list, is not removed, and every such selection is taken; a selection
    that is malformed, out of range or aimed at a removed group leaves the
    page as it is, raises nothing, and the loop renders the same page and
    asks again. *)
Theorem C6_selection_validation (outliers : list Group) (total_pages page : Z) :
  (forall choice a i g,
     handle_choice outliers total_pages page choice = Pick (a, i, g) ->
     exists rest n,
       choice = String a rest
       /\ (a = "e"%char \/ a = "d"%char)
       /\ py_int (strip rest) = Some n
       /\ 1 <= n <= len outliers
       /\ i = n - 1
       /\ nth_error outliers (Z.to_nat (n - 1)) = Some g
       /\ removed g = false)
  /\ (forall c rest n g,
        c = "e"%char \/ c = "d"%char ->
        py_int (strip rest) = Some n ->
        1 <= n <= len outliers ->
        nth_error outliers (Z.to_nat (n - 1)) = Some g ->
        removed g = false ->
        handle_choice outliers total_pages page (String c rest)
        = Pick (c, n - 1, g))
  /\ (forall c rest,
        c = "e"%char \/ c = "d"%char ->
        py_int (strip rest) = None
        \/ (exists n, py_int (strip rest) = Some n /\ (n < 1 \/ len outliers < n))
        \/ (exists n g, py_int (strip rest) = Some n
                        /\ nth_error outliers (Z.to_nat (n - 1)) = Some g
                        /\ removed g = true) ->
        handle_choice outliers total_pages page (String c rest) = Stay page)
  /\ (forall line lines,
        handle_choice outliers total_pages page (lower (strip line)) = Stay page ->
        browse outliers total_pages page (line :: lines) =
        let '(r, rest, pages) := browse outliers total_pages page lines in
        (r, rest, page :: pages)).
Proof.
  split; [| split; [| split]].
  - intros choice a i g. apply handle_choice_picked.
  - intros c rest n g. apply handle_choice_pick.
  - intros c rest Hc Hbad. rewrite handle_choice_select by exact Hc.
    destruct Hbad as [-> | [(n & -> & Hn) | (n & g & -> & Hg & Hr)]].
    + reflexivity.
    + replace ((1 <=? n) && (n <=? len outliers)) with false; [reflexivity |].
      symmetry. apply andb_false_iff.
      destruct Hn; [left; apply Z.leb_gt | right; apply Z.leb_gt]; lia.
    + destruct ((1 <=? n) && (n <=? len outliers)); [| reflexivity].
      rewrite Hg, Hr. reflexivity.
  - intros line lines. apply browse_stay.
Qed.

Example selection_examples :
  handle_choice thirty_groups 2 0 "e27" = Pick ("e"%char, 26, sample_group 27)
  /\ handle_choice thirty_groups 2 0 "d 3" = Pick ("d"%char, 2, sample_group 3)
  /\ handle_choice thirty_groups 2 0 "e31" = Stay 0
  /\ handle_choice thirty_groups 2 0 "e0" = Stay 0
  /\ handle_choice thirty_groups 2 0 "e-1" = Stay 0
  /\ handle_choice thirty_groups 2 0 "exyz" = Stay 0
  /\ handle_choice thirty_groups 2 0 "e" = Stay 0
  /\ handle_choice (map set_removed thirty_groups) 2 1 "d3" = Stay 1.
Proof. repeat split; vm_compute; reflexivity. Qed.

(** ** The review display: paging *)

Lemma total_pages_ceil (outliers : list Group) (page_size : Z) :
  0 < page_size ->
  let total_pages := total_pages_of outliers page_size in
  (total_pages - 1) * page_size < len outliers <= total_pages * page_size.
Proof.
  intros Hp. unfold total_pages_of. cbv zeta.
  pose proof (Z.div_mod (len outliers + page_size - 1) page_size) as Hd.
  pose proof (Z.mod_pos_bound (len outliers + page_size - 1) page_size Hp) as Hm.
  specialize (Hd ltac:(lia)). nia.
Qed.

Lemma handle_choice_stay_cases (outliers : list Group) (total_pages page : Z)
  (choice : string) :
  handle_choice outliers total_pages page choice <> Stay page ->
  choice = "n" \/ choice = "p" \/ choice = "q"
  \/ exists c rest, choice = String c rest /\ (c = "e"%char \/ c = "d"%char).
Proof.
  unfold handle_choice. intros H.
  destruct (String.eqb choice "n") eqn:En;
    [apply String.eqb_eq in En; auto |].
  destruct (String.eqb choice "p") eqn:Ep;
    [apply String.eqb_eq in Ep; auto |].
  destruct (String.eqb choice "q") eqn:Eq;
    [apply String.eqb_eq in Eq; auto |].
  simpl in H. destruct choice as [| c rest]; [congruence |].
  destruct (Ascii.eqb c "e" || Ascii.eqb c "d") eqn:Ec; [| congruence].
  apply orb_true_iff in Ec. rewrite !Ascii.eqb_eq in Ec.
  right. right. right. exists c, rest. auto.
Qed.

(** C8, as the code has it: the commands are the letters of the prompt.
    [n] moves one page forward unless the page is the last, [p] one page
    back unless it is the first, [q] leaves, [e<n>] and [d<n>] select; any
    other line, the words [next], [prev] and [quit] among them, changes
    nothing.  The number of pages is [ceil(group_count / page_size)], and
    the page stays within [0, total_pages - 1]. *)
Theorem C8_navigation (outliers : list Group) (page_size page : Z) :
  let total_pages := total_pages_of outliers page_size in
  (0 < page_size ->
   (total_pages - 1) * page_size < len outliers <= total_pages * page_size)
  /\ handle_choice outliers total_pages page "n"
     = Stay (if page <? total_pages - 1 then page + 1 else page)
  /\ handle_choice outliers total_pages page "p"
     = Stay (if 0 <? page then page - 1 else page)
  /\ handle_choice outliers total_pages page "q" = Leave
  /\ (forall choice,
        handle_choice outliers total_pages page choice <> Stay page ->
        choice = "n" \/ choice = "p" \/ choice = "q"
        \/ exists c rest, choice = String c rest
                          /\ (c = "e"%char \/ c = "d"%char))
  /\ handle_choice outliers total_pages page "next" = Stay page
  /\ handle_choice outliers total_pages page "prev" = Stay page
  /\ handle_choice outliers total_pages page "quit" = Stay page
  /\ (forall choice page',
        0 <= page <= total_pages - 1 ->
        handle_choice outliers total_pages page choice = Stay page' ->
        0 <= page' <= total_pages - 1).
Proof.
  intros total_pages.
  split; [apply total_pages_ceil |].
  split; [unfold handle_choice; simpl;
          destruct (page <? total_pages - 1); reflexivity |].
  split; [unfold handle_choice; simpl;
          destruct (page <? total_pages - 1); simpl;
          destruct (0 <? page); reflexivity |].
  split; [unfold handle_choice; simpl; reflexivity |].
  split; [apply handle_choice_stay_cases |].
  repeat (split; [reflexivity |]).
  intros choice page' Hr. unfold handle_choice.
  destruct (String.eqb choice "n" && (page <? total_pages - 1)) eqn:E1.
  { apply andb_true_iff in E1. destruct E1 as [_ E1]. apply Z.ltb_lt in E1.
    intros H. injection H as <-. lia. }
  destruct (String.eqb choice "p" && (0 <? page)) eqn:E2.
  { apply andb_true_iff in E2. destruct E2 as [_ E2]. apply Z.ltb_lt in E2.
    intros H. injection H as <-. lia. }
  destruct (String.eqb choice "q"); [discriminate |].
  destruct choice as [| c rest]; [intros H; injection H as <-; lia |].
  destruct (Ascii.eqb c "e" || Ascii.eqb c "d");
    [| intros H; injection H as <-; lia].
  destruct (py_int (strip rest)) as [num |];
    [| intros H; injection H as <-; lia].
  destruct ((1 <=? num) && (num <=? len outliers));
    [| intros H; injection H as <-; lia].
  destruct (nth_error outliers (Z.to_nat (num - 1))) as [g |];
    [| intros H; injection H as <-; lia].
  destruct (removed g); [intros H; injection H as <-; lia | discriminate].
Qed.

(** The claim as worded fails: on thirty groups, two pages of 25, the line
    [next] leaves the display on the first page and the line [quit] does
    not end it (the display asks again and finds the input at its end),
    where [n] and [q] do move and leave. *)
Lemma C8_words_are_not_commands :
  total_pages_of thirty_groups PAGE_SIZE = 2
  /\ display_outliers thirty_groups PAGE_SIZE 0 (operator ["next"; "quit"] [] [])
     = (Raise EOFError,
        {| prompts := []; confirms := []; replies := []; db_log := [];
           shown := [0; 0; 0] |})
  /\ display_outliers thirty_groups PAGE_SIZE 0 (operator ["n"; "q"] [] [])
     = (Ok None,
        {| prompts := []; confirms := []; replies := []; db_log := [];
           shown := [0; 1] |}).
Proof. repeat split; vm_compute; reflexivity. Qed.

(** ** The review session: the store blocks *)

Ltac split_replies w :=
  let p := fresh "lines" in
  let c := fresh "answers" in
  let r := fresh "store" in
  let l := fresh "log" in
  let s := fresh "pages" in
  destruct w as [p c r l s];
  destruct r as [| [| |] [| [| |] [| [| |] [| [| |] [| [| |] r]]]]].

Ltac settle :=
  eexists;
  (split;
   [ unfold extends; cbn [db_log shown prompts];
     split; [rewrite <- ?app_assoc; reflexivity
            | split; [reflexivity | apply le_n]]
   | unfold settled; cbn [last In app];
     split;
     [ intros H;
       first [ discriminate H
             | split; [reflexivity | intros Hin; intuition discriminate] ]
     | intros Hex Hne;
       first [ reflexivity
             | exfalso; apply Hne; reflexivity
             | exfalso; destruct Hex as [s Hs]; intuition discriminate ] ] ]).

Lemma update_states_settled (v : pyfloat) (l : list Z) (w : World) :
  exists calls,
    extends w (snd (update_states v l w)) calls
    /\ settled (fst (update_states v l w)) calls.
Proof.
  split_replies w;
    cbv [update_states bind call ret except_mysql hd List.tl
         replies prompts confirms db_log shown fst snd];
    settle.
Qed.

Lemma purge_states_settled (l : list Z) (w : World) :
  exists calls,
    extends w (snd (purge_states l w)) calls
    /\ settled (fst (purge_states l w)) calls.
Proof.
  split_replies w;
    cbv [purge_states bind call ret except_mysql hd List.tl
         replies prompts confirms db_log shown fst snd];
    settle.
Qed.

(** ** The review session: display, mutation and turn *)

Lemma browse_picked (outliers : list Group) (total_pages : Z)
  (lines : list string) :
  forall page a i g rest pages,
    browse outliers total_pages page lines = (Ok (Some (a, i, g)), rest, pages) ->
    (a = "e"%char \/ a = "d"%char)
    /\ 0 <= i < len outliers
    /\ nth_error outliers (Z.to_nat i) = Some g
    /\ removed g = false
    /\ (List.length rest < List.length lines)%nat.
Proof.
  induction lines as [| line lines IH]; intros page a i g rest pages H.
  - discriminate H.
  - cbn [browse] in H.
    destruct (handle_choice outliers total_pages page (lower (strip line)))
      as [page' | | [[a' i'] g']] eqn:Eh.
    + destruct (browse outliers total_pages page' lines) as [[r rest'] pages'] eqn:Eb.
      injection H as -> -> _.
      destruct (IH _ _ _ _ _ _ Eb) as (H1 & H2 & H3 & H4 & H5).
      repeat (split; [assumption |]). cbn [List.length]. lia.
    + discriminate H.
    + injection H as -> -> -> -> _.
      apply handle_choice_picked in Eh.
      destruct Eh as (r & n & _ & Ha & _ & Hn & -> & Hg & Hr).
      repeat (split; [first [assumption | lia] |]). cbn [List.length]. lia.
Qed.

Lemma display_picked (all : list Group) (page_size start_page : Z)
  (w w1 : World) (a : ascii) (i : Z) (g : Group) :
  display_outliers all page_size start_page w = (Ok (Some (a, i, g)), w1) ->
  (a = "e"%char \/ a = "d"%char)
  /\ 0 <= i < len all
  /\ nth_error all (Z.to_nat i) = Some g
  /\ removed g = false
  /\ (List.length (prompts w1) < List.length (prompts w))%nat
  /\ confirms w1 = confirms w
  /\ replies w1 = replies w
  /\ db_log w1 = db_log w.
Proof.
  unfold display_outliers.
  destruct (filter (fun o => negb (removed o)) all); [discriminate |].
  destruct (page_size =? 0); [discriminate |].
  destruct (browse all (total_pages_of all page_size)
              (first_page (total_pages_of all page_size) start_page) (prompts w))
    as [[r rest] pages] eqn:Eb.
  intros H. injection H as -> <-. cbn [prompts confirms replies db_log].
  destruct (browse_picked _ _ _ _ _ _ _ _ _ Eb) as (H1 & H2 & H3 & H4 & H5).
  repeat (split; [first [assumption | reflexivity] |]). reflexivity.
Qed.

Lemma extends_refl (w : World) : extends w w [].
Proof.
  unfold extends. rewrite app_nil_r. repeat split. apply le_n.
Qed.

Lemma settled_nil (r : result bool) : r <> Ok true -> settled r [].
Proof.
  intros Hr. split.
  - intros H. contradiction.
  - intros [s []].
Qed.

Lemma extends_step (w w1 w2 : World) (calls : list db_call) :
  db_log w1 = db_log w -> shown w1 = shown w ->
  (List.length (prompts w1) <= List.length (prompts w))%nat ->
  extends w1 w2 calls -> extends w w2 calls.
Proof.
  unfold extends. intros H1 H2 H3 (H4 & H5 & H6).
  rewrite H4, H5, H1, H2. repeat split. lia.
Qed.

Lemma edit_outlier_settled (g : Group) (w : World) :
  exists calls,
    extends w (snd (edit_outlier g w)) calls
    /\ settled (fst (edit_outlier g w)) calls.
Proof.
  unfold edit_outlier, bind, ask.
  destruct (prompts w) as [| line rest] eqn:Ep.
  - exists []. split; [apply extends_refl | apply settled_nil; discriminate].
  - set (w1 := {| prompts := rest; confirms := confirms w; replies := replies w;
                  db_log := db_log w; shown := shown w |}).
    assert (Hstep : forall w2 calls, extends w1 w2 calls -> extends w w2 calls).
    { intros w2 calls. apply extends_step; try reflexivity.
      cbn [prompts w1]. rewrite Ep. cbn [List.length]. lia. }
    destruct (String.eqb (lower (strip line)) "c").
    { exists []. split; [apply Hstep, extends_refl | apply settled_nil; discriminate]. }
    destruct (if String.eqb (lower (strip line)) "m"
              then Some (Finite (mean (rep g)))
              else py_float (lower (strip line))) as [v |].
    + destruct (update_states_settled v (ids g) w1) as (calls & He & Hs).
      exists calls. split; [apply Hstep, He | exact Hs].
    + exists []. split; [apply Hstep, extends_refl | apply settled_nil; discriminate].
Qed.

Lemma delete_outlier_settled (g : Group) (w : World) :
  exists calls,
    extends w (snd (delete_outlier g w)) calls
    /\ settled (fst (delete_outlier g w)) calls.
Proof.
  unfold delete_outlier, bind, confirm.
  destruct (confirms w) as [| sure rest] eqn:Ec.
  - exists []. split; [apply extends_refl | apply settled_nil; discriminate].
  - set (w1 := {| prompts := prompts w; confirms := rest; replies := replies w;
                  db_log := db_log w; shown := shown w |}).
    assert (Hstep : forall w2 calls, extends w1 w2 calls -> extends w w2 calls).
    { intros w2 calls. apply extends_step; reflexivity. }
    destruct sure; cbn [negb].
    + destruct (purge_states_settled (ids g) w1) as (calls & He & Hs).
      exists calls. split; [apply Hstep, He | exact Hs].
    + exists []. split; [apply Hstep, extends_refl | apply settled_nil; discriminate].
Qed.

Lemma mutate_settled (a : ascii) (g : Group) (w : World) :
  exists calls,
    extends w (snd (mutate a g w)) calls
    /\ settled (fst (mutate a g w)) calls.
Proof.
  unfold mutate, bind.
  destruct (Ascii.eqb a "e") eqn:Ee.
  - destruct (edit_outlier_settled g w) as (calls & He & Hs).
    destruct (edit_outlier g w) as [[[|] | e] w1] eqn:E; cbn [fst snd] in *.
    + exists calls. auto.
    + apply Ascii.eqb_eq in Ee. subst a. cbn [Ascii.eqb]. simpl.
      exists calls. auto.
    + exists calls. split; [exact He |].
      split; [discriminate |]. intros Hex _. apply Hs; [exact Hex | discriminate].
  - cbn [ret]. destruct (Ascii.eqb a "d").
    + apply delete_outlier_settled.
    + exists []. split; [apply extends_refl | apply settled_nil; discriminate].
Qed.

Lemma mark_at_spec (i : nat) (l : list Group) :
  (i < List.length l)%nat ->
  exists l',
    mark_at i l = Some l'
    /\ List.length l' = List.length l
    /\ nth_error l' i = option_map set_removed (nth_error l i)
    /\ forall j, j <> i -> nth_error l' j = nth_error l j.
Proof.
  revert i. induction l as [| g l IH]; intros i Hi; cbn [List.length] in Hi.
  - lia.
  - destruct i as [| i]; cbn [mark_at].
    + exists (set_removed g :: l). repeat split.
      intros [| j] Hj; [congruence | reflexivity].
    + destruct (IH i ltac:(lia)) as (l' & -> & Hl & Hn & Ho).
      exists (g :: l'). cbn [option_map List.length nth_error].
      repeat split; [congruence | exact Hn |].
      intros [| j] Hj; [reflexivity |]. cbn [nth_error]. apply Ho. congruence.
Qed.

Lemma mark_removed_ok (idx : Z) (all : list Group) (w : World) :
  0 <= idx < len all ->
  exists all',
    mark_removed idx all w = (Ok all', w)
    /\ mark_at (Z.to_nat idx) all = Some all'.
Proof.
  intros Hi. unfold mark_removed. cbv zeta.
  assert (E : (idx <? 0) = false) by (apply Z.ltb_ge; lia).
  destruct (mark_at_spec (Z.to_nat idx) all) as (l' & Hm & _).
  { unfold len in Hi. lia. }
  exists l'. rewrite !E, Hm. split; reflexivity.
Qed.

Lemma review_turn_picked (all : list Group) (page : Z) (w w1 : World)
  (a : ascii) (idx : Z) (g : Group) :
  display_outliers all PAGE_SIZE page w = (Ok (Some (a, idx, g)), w1) ->
  review_turn all page w =
  match mutate a g w1 with
  | (Ok true, w2) =>
      match mark_at (Z.to_nat idx) all with
      | Some all' => (Ok (Some (all', idx / PAGE_SIZE)), w2)
      | None => (Raise IndexError, w2)
      end
  | (Ok false, w2) => (Ok (Some (all, idx / PAGE_SIZE)), w2)
  | (Raise OperationalError, w2) =>
      match call Connect w2 with
      | (Ok _, w3) => (Ok (Some (all, idx / PAGE_SIZE)), w3)
      | (Raise e, w3) => (Raise e, w3)
      end
  | (Raise e, w2) => (Raise e, w2)
  end.
Proof.
  intros Hd. destruct (display_picked _ _ _ _ _ _ _ _ Hd) as (_ & Hi & _).
  unfold review_turn, bind. rewrite Hd.
  unfold except_operational, bind.
  destruct (mutate a g w1) as [[[|] | e] w2].
  - destruct (mark_removed_ok idx all w2 Hi) as (all' & -> & ->). reflexivity.
  - reflexivity.
  - destruct e; try reflexivity.
    destruct (call Connect w2) as [[u | e] w3]; reflexivity.
Qed.

Lemma call_world (c : db_call) (w : World) :
  prompts (snd (call c w)) = prompts w
  /\ confirms (snd (call c w)) = confirms w
  /\ shown (snd (call c w)) = shown w
  /\ db_log (snd (call c w)) = db_log w ++ [c].
Proof. unfold call. destruct (hd Done (replies w)); repeat split. Qed.

Lemma browse_first_page (outliers : list Group) (total_pages page : Z)
  (lines : list string) :
  exists r rest pages,
    browse outliers total_pages page lines = (r, rest, page :: pages).
Proof.
  destruct lines as [| line lines]; cbn [browse].
  - eauto.
  - destruct (handle_choice outliers total_pages page (lower (strip line)))
      as [page' | | sel]; [| eauto | eauto].
    destruct (browse outliers total_pages page' lines) as [[r rest] pages].
    eauto.
Qed.

Lemma first_page_of_index (all : list Group) (idx : Z) :
  0 <= idx < len all ->
  first_page (total_pages_of all PAGE_SIZE) (idx / PAGE_SIZE) = idx / PAGE_SIZE.
Proof.
  intros Hi. unfold first_page, total_pages_of, PAGE_SIZE.
  assert (H1 : 0 <= idx / 25) by (apply Z.div_pos; lia).
  assert (H2 : idx / 25 <= (len all + 25 - 1) / 25 - 1).
  { replace (len all + 25 - 1) with (len all - 1 + 1 * 25) by lia.
    rewrite Z.div_add by lia.
    assert (idx / 25 <= (len all - 1) / 25) by (apply Z.div_le_mono; lia).
    lia. }
  replace (0 <? (len all + 25 - 1) / 25) with true
    by (symmetry; apply Z.ltb_lt; lia).
  lia.
Qed.

(** A turn that goes on has read a line. *)
Lemma review_turn_reads (all all' : list Group) (page page' : Z) (w w' : World) :
  review_turn all page w = (Ok (Some (all', page')), w') ->
  (List.length (prompts w') < List.length (prompts w))%nat.
Proof.
  intros H.
  destruct (display_outliers all PAGE_SIZE page w)
    as [[[[[a idx] g] |] | e] w1] eqn:Hd.
  - rewrite (review_turn_picked _ _ _ _ _ _ _ Hd) in H.
    destruct (display_picked _ _ _ _ _ _ _ _ Hd) as (_ & _ & _ & _ & Hlt & _).
    destruct (mutate_settled a g w1) as (calls & (_ & _ & Hle) & _).
    destruct (mutate a g w1) as [[[|] | e] w2]; cbn [snd] in Hle.
    + destruct (mark_at (Z.to_nat idx) all); [| discriminate].
      injection H as _ _ <-. lia.
    + injection H as _ _ <-. lia.
    + destruct e; try discriminate.
      destruct (call_world Connect w2) as (Hp & _).
      destruct (call Connect w2) as [[u | e] w3]; cbn [snd] in Hp;
        [| discriminate].
      injection H as _ _ <-. rewrite Hp. lia.
  - unfold review_turn, bind in H. rewrite Hd in H. discriminate.
  - unfold review_turn, bind in H. rewrite Hd in H. discriminate.
Qed.

(** The loop of [main] ends within the fuel that [review_session] gives
    it, whatever the operator types and the store answers. *)
Lemma review_loop_ends (fuel : nat) :
  forall all page w,
    (List.length (prompts w) < fuel)%nat ->
    exists r w', review_loop fuel all page w = Some (r, w').
Proof.
  induction fuel as [| fuel IH]; intros all page w Hf; [lia |].
  cbn [review_loop].
  destruct (review_turn all page w) as [[[[all' page'] |] | e] w'] eqn:Ht.
  - apply IH. apply review_turn_reads in Ht. lia.
  - eauto.
  - eauto.
Qed.

Lemma review_session_ends (all : list Group) (w : World) :
  exists r w', review_session all w = Some (r, w').
Proof.
  unfold review_session.
  destruct (review_loop_ends (S (List.length (prompts w))) all 0 w)
    as (r & w' & ->); [lia |].
  destruct r as [l | e]; [| eauto].
  destruct (call Close w') as [[u | e] w'']; eauto.
Qed.

(** ** The review session: claims on mutation, ending and page *)

(** C7: a mutation that reached the store without success ends on a
    rollback and leaves the list, hence the flag of the selected group, as
    it was; the flag is set exactly when the mutation returns [True], and
    then only that one position of the list changes; the list never loses
    an element. *)
Theorem C7_mutation_outcome (all : list Group) (page : Z) (w w1 w2 : World)
  (a : ascii) (idx : Z) (g : Group) (r : result bool) :
  display_outliers all PAGE_SIZE page w = (Ok (Some (a, idx, g)), w1) ->
  mutate a g w1 = (r, w2) ->
  exists calls,
    db_log w2 = db_log w1 ++ calls
    /\ ((exists s, In (Execute s) calls) -> r <> Ok true ->
        last calls Cursor = Rollback)
    /\ (r = Ok true -> last calls Cursor = Commit /\ ~ In Rollback calls)
    /\ match r with
       | Ok true =>
           exists all',
             review_turn all page w = (Ok (Some (all', idx / PAGE_SIZE)), w2)
             /\ List.length all' = List.length all
             /\ nth_error all' (Z.to_nat idx) = Some (set_removed g)
             /\ forall j, j <> Z.to_nat idx -> nth_error all' j = nth_error all j
       | Ok false =>
           review_turn all page w = (Ok (Some (all, idx / PAGE_SIZE)), w2)
       | Raise OperationalError =>
           review_turn all page w =
           match call Connect w2 with
           | (Ok _, w3) => (Ok (Some (all, idx / PAGE_SIZE)), w3)
           | (Raise e, w3) => (Raise e, w3)
           end
       | Raise e => review_turn all page w = (Raise e, w2)
       end.
Proof.
  intros Hd Hm.
  destruct (mutate_settled a g w1) as (calls & (Hlog & _) & Hok & Hfail).
  rewrite Hm in *. cbn [fst snd] in *.
  exists calls. split; [exact Hlog |]. split; [exact Hfail |].
  split; [exact Hok |].
  rewrite (review_turn_picked _ _ _ _ _ _ _ Hd), Hm.
  destruct (display_picked _ _ _ _ _ _ _ _ Hd) as (_ & Hi & Hg & _).
  destruct r as [[|] | e].
  - destruct (mark_at_spec (Z.to_nat idx) all) as (all' & -> & Hl & Hn & Ho).
    { unfold len in Hi. lia. }
    exists all'. rewrite Hg in Hn. auto.
  - reflexivity.
  - destruct e; reflexivity.
Qed.

Lemma C7_mutation_outcome_witness :
  let w := operator ["e27"; "m"] [] [Done; Failed] in
  let w1 := snd (display_outliers thirty_groups PAGE_SIZE 0 w) in
  let w2 := snd (mutate "e" (sample_group 27) w1) in
  db_log w2 = [Cursor;
               Execute (UpdateState (Finite 20) [27]);
               Rollback]
  /\ review_turn thirty_groups 0 w = (Ok (Some (thirty_groups, 1)), w2).
Proof.
  intros w w1 w2.
  destruct (C7_mutation_outcome thirty_groups 0 w w1 w2 "e" 26 (sample_group 27)
              (Ok false))
    as (calls & Hlog & _ & _ & Hturn).
  - vm_compute. reflexivity.
  - vm_compute. reflexivity.
  - split; [vm_compute; reflexivity | exact Hturn].
Defined.

(** C9: when every group of the list is removed, and so when the list is
    empty, the display returns [None] without reading a line or rendering
    a page, the turn ends the loop, and the session closes the connection
    with the operator's input untouched. *)
Theorem C9_nothing_left (all : list Group) (page_size start_page page : Z)
  (w : World) :
  (forall g, In g all -> removed g = true) ->
  display_outliers all page_size start_page w = (Ok None, w)
  /\ review_turn all page w = (Ok None, w)
  /\ (forall fuel, review_loop (S fuel) all page w = Some (Ok all, w))
  /\ exists r w',
       review_session all w = Some (r, w')
       /\ prompts w' = prompts w
       /\ confirms w' = confirms w
       /\ shown w' = shown w
       /\ db_log w' = db_log w ++ [Close].
Proof.
  intros Hall.
  assert (Hnone : filter (fun o => negb (removed o)) all = []).
  { induction all as [| g l IH]; [reflexivity |]. cbn [filter].
    rewrite (Hall g (or_introl eq_refl)). cbn [negb].
    apply IH. intros g' Hg'. apply Hall. right. exact Hg'. }
  assert (Hd : forall ps sp, display_outliers all ps sp w = (Ok None, w))
    by (intros ps sp; unfold display_outliers; rewrite Hnone; reflexivity).
  assert (Ht : forall p, review_turn all p w = (Ok None, w))
    by (intros p; unfold review_turn, bind; rewrite Hd; reflexivity).
  split; [apply Hd |]. split; [apply Ht |].
  split; [intros fuel; cbn [review_loop]; rewrite Ht; reflexivity |].
  unfold review_session. cbn [review_loop]. rewrite Ht.
  destruct (call_world Close w) as (H1 & H2 & H3 & H4).
  destruct (call Close w) as [[u | e] w'']; cbn [snd] in *; eauto 10.
Qed.

Lemma C9_nothing_left_witness :
  display_outliers [set_removed (sample_group 1)] PAGE_SIZE 0
                   (operator [] [] [])
  = (Ok None, operator [] [] []).
Proof.
  apply (C9_nothing_left [set_removed (sample_group 1)] PAGE_SIZE 0 0
                         (operator [] [] [])).
  intros g [<- | []]. reflexivity.
Defined.

(** C10: a valid selection is taken whatever page is on display, and
    after the mutation attempt on the group at index [idx], whether it
    returned [True] or [False] or lost the connection and reconnected, the
    next turn starts at page [idx / PAGE_SIZE], which holds that group and
    is the first page the next display renders. *)
Theorem C10_resume_page (all : list Group) (page : Z) (w w1 w2 : World)
  (a : ascii) (idx : Z) (g : Group) (r : result bool) :
  display_outliers all PAGE_SIZE page w = (Ok (Some (a, idx, g)), w1) ->
  mutate a g w1 = (r, w2) ->
  r = Ok true \/ r = Ok false
  \/ (r = Raise OperationalError /\ hd Done (replies w2) = Done) ->
  (forall any_page c rest n g',
     c = "e"%char \/ c = "d"%char ->
     py_int (strip rest) = Some n ->
     1 <= n <= len all ->
     nth_error all (Z.to_nat (n - 1)) = Some g' ->
     removed g' = false ->
     handle_choice all (total_pages_of all PAGE_SIZE) any_page (String c rest)
     = Pick (c, n - 1, g'))
  /\ idx / PAGE_SIZE * PAGE_SIZE <= idx < (idx / PAGE_SIZE + 1) * PAGE_SIZE
  /\ exists all' w3,
       review_turn all page w = (Ok (Some (all', idx / PAGE_SIZE)), w3)
       /\ List.length all' = List.length all
       /\ first_page (total_pages_of all' PAGE_SIZE) (idx / PAGE_SIZE)
          = idx / PAGE_SIZE
       /\ forall w',
            (exists g', In g' all' /\ removed g' = false) ->
            exists res w'' pages,
              display_outliers all' PAGE_SIZE (idx / PAGE_SIZE) w' = (res, w'')
              /\ shown w'' = shown w' ++ idx / PAGE_SIZE :: pages.
Proof.
  intros Hd Hm Hr.
  destruct (display_picked _ _ _ _ _ _ _ _ Hd) as (_ & Hi & Hg & _).
  split; [intros any_page c rest n g'; apply handle_choice_pick |].
  split.
  { unfold PAGE_SIZE. pose proof (Z.div_mod idx 25 ltac:(lia)).
    pose proof (Z.mod_pos_bound idx 25 ltac:(lia)). lia. }
  assert (Hturn : exists all' w3,
             review_turn all page w = (Ok (Some (all', idx / PAGE_SIZE)), w3)
             /\ List.length all' = List.length all).
  { rewrite (review_turn_picked _ _ _ _ _ _ _ Hd), Hm.
    destruct Hr as [-> | [-> | [-> Hrep]]].
    - destruct (mark_at_spec (Z.to_nat idx) all) as (all' & -> & Hl & _).
      { unfold len in Hi. lia. }
      eauto.
    - eauto.
    - unfold call. rewrite Hrep. eauto. }
  destruct Hturn as (all' & w3 & Ht & Hl).
  assert (Hi' : 0 <= idx < len all') by (unfold len in *; lia).
  exists all', w3. split; [exact Ht |]. split; [exact Hl |].
  split; [apply first_page_of_index, Hi' |].
  intros w' (g' & Hin & Hrem). unfold display_outliers.
  destruct (filter (fun o => negb (removed o)) all') as [| x l] eqn:Ef.
  { exfalso. assert (Hf : In g' (filter (fun o => negb (removed o)) all'))
      by (apply filter_In; rewrite Hrem; auto).
    rewrite Ef in Hf. contradiction. }
  replace (PAGE_SIZE =? 0) with false by reflexivity.
  rewrite (first_page_of_index all' idx Hi').
  destruct (browse_first_page all' (total_pages_of all' PAGE_SIZE)
              (idx / PAGE_SIZE) (prompts w')) as (res & rest & pages & ->).
  eexists _, _, pages. split; reflexivity.
Qed.

Lemma C10_resume_page_witness :
  let w := operator ["e27"; "m"] [] [Lost; Done] in
  exists all' w3,
    review_turn thirty_groups 0 w = (Ok (Some (all', 26 / PAGE_SIZE)), w3)
    /\ List.length all' = List.length thirty_groups
    /\ first_page (total_pages_of all' PAGE_SIZE) (26 / PAGE_SIZE)
       = 26 / PAGE_SIZE.
Proof.
  intros w.
  destruct (C10_resume_page thirty_groups 0 w
              (snd (display_outliers thirty_groups PAGE_SIZE 0 w))
              (snd (mutate "e" (sample_group 27)
                      (snd (display_outliers thirty_groups PAGE_SIZE 0 w))))
              "e" 26 (sample_group 27) (Raise OperationalError))
    as (_ & _ & all' & w3 & H1 & H2 & H3 & _).
  - vm_compute. reflexivity.
  - vm_compute. reflexivity.
  - right. right. split; vm_compute; reflexivity.
  - exists all', w3. auto.
Defined.

Example session_example :
  review_session thirty_groups
    (operator ["n"; "d27"; "e3"; "21.5"; "p"; "q"] [true] [])
  = Some (Ok (map (fun g => if (id (rep g) =? 27) || (id (rep g) =? 3)
                            then set_removed g else g) thirty_groups),
          {| prompts := []; confirms := []; replies := [];
             db_log := [Cursor; Execute (ClearOldState [27]);
                        Execute (DeleteStates [27]); Commit;
                        Cursor; Execute (UpdateState (Finite (215 # 10)) [3]);
                        Commit; Close];
             shown := [0; 1; 1; 0; 0] |}).
Proof. vm_compute. reflexivity. Qed.

(** * Further properties of the code *)

(** ** [find_outliers_in_states]: order of the result *)

Lemma insert_desc_stable {A} (key : A -> Q) (k : Q) (x : A) (l : list A) :
  filter (fun y => Qeq_bool (key y) k) (insert_desc key x l) =
  filter (fun y => Qeq_bool (key y) k) (x :: l).
Proof.
  induction l as [| y l IH]; [reflexivity |].
  cbn [insert_desc]. destruct (Qltb (key x) (key y)) eqn:E; [| reflexivity].
  cbn [filter] in *. rewrite IH.
  destruct (Qeq_bool (key x) k) eqn:Ex; [| reflexivity].
  replace (Qeq_bool (key y) k) with false; [reflexivity |].
  symmetry. apply not_true_is_false. intros Ey.
  apply Qeq_bool_iff in Ex, Ey. apply Qltb_lt in E. lra.
Qed.

Lemma sorted_desc_stable {A} (key : A -> Q) (k : Q) (l : list A) :
  filter (fun y => Qeq_bool (key y) k) (sorted_desc key l) =
  filter (fun y => Qeq_bool (key y) k) l.
Proof.
  induction l as [| x l IH]; [reflexivity |].
  cbn [sorted_desc fold_right]. fold (sorted_desc key l).
  rewrite insert_desc_stable. cbn [filter]. rewrite IH. reflexivity.
Qed.

(** X1: the scan returns the records of all numeric candidates, each
    once, in descending order of deviation; records of equal deviation
    keep the order in which the scan met them. *)
Theorem scan_sorted_stable (db : Database) (min_samples : Z) :
  let found := find_outliers_in_states db min_samples in
  let met := flat_map (scan_candidate db min_samples)
                      (filter is_numeric (states_meta db)) in
  Sorted (desc deviation) found
  /\ Permutation found met
  /\ forall d, filter (fun o => Qeq_bool (deviation o) d) found
               = filter (fun o => Qeq_bool (deviation o) d) met.
Proof.
  intros found met. split; [apply sorted_desc_sorted |].
  split; [apply sorted_desc_perm |].
  intros d. apply sorted_desc_stable.
Qed.

(** ** [find_outliers_in_states]: where a record comes from *)

(** X2: every record of the scan belongs to a candidate whose latest
    state [float] reads and that has at least [min_samples] valid samples;
    it carries that count as [total_samples], the candidate's ids, the id
    and timestamp of one of its valid rows and, as its value, the float of
    that row's number. *)
Theorem scan_provenance (db : Database) (min_samples : Z) (o : Outlier) :
  finite_store db ->
  In o (find_outliers_in_states db min_samples) ->
  exists c st row,
    In c (states_meta db)
    /\ (exists s x, recent_state c = Some s /\ py_float s = Some x)
    /\ aggregate db (metadata_id c) = Some st
    /\ min_samples <= cnt st
    /\ total_samples o = cnt st
    /\ o_metadata_id o = metadata_id c
    /\ o_entity_id o = entity_id c
    /\ In row (valid_states db (metadata_id c))
    /\ id o = state_id row
    /\ value o = round64 (numeric_value row)
    /\ round64 (value o) = value o
    /\ finite64 (value o)
    /\ timestamp o = last_updated_ts row.
Proof.
  intros Hfin Ho.
  destruct (scan_record _ _ _ Ho)
    as (c & st & std_raw & row & Hc & Hn & Ha & Hm & Hs & _ & Hrow & _ & ->).
  destruct (Hfin c st std_raw row Hc Ha Hs Hrow) as (_ & _ & F3 & _).
  exists c, st, row. split; [exact Hc |]. split.
  { unfold is_numeric in Hn. destruct (recent_state c) as [s |]; [| discriminate].
    destruct (py_float s) as [x |] eqn:Ex; [| discriminate]. eauto. }
  cbn [outlier_record total_samples o_metadata_id o_entity_id id value timestamp].
  split; [exact Ha |]. split; [exact Hm |].
  split; [reflexivity |]. split; [reflexivity |]. split; [reflexivity |].
  split; [exact Hrow |]. split; [reflexivity |]. split; [reflexivity |].
  split; [apply round64_idem |]. split; [exact F3 | reflexivity].
Qed.

Lemma scan_provenance_witness :
  exists c st row,
    In c (states_meta sample_db)
    /\ (exists s x, recent_state c = Some s /\ py_float s = Some x)
    /\ aggregate sample_db (metadata_id c) = Some st
    /\ MIN_SAMPLES <= cnt st
    /\ 300 = cnt st
    /\ 1 = metadata_id c
    /\ "sensor.temp" = entity_id c
    /\ In row (valid_states sample_db (metadata_id c))
    /\ 2 = state_id row.
Proof.
  destruct (scan_provenance sample_db MIN_SAMPLES
              (outlier_record sample_candidate 300 20 1 (sample_row 2 (169 # 4))))
    as (c & st & row & H1 & H2 & H3 & H4 & H5 & H6 & H7 & H8 & H9 & _).
  - exact sample_db_finite.
  - vm_compute. right. left. reflexivity.
  - exists c, st, row. auto 10.
Defined.

(** ** [find_outliers_in_states] and [group_outliers]: side of the mean *)



(** ** [find_outliers_in_states]: what the frequency filter leaves *)

Lemma keep_rare_map (c : Candidate) (total : Z) (mean_v std : Q)
  (rows : list StateRow) :
  keep_rare c total mean_v std rows =
  map (outlier_record c total mean_v std)
      (filter (fun r => negb (too_frequent total rows r)) rows).
Proof.
  unfold keep_rare. generalize rows at 1 3 as all.
  induction rows as [| r rows IH]; intros all; [reflexivity |].
  cbn [flat_map filter]. rewrite IH.
  destruct (too_frequent total all r); reflexivity.
Qed.

Lemma filter_filter_length {A} (p q : A -> bool) (l : list A) :
  (List.length (filter p (filter q l)) <= List.length (filter p l))%nat.
Proof.
  induction l as [| x l IH]; [apply le_n |].
  cbn [filter]. destruct (q x); cbn [filter];
    destruct (p x); cbn [List.length]; lia.
Qed.

Lemma filter_map_comm {A B} (f : A -> B) (p : B -> bool) (l : list A) :
  filter p (map f l) = map f (filter (fun x => p (f x)) l).
Proof.
  induction l as [| x l IH]; [reflexivity |].
  cbn [map filter]. rewrite IH. destruct (p (f x)); reflexivity.
Qed.

(** X4: among the records that the scan keeps for one entity, no printed
    value (six significant digits) occurs more often than
    [total_samples * FREQUENCY_THRESHOLD]. *)
Theorem frequency_cap (db : Database) (min_samples : Z) (c : Candidate)
  (st : Stats) (k : string) :
  aggregate db (metadata_id c) = Some st ->
  0 <= cnt st ->
  (inject_Z (len (filter (fun o => String.eqb (fmt_6g (value o)) k)
                         (scan_candidate db min_samples c)))
   <= inject_Z (cnt st) * FREQUENCY_THRESHOLD)%Q.
Proof.
  intros Ha Hc.
  assert (Hzero : (inject_Z (len (@nil Outlier))
                   <= inject_Z (cnt st) * FREQUENCY_THRESHOLD)%Q).
  { unfold FREQUENCY_THRESHOLD, len. cbn [List.length Z.of_nat].
    assert (H : (0 <= inject_Z (cnt st))%Q)
      by (change 0%Q with (inject_Z 0); rewrite <- Zle_Qle; exact Hc).
    change (inject_Z 0) with 0%Q. lra. }
  unfold scan_candidate. rewrite Ha.
  destruct (cnt st <? min_samples); [exact Hzero |].
  destruct (std_val st) as [std |]; [| exact Hzero].
  destruct (Qeq_bool std 0); [exact Hzero |]. cbv zeta.
  destruct (Qeq_bool (round64 std) 0); [exact Hzero |].
  set (rows := fetch_outside db (metadata_id c)
                 (lower_of (round64 (mean_val st)) (round64 std))
                 (upper_of (round64 (mean_val st)) (round64 std))).
  rewrite keep_rare_map, filter_map_comm. unfold len. rewrite length_map.
  cbn [outlier_record value].
  set (kept := filter (fun r => negb (too_frequent (cnt st) rows r)) rows).
  destruct (filter (fun r => String.eqb (fmt_6g (round64 (numeric_value r))) k) kept)
    as [| r rest] eqn:Ef; [exact Hzero |].
  assert (Hr : In r (filter (fun r => String.eqb (fmt_6g (round64 (numeric_value r))) k)
                            kept))
    by (rewrite Ef; left; reflexivity).
  apply filter_In in Hr. destruct Hr as [Hr Hk].
  apply filter_In in Hr. destruct Hr as [_ Hf].
  apply negb_true_iff in Hf. unfold too_frequent in Hf. apply Qltb_ge in Hf.
  unfold occurrence_count in Hf. rewrite Counter_filter in Hf.
  apply String.eqb_eq in Hk. rewrite Hk in Hf.
  eapply Qle_trans; [| exact Hf].
  rewrite <- Zle_Qle. unfold len. apply inj_le.
  rewrite <- Ef. apply filter_filter_length.
Qed.

Lemma frequency_cap_witness :
  (inject_Z (len (filter (fun o => String.eqb (fmt_6g (value o)) "77")
                         (scan_candidate repeated_db MIN_SAMPLES sample_candidate)))
   <= inject_Z 1000 * FREQUENCY_THRESHOLD)%Q.
Proof.
  apply (frequency_cap repeated_db MIN_SAMPLES sample_candidate
           {| cnt := 1000; mean_val := 20; std_val := Some 1%Q |} "77").
  - reflexivity.
  - vm_compute. discriminate.
Defined.

Example frequency_filter_sample :
  map id (scan_candidate repeated_db MIN_SAMPLES sample_candidate)
  = [12; 13; 14; 15; 16; 17; 18; 19; 20].
Proof. vm_compute. reflexivity. Qed.

(** ** [group_outliers]: counts *)

Lemma sum_counts_from (l : list Group) (a : Z) :
  fold_left (fun acc g => acc + count g) l a = a + sum_counts l.
Proof.
  unfold sum_counts. revert a. induction l as [| g l IH]; intros a; cbn [fold_left].
  - lia.
  - rewrite IH, (IH (0 + count g)). lia.
Qed.

Lemma sum_counts_cons (g : Group) (l : list Group) :
  sum_counts (g :: l) = count g + sum_counts l.
Proof. unfold sum_counts at 1. cbn [fold_left]. rewrite sum_counts_from. lia. Qed.

Lemma sum_counts_perm (l l' : list Group) :
  Permutation l l' -> sum_counts l = sum_counts l'.
Proof.
  induction 1 as [| g l l' _ IH | g h l | l l' l'' _ IH1 _ IH2].
  - reflexivity.
  - rewrite !sum_counts_cons. lia.
  - rewrite !sum_counts_cons. lia.
  - congruence.
Qed.

Lemma sum_counts_members (os : list Outlier) (gs : list (Key * Group)) :
  (forall k g, In (k, g) gs -> In (k, g) (build_groups os)) ->
  sum_counts (map snd gs)
  = len (flat_map (fun k => members k os) (map fst gs)).
Proof.
  induction gs as [| [k g] gs IH]; intros Hsub; [reflexivity |].
  cbn [map fst snd flat_map]. rewrite sum_counts_cons.
  rewrite IH by (intros; apply Hsub; right; assumption).
  destruct (build_groups_spec k g os (Hsub k g (or_introl eq_refl)))
    as (m & ms & Hm & _ & _ & _ & _ & _ & _ & Hc & _).
  rewrite Hc, <- Hm. unfold len. rewrite length_app. lia.
Qed.

Lemma group_outliers_sum (outliers : list Outlier) :
  sum_counts (group_outliers outliers) = len outliers.
Proof.
  rewrite (sum_counts_perm _ _ (group_outliers_perm outliers)).
  rewrite (sum_counts_members outliers) by auto.
  unfold len. f_equal. apply Permutation_length, members_partition.
  - apply keys_build_groups_NoDup.
  - intros o Ho. destruct (build_groups_covers outliers o Ho) as [g Hg].
    apply (in_map fst) in Hg. exact Hg.
Qed.

(** X5: the counts of the groups add up to the number of records, so the
    total that [main] and the display report is the number of records
    found; every group has at least one member, and there are no more
    groups than records. *)
Theorem group_counts_total (outliers : list Outlier) :
  let groups := group_outliers outliers in
  sum_counts groups = len outliers
  /\ (forall g, In g groups -> 1 <= count g)
  /\ len groups <= len outliers.
Proof.
  intros groups.
  assert (Hsum : sum_counts groups = len outliers)
    by apply group_outliers_sum.
  assert (Hone : forall g, In g groups -> 1 <= count g).
  { intros g Hg. apply group_outliers_In in Hg. destruct Hg as [k Hg].
    destruct (build_groups_spec _ _ _ Hg)
      as (m & ms & _ & _ & _ & _ & _ & _ & _ & Hc & _).
    rewrite Hc, len_cons. pose proof (len_nonneg ms). lia. }
  split; [exact Hsum |]. split; [exact Hone |].
  rewrite <- Hsum. clear Hsum. induction groups as [| g l IH].
  - reflexivity.
  - rewrite sum_counts_cons, len_cons.
    specialize (Hone g (or_introl eq_refl)) as H1.
    assert (len l <= sum_counts l)
      by (apply IH; intros; apply Hone; right; assumption).
    lia.
Qed.

(** ** [group_outliers]: extremes and order of the members *)

Lemma py_min_cases (a b : Q) : py_min a b = a \/ py_min a b = b.
Proof. unfold py_min. destruct (Qltb b a); auto. Qed.

Lemma py_max_cases (a b : Q) : py_max a b = a \/ py_max a b = b.
Proof. unfold py_max. destruct (Qltb a b); auto. Qed.

Lemma fold_add_member_attained (ms : list Outlier) (g0 : Group) :
  In (min_value g0) (values g0) -> In (max_value g0) (values g0) ->
  let g := fold_left add_member ms g0 in
  In (min_value g) (values g) /\ In (max_value g) (values g).
Proof.
  revert g0. induction ms as [| m ms IH]; intros g0 Hmin Hmax; cbn [fold_left].
  - auto.
  - apply IH; cbn [add_member min_value max_value values]; apply in_or_app.
    + destruct (py_min_cases (min_value g0) (value m)) as [-> | ->];
        [left; exact Hmin | right; left; reflexivity].
    + destruct (py_max_cases (max_value g0) (value m)) as [-> | ->];
        [left; exact Hmax | right; left; reflexivity].
Qed.

(** X6: the minimum and the maximum of a group are values of two of its
    members, and the member lists follow the order in which the records
    of the key came in, the first of them being the representative. *)
Theorem group_extremes_attained (outliers : list Outlier) (g : Group) :
  In g (group_outliers outliers) ->
  In (min_value g) (values g)
  /\ In (max_value g) (values g)
  /\ ids g = map id (members (group_key g) outliers)
  /\ timestamps g = map timestamp (members (group_key g) outliers)
  /\ values g = map value (members (group_key g) outliers)
  /\ hd_error (members (group_key g) outliers) = Some (rep g).
Proof.
  intros Hg. apply group_outliers_In in Hg. destruct Hg as [k Hg].
  destruct (build_groups_spec _ _ _ Hg)
    as (m & ms & Hm & Hr & Hk & Hi & Ht & Hv & _).
  apply build_groups_In in Hg. rewrite Hm in Hg. cbn [group_from] in Hg.
  injection Hg as Hg.
  destruct (fold_add_member_attained ms (new_group m)) as [Hmin Hmax];
    [left; reflexivity | left; reflexivity |].
  cbv zeta in Hmin, Hmax. rewrite Hg in Hmin, Hmax.
  rewrite Hk, Hm, Hr. auto 10.
Qed.

Lemma group_extremes_attained_witness :
  exists g,
    In g (group_outliers sample_outliers)
    /\ In (min_value g) (values g)
    /\ ids g = map id (members (group_key g) sample_outliers)
    /\ ids g = [2; 7].
Proof.
  pose (g := {| rep := outlier_record sample_candidate 300 20 1
                         (sample_row 2 (169 # 4));
                count := 2; ids := [2; 7];
                timestamps := [Some 2%Q; Some 7%Q];
                values := [(169 # 4)%Q; 42%Q];
                min_value := 42%Q; max_value := (169 # 4)%Q;
                removed := false |}).
  assert (Hg : In g (group_outliers sample_outliers))
    by (vm_compute; left; reflexivity).
  destruct (group_extremes_attained sample_outliers g Hg)
    as (H1 & _ & H3 & _).
  exists g.
  split; [exact Hg |]. split; [exact H1 |]. split; [exact H3 | reflexivity].
Defined.

(** ** [group_outliers]: how far apart the members of a group are *)

Lemma band_of_ranges (d : Q) :
  ((d < 10)%Q -> band_of d < 10)
  /\ ((10 <= d)%Q -> 10 <= band_of d)
  /\ ((d < 20)%Q -> band_of d < 20)
  /\ ((20 <= d)%Q -> 20 <= band_of d).
Proof.
  destruct (band_of_floor d) as [Hlo _].
  destruct (band_size_cases d) as (H1 & H2 & H3).
  assert (Hlt : forall n : Z, (d < inject_Z n)%Q -> band_of d < n).
  { intros n Hn. rewrite Zlt_Qlt. lra. }
  split; [intros H; apply (Hlt 10), H |].
  split.
  - intros H. unfold band_of. destruct (Qlt_le_dec d 20) as [H20 | H20].
    + rewrite (H2 H H20).
      assert (5 <= Qfloor (d / inject_Z 2)).
      { rewrite <- (Qfloor_Z 5). apply Qfloor_resp_le.
        apply Qle_shift_div_l; [reflexivity |]. change (inject_Z 5) with 5%Q.
        change (inject_Z 2) with 2%Q. lra. }
      lia.
    + rewrite (H3 H20).
      assert (4 <= Qfloor (d / inject_Z 5)).
      { rewrite <- (Qfloor_Z 4). apply Qfloor_resp_le.
        apply Qle_shift_div_l; [reflexivity |]. change (inject_Z 5) with 5%Q.
        change (inject_Z 4) with 4%Q. lra. }
      lia.
  - split; [intros H; apply (Hlt 20), H |].
    intros H. unfold band_of. rewrite (H3 H).
    assert (4 <= Qfloor (d / inject_Z 5)).
    { rewrite <- (Qfloor_Z 4). apply Qfloor_resp_le.
      apply Qle_shift_div_l; [reflexivity |]. change (inject_Z 5) with 5%Q.
      change (inject_Z 4) with 4%Q. lra. }
    lia.
Qed.

Lemma band_determines_size (d1 d2 : Q) :
  band_of d1 = band_of d2 -> band_size d1 = band_size d2.
Proof.
  intros Hb.
  destruct (band_of_ranges d1) as (A1 & A2 & A3 & A4).
  destruct (band_of_ranges d2) as (B1 & B2 & B3 & B4).
  destruct (band_size_cases d1) as (S1 & S2 & S3).
  destruct (band_size_cases d2) as (T1 & T2 & T3).
  destruct (Qlt_le_dec d1 10) as [H1 | H1];
    destruct (Qlt_le_dec d2 10) as [H2 | H2];
    destruct (Qlt_le_dec d1 20) as [H3 | H3];
    destruct (Qlt_le_dec d2 20) as [H4 | H4];
    try (exfalso; lra);
    try (rewrite (S1 H1)); try (rewrite (T1 H2));
    try (rewrite (S2 H1 H3)); try (rewrite (T2 H2 H4));
    try (rewrite (S3 H3)); try (rewrite (T3 H4));
    try reflexivity; exfalso;
    try specialize (A1 H1); try specialize (A2 H1);
    try specialize (A3 H3); try specialize (A4 H3);
    try specialize (B1 H2); try specialize (B2 H2);
    try specialize (B3 H4); try specialize (B4 H4); lia.
Qed.

(** X7: two records that fall in the same group were given the same band
    width, both deviations lie in [band, band + width), and so they differ
    by less than that width, which is 1, 2 or 5. *)
Theorem group_band_spread (outliers : list Outlier) (g : Group) (o1 o2 : Outlier) :
  In g (group_outliers outliers) ->
  In o1 (members (group_key g) outliers) ->
  In o2 (members (group_key g) outliers) ->
  let w := band_size (deviation (rep g)) in
  band_size (deviation o1) = w
  /\ (inject_Z (band_of (deviation (rep g))) <= deviation o1)%Q
  /\ (deviation o1 < inject_Z (band_of (deviation (rep g))) + inject_Z w)%Q
  /\ (Qabs (deviation o1 - deviation o2) < inject_Z w)%Q
  /\ (w = 1 \/ w = 2 \/ w = 5).
Proof.
  intros Hg H1 H2 w.
  apply members_In in H1, H2. destruct H1 as [_ K1]. destruct H2 as [_ K2].
  unfold group_key, key_of in K1, K2.
  injection K1 as _ B1 _. injection K2 as _ B2 _.
  pose proof (band_determines_size _ _ B1) as W1.
  pose proof (band_determines_size _ _ B2) as W2.
  destruct (band_of_floor (deviation o1)) as [L1 U1].
  destruct (band_of_floor (deviation o2)) as [L2 U2].
  rewrite B1 in L1, U1. rewrite W1 in U1. rewrite B2 in L2, U2.
  rewrite W2 in U2. fold w in U1, U2.
  split; [exact W1 |]. split; [exact L1 |]. split; [exact U1 |].
  split.
  - apply Qabs_case; intros _; lra.
  - unfold w, band_size. destruct (Qltb (deviation (rep g)) 10); [auto |].
    destruct (Qltb (deviation (rep g)) 20); auto.
Qed.

Lemma group_band_spread_witness :
  let o1 := outlier_record sample_candidate 300 20 1 (sample_row 2 (169 # 4)) in
  let o2 := outlier_record sample_candidate 300 20 1 (sample_row 7 42) in
  (Qabs (deviation o1 - deviation o2) < 5)%Q.
Proof.
  intros o1 o2.
  pose (g := {| rep := o1; count := 2; ids := [2; 7];
                timestamps := [Some 2%Q; Some 7%Q];
                values := [(169 # 4)%Q; 42%Q];
                min_value := 42%Q; max_value := (169 # 4)%Q;
                removed := false |}).
  destruct (group_band_spread sample_outliers g o1 o2) as (_ & _ & _ & H & _).
  - vm_compute. left. reflexivity.
  - vm_compute. left. reflexivity.
  - vm_compute. right. left. reflexivity.
  - exact H.
Defined.

(** ** The scan and the grouping together *)

(** X8: whatever the store holds, the groups that [main] builds from the
    scan come out in descending order of their representative deviation;
    the representative of a group is a record of the scan and no record of
    the scan with the same key has a higher deviation; the counts add up
    to the number of records found; no group starts out removed. *)
Theorem scan_and_group_sound (db : Database) :
  let found := find_outliers_in_states db MIN_SAMPLES in
  let groups := scan_and_group db in
  Sorted (desc group_deviation) groups
  /\ sum_counts groups = len found
  /\ forall g, In g groups ->
       In (rep g) found
       /\ removed g = false
       /\ forall o, In o found -> key_of o = group_key g ->
                    (deviation o <= deviation (rep g))%Q.
Proof.
  intros found groups.
  split; [apply sorted_desc_sorted |].
  split.
  { apply group_outliers_sum. }
  intros g Hg. apply group_outliers_In in Hg. destruct Hg as [k Hg].
  fold found in Hg.
  destruct (build_groups_spec _ _ _ Hg)
    as (m & ms & Hm & Hr & Hk & _ & _ & _ & _ & _ & Hrm & _).
  assert (Hin : In m (members k found)) by (rewrite Hm; left; reflexivity).
  split; [rewrite Hr; apply members_In in Hin; tauto |].
  split; [exact Hrm |].
  intros o Ho Hko. rewrite Hr.
  apply (members_first_highest k found m ms).
  - apply sorted_desc_sorted.
  - exact Hm.
  - rewrite <- Hm. apply members_In. split; [exact Ho | congruence].
Qed.

Example scan_and_group_sample :
  map (fun g => (group_key g, count g, ids g)) (scan_and_group sample_db)
  = [ (("sensor.temp", 25, Below), 1, [3]);
      (("sensor.temp", 20, Above), 1, [2]);
      (("sensor.temp", 7, Above), 1, [5]);
      (("sensor.temp", 5, Below), 1, [6]) ].
Proof. vm_compute. reflexivity. Qed.

(** ** [display_outliers]: pages and row numbers *)

Lemma enumerate_In {A} (l : list A) (i n : Z) (x : A) :
  In (n, x) (enumerate l i) <->
  exists k, nth_error l k = Some x /\ n = i + Z.of_nat k.
Proof.
  revert i. induction l as [| y l IH]; intros i; cbn [enumerate In].
  - split; [contradiction |]. intros ([| k] & H & _); discriminate H.
  - rewrite IH. split.
    + intros [H | (k & Hk & ->)].
      * injection H as <- <-. exists 0%nat. split; [reflexivity | lia].
      * exists (S k). split; [exact Hk | lia].
    + intros ([| k] & Hk & ->).
      * left. cbn [nth_error] in Hk. injection Hk as ->. f_equal. lia.
      * right. exists k. split; [exact Hk | lia].
Qed.

Lemma py_slice_nth {A} (l : list A) (start stop : Z) (k : nat) :
  0 <= start <= stop ->
  nth_error (py_slice l start stop) k =
  if Z.of_nat k <? stop - start
  then nth_error l (Z.to_nat start + k)
  else None.
Proof.
  intros Hs. unfold py_slice. cbv zeta.
  replace (start <? 0) with false by (symmetry; apply Z.ltb_ge; lia).
  replace (stop <? 0) with false by (symmetry; apply Z.ltb_ge; lia).
  rewrite nth_error_firstn, nth_error_skipn.
  pose proof (len_nonneg l) as Hn. unfold len in *.
  set (m := Z.to_nat (Z.min stop (Z.of_nat (List.length l))
                      - Z.min start (Z.of_nat (List.length l)))).
  destruct (Nat.ltb_spec k m) as [E2 | E2];
    destruct (Z.ltb_spec (Z.of_nat k) (stop - start)) as [E1 | E1];
    unfold m in E2.
  - f_equal. lia.
  - lia.
  - symmetry. apply nth_error_None. lia.
  - reflexivity.
Qed.

Lemma page_rows_In (outliers : list Group) (page_size page n : Z) (g : Group) :
  0 < page_size -> 0 <= page ->
  (In (n, g) (page_rows outliers page_size page) <->
   page * page_size < n <= (page + 1) * page_size
   /\ nth_error outliers (Z.to_nat (n - 1)) = Some g).
Proof.
  intros Hp Hpage. unfold page_rows. cbv zeta. rewrite enumerate_In.
  assert (H0 : 0 <= page * page_size) by nia.
  split.
  - intros (k & Hk & ->). rewrite py_slice_nth in Hk by lia.
    destruct (Z.of_nat k <? page * page_size + page_size - page * page_size) eqn:E;
      [| discriminate].
    apply Z.ltb_lt in E. split; [nia |].
    rewrite <- Hk. f_equal. lia.
  - intros (Hn & Hg). exists (Z.to_nat (n - 1 - page * page_size)).
    split; [| lia]. rewrite py_slice_nth by lia.
    replace (Z.of_nat (Z.to_nat (n - 1 - page * page_size))
               <? page * page_size + page_size - page * page_size)
      with true by (symmetry; apply Z.ltb_lt; nia).
    rewrite <- Hg. f_equal. lia.
Qed.

(** X9: the number in the first column of a row is the position of its
    group in the whole list, counted from 1: page [p] shows the numbers
    [p * page_size + 1] to [(p + 1) * page_size] that the list has, each
    group is on the one page [(n - 1) / page_size], which is a page of the
    display, and typing that number after [e] or [d], on whatever page,
    selects the group of that row. *)
Theorem page_rows_numbering (outliers : list Group) (page_size page n : Z)
  (g : Group) :
  0 < page_size -> 0 <= page ->
  (In (n, g) (page_rows outliers page_size page) <->
   page * page_size < n <= (page + 1) * page_size
   /\ nth_error outliers (Z.to_nat (n - 1)) = Some g)
  /\ (In (n, g) (page_rows outliers page_size page) ->
      1 <= n <= len outliers
      /\ page = (n - 1) / page_size
      /\ 0 <= page <= total_pages_of outliers page_size - 1
      /\ (removed g = false ->
          forall any_page c rest,
            c = "e"%char \/ c = "d"%char ->
            py_int (strip rest) = Some n ->
            handle_choice outliers (total_pages_of outliers page_size)
                          any_page (String c rest)
            = Pick (c, n - 1, g))).
Proof.
  intros Hp Hpage. split; [apply page_rows_In; assumption |].
  intros Hin. apply page_rows_In in Hin; [| assumption | assumption].
  destruct Hin as [Hn Hg].
  assert (Hlen : 1 <= n <= len outliers).
  { assert (Hlt : (Z.to_nat (n - 1) < List.length outliers)%nat)
      by (apply nth_error_Some; rewrite Hg; discriminate).
    unfold len. nia. }
  assert (Hq : page = (n - 1) / page_size)
    by (apply Z.div_unique with (r := n - 1 - page * page_size);
        [left; nia | nia]).
  split; [exact Hlen |]. split; [exact Hq |].
  split.
  - pose proof (total_pages_ceil outliers page_size Hp) as Hc.
    cbv zeta in Hc. nia.
  - intros Hr any_page c rest Hc Hi.
    apply handle_choice_pick; assumption.
Qed.

Lemma page_rows_numbering_witness :
  In (27, sample_group 27) (page_rows thirty_groups PAGE_SIZE 1)
  /\ (1 = (27 - 1) / PAGE_SIZE)
  /\ handle_choice thirty_groups (total_pages_of thirty_groups PAGE_SIZE) 0 "e27"
     = Pick ("e"%char, 26, sample_group 27).
Proof.
  destruct (page_rows_numbering thirty_groups PAGE_SIZE 1 27 (sample_group 27))
    as [Hiff Hrow]; [reflexivity | discriminate |].
  assert (Hin : In (27, sample_group 27) (page_rows thirty_groups PAGE_SIZE 1)).
  { apply Hiff. split; [split; [reflexivity | discriminate] | reflexivity]. }
  destruct (Hrow Hin) as (_ & Hq & _ & Hsel).
  split; [exact Hin |]. split; [exact Hq |].
  apply (Hsel eq_refl 0 "e"%char "27"); [left; reflexivity | reflexivity].
Defined.

Example page_rows_sample :
  map fst (page_rows thirty_groups PAGE_SIZE 0)
  = [1; 2; 3; 4; 5; 6; 7; 8; 9; 10; 11; 12; 13; 14; 15; 16; 17; 18; 19; 20;
     21; 22; 23; 24; 25]
  /\ map fst (page_rows thirty_groups PAGE_SIZE 1) = [26; 27; 28; 29; 30]
  /\ page_rows thirty_groups PAGE_SIZE 2 = [].
Proof. repeat split; vm_compute; reflexivity. Qed.

(** ** [display_outliers]: the pages it renders *)

Lemma handle_choice_stay_range (outliers : list Group) (total_pages page page' : Z)
  (choice : string) :
  0 <= page <= total_pages - 1 ->
  handle_choice outliers total_pages page choice = Stay page' ->
  0 <= page' <= total_pages - 1.
Proof.
  intros Hr. unfold handle_choice.
  destruct (String.eqb choice "n" && (page <? total_pages - 1)) eqn:E1.
  { apply andb_true_iff in E1. destruct E1 as [_ E1]. apply Z.ltb_lt in E1.
    intros H. injection H as <-. lia. }
  destruct (String.eqb choice "p" && (0 <? page)) eqn:E2.
  { apply andb_true_iff in E2. destruct E2 as [_ E2]. apply Z.ltb_lt in E2.
    intros H. injection H as <-. lia. }
  destruct (String.eqb choice "q"); [discriminate |].
  destruct choice as [| c rest]; [intros H; injection H as <-; lia |].
  destruct (Ascii.eqb c "e" || Ascii.eqb c "d");
    [| intros H; injection H as <-; lia].
  destruct (py_int (strip rest)) as [num |];
    [| intros H; injection H as <-; lia].
  destruct ((1 <=? num) && (num <=? len outliers));
    [| intros H; injection H as <-; lia].
  destruct (nth_error outliers (Z.to_nat (num - 1))) as [g |];
    [| intros H; injection H as <-; lia].
  destruct (removed g); [intros H; injection H as <-; lia | discriminate].
Qed.

Lemma browse_pages_range (outliers : list Group) (total_pages : Z)
  (lines : list string) :
  forall page r rest pages,
    0 <= page <= total_pages - 1 ->
    browse outliers total_pages page lines = (r, rest, pages) ->
    forall p, In p pages -> 0 <= p <= total_pages - 1.
Proof.
  induction lines as [| line lines IH]; intros page r rest pages Hr Hb p Hp;
    cbn [browse] in Hb.
  - injection Hb as _ _ <-. destruct Hp as [<- | []]. exact Hr.
  - destruct (handle_choice outliers total_pages page (lower (strip line)))
      as [page' | | sel] eqn:Eh.
    + destruct (browse outliers total_pages page' lines) as [[r' rest'] pages'] eqn:Eb.
      injection Hb as _ _ <-. destruct Hp as [<- | Hp]; [exact Hr |].
      apply (IH page' r' rest' pages'); [| exact Eb | exact Hp].
      apply (handle_choice_stay_range _ _ _ _ _ Hr Eh).
    + injection Hb as _ _ <-. destruct Hp as [<- | []]. exact Hr.
    + injection Hb as _ _ <-. destruct Hp as [<- | []]. exact Hr.
Qed.

Lemma active_nonempty_len (outliers : list Group) :
  active outliers <> [] -> 1 <= len outliers.
Proof.
  destruct outliers as [| g l]; [intros H; exfalso; apply H; reflexivity |].
  intros _. rewrite len_cons. pose proof (len_nonneg l). lia.
Qed.

(** X10: for a positive page size the display touches neither the store
    nor the answers to confirmations; whatever [start_page] it is given,
    every page it renders lies in [0, total_pages - 1] and has at least
    one row. *)
Theorem display_pages_in_range (all : list Group) (page_size start_page : Z)
  (w w' : World) (r : result (option Selection)) :
  0 < page_size ->
  display_outliers all page_size start_page w = (r, w') ->
  db_log w' = db_log w
  /\ replies w' = replies w
  /\ confirms w' = confirms w
  /\ exists pages,
       shown w' = shown w ++ pages
       /\ forall p, In p pages ->
            0 <= p <= total_pages_of all page_size - 1
            /\ page_rows all page_size p <> [].
Proof.
  intros Hp. unfold display_outliers. fold (active all).
  destruct (active all) as [| a l] eqn:Ea.
  { intros H. injection H as _ <-. repeat (split; [reflexivity |]).
    exists []. rewrite app_nil_r. split; [reflexivity | intros p []]. }
  replace (page_size =? 0) with false by (symmetry; apply Z.eqb_neq; lia).
  assert (Hlen : 1 <= len all)
    by (apply active_nonempty_len; rewrite Ea; discriminate).
  pose proof (total_pages_ceil all page_size Hp) as Hc. cbv zeta in Hc.
  set (tp := total_pages_of all page_size) in *.
  assert (Htp : 1 <= tp) by nia.
  assert (Hfirst : 0 <= first_page tp start_page <= tp - 1).
  { unfold first_page.
    replace (0 <? tp) with true by (symmetry; apply Z.ltb_lt; lia). lia. }
  destruct (browse all tp (first_page tp start_page) (prompts w))
    as [[r' rest] pages] eqn:Eb.
  intros H. injection H as _ <-. cbn [db_log replies confirms shown].
  repeat (split; [reflexivity |]).
  exists pages. split; [reflexivity |].
  intros p Hin.
  pose proof (browse_pages_range _ _ _ _ _ _ _ Hfirst Eb p Hin) as Hrange.
  split; [exact Hrange |].
  assert (Hidx : (Z.to_nat (p * page_size) < List.length all)%nat)
    by (unfold len in *; nia).
  destruct (nth_error all (Z.to_nat (p * page_size))) as [g |] eqn:Eg;
    [| apply nth_error_None in Eg; lia].
  assert (Hrow : In (p * page_size + 1, g) (page_rows all page_size p)).
  { apply page_rows_In; [exact Hp | lia |]. split; [nia |].
    rewrite <- Eg. f_equal. lia. }
  intros Hnil. rewrite Hnil in Hrow. contradiction.
Qed.

Lemma display_pages_in_range_witness :
  let w := operator ["n"; "n"; "q"] [] [] in
  let w' := snd (display_outliers thirty_groups PAGE_SIZE 7 w) in
  shown w' = [1; 1; 1]
  /\ exists pages,
       shown w' = shown w ++ pages
       /\ forall p, In p pages ->
            0 <= p <= total_pages_of thirty_groups PAGE_SIZE - 1
            /\ page_rows thirty_groups PAGE_SIZE p <> [].
Proof.
  intros w w'.
  destruct (display_pages_in_range thirty_groups PAGE_SIZE 7 w w' (Ok None))
    as (_ & _ & _ & H).
  - reflexivity.
  - vm_compute. reflexivity.
  - split; [vm_compute; reflexivity | exact H].
Defined.

(** ** The header line after a removal *)

Lemma active_cons (g : Group) (l : list Group) :
  active (g :: l) = if removed g then active l else g :: active l.
Proof. unfold active. cbn [filter]. destruct (removed g); reflexivity. Qed.

(** X11: marking the group at index [i], which was not removed, takes
    exactly that group out of the header line: one group fewer, and as
    many records fewer as the group has members; the list keeps its
    length, so every row keeps its number. *)
Theorem removal_header (all all' : list Group) (i : nat) (g : Group) :
  nth_error all i = Some g ->
  removed g = false ->
  mark_at i all = Some all' ->
  len (active all') = len (active all) - 1
  /\ total_records all' = total_records all - count g
  /\ len all' = len all
  /\ nth_error all' i = Some (set_removed g).
Proof.
  unfold total_records. revert i all'.
  induction all as [| h l IH]; intros i all' Hg Hr Hm.
  - destruct i; discriminate Hg.
  - destruct i as [| i]; cbn [nth_error mark_at] in *.
    + injection Hg as ->. injection Hm as <-.
      rewrite !active_cons. cbn [set_removed removed]. rewrite Hr.
      rewrite sum_counts_cons, !len_cons. repeat split; lia.
    + destruct (mark_at i l) as [l' |] eqn:El; [| discriminate].
      cbn [option_map] in Hm. injection Hm as <-.
      destruct (IH i l' Hg Hr El) as (H1 & H2 & H3 & H4).
      rewrite !active_cons, !len_cons. cbn [nth_error].
      destruct (removed h).
      * repeat split; [lia | lia | lia | exact H4].
      * rewrite !sum_counts_cons, !len_cons.
        repeat split; [lia | lia | lia | exact H4].
Qed.

Lemma removal_header_witness :
  let all' := map (fun g => if id (rep g) =? 27 then set_removed g else g)
                  thirty_groups in
  len (active all') = len (active thirty_groups) - 1
  /\ total_records all' = total_records thirty_groups - count (sample_group 27)
  /\ len all' = len thirty_groups
  /\ nth_error all' 26 = Some (set_removed (sample_group 27)).
Proof.
  apply (removal_header thirty_groups _ 26 (sample_group 27));
    vm_compute; reflexivity.
Defined.

(** ** The whole session *)

Lemma display_keeps_store (all : list Group) (page_size start_page : Z)
  (w w' : World) (r : result (option Selection)) :
  display_outliers all page_size start_page w = (r, w') ->
  db_log w' = db_log w /\ replies w' = replies w /\ confirms w' = confirms w.
Proof.
  unfold display_outliers.
  destruct (filter (fun o => negb (removed o)) all).
  { intros H. injection H as _ <-. auto. }
  destruct (page_size =? 0).
  { intros H. injection H as _ <-. auto. }
  destruct (browse all (total_pages_of all page_size)
              (first_page (total_pages_of all page_size) start_page) (prompts w))
    as [[r' rest] pages].
  intros H. injection H as _ <-. auto.
Qed.

Lemma only_marks_refl (l : list Group) : only_marks l l.
Proof. split; [reflexivity |]. intros j g H. exists g. auto. Qed.

Lemma only_marks_trans (a b c : list Group) :
  only_marks a b -> only_marks b c -> only_marks a c.
Proof.
  intros [L1 H1] [L2 H2]. split; [congruence |].
  intros j g'' Hc. destruct (H2 j g'' Hc) as (g' & Hb & Hg'').
  destruct (H1 j g' Hb) as (g & Ha & Hg').
  exists g. split; [exact Ha |].
  destruct Hg'' as [-> | [-> Hr']]; [exact Hg' |].
  destruct Hg' as [-> | [-> _]]; [auto | discriminate Hr'].
Qed.

Lemma mark_at_only_marks (i : nat) (l l' : list Group) (g : Group) :
  nth_error l i = Some g -> removed g = false -> mark_at i l = Some l' ->
  only_marks l l'.
Proof.
  intros Hg Hr Hm.
  destruct (mark_at_spec i l) as (l'' & Hm' & Hl & Hn & Ho).
  { apply nth_error_Some. rewrite Hg. discriminate. }
  rewrite Hm in Hm'. injection Hm' as <-.
  split; [exact Hl |]. intros j g' Hj.
  destruct (Nat.eq_dec j i) as [-> | Hne].
  - rewrite Hn, Hg in Hj. cbn [option_map] in Hj. injection Hj as <-.
    exists g. auto.
  - rewrite (Ho j Hne) in Hj. exists g'. auto.
Qed.

Lemma mark_at_active (i : nat) (l l' : list Group) :
  mark_at i l = Some l' -> len (active l) <= len (active l') + 1.
Proof.
  revert i l'. induction l as [| h l IH]; intros i l' Hm.
  - destruct i; discriminate Hm.
  - destruct i as [| i]; cbn [mark_at] in Hm.
    + injection Hm as <-. rewrite !active_cons. cbn [set_removed removed].
      destruct (removed h); rewrite ?len_cons; lia.
    + destruct (mark_at i l) as [l0 |] eqn:El; [| discriminate].
      cbn [option_map] in Hm. injection Hm as <-.
      specialize (IH i l0 El). rewrite !active_cons.
      destruct (removed h); rewrite ?len_cons; lia.
Qed.

Lemma commits_app (a b : list db_call) : commits (a ++ b) = (commits a + commits b)%nat.
Proof. unfold commits. rewrite filter_app, length_app. reflexivity. Qed.

Lemma last_commit (calls : list db_call) :
  last calls Cursor = Commit -> (1 <= commits calls)%nat.
Proof.
  induction calls as [| c calls IH]; [discriminate |].
  destruct calls as [| d calls].
  - cbn [last]. intros ->. unfold commits. cbn. lia.
  - intros H. change (last (c :: d :: calls) Cursor) with (last (d :: calls) Cursor) in H.
    specialize (IH H). change (c :: d :: calls) with ([c] ++ d :: calls).
    rewrite commits_app. lia.
Qed.

(** What a turn that goes on leaves behind. *)
Lemma review_turn_invariant (all all' : list Group) (page page' : Z)
  (w w' : World) :
  review_turn all page w = (Ok (Some (all', page')), w') ->
  only_marks all all'
  /\ exists calls,
       db_log w' = db_log w ++ calls
       /\ len (active all) <= len (active all') + Z.of_nat (commits calls).
Proof.
  intros H.
  destruct (display_outliers all PAGE_SIZE page w)
    as [[[[[a idx] g] |] | e] w1] eqn:Hd;
    [| unfold review_turn, bind in H; rewrite Hd in H; discriminate
     | unfold review_turn, bind in H; rewrite Hd in H; discriminate].
  rewrite (review_turn_picked _ _ _ _ _ _ _ Hd) in H.
  destruct (display_picked _ _ _ _ _ _ _ _ Hd) as (_ & Hi & Hg & Hr & _ & _ & _ & Hlog).
  destruct (mutate_settled a g w1) as (calls & (Hext & _) & Hok & _).
  destruct (mutate a g w1) as [[[|] | e] w2]; cbn [fst snd] in *.
  - destruct (mark_at (Z.to_nat idx) all) as [l |] eqn:Em; [| discriminate].
    injection H as <- _ <-.
    split; [apply (mark_at_only_marks _ _ _ _ Hg Hr Em) |].
    exists calls. rewrite Hext, Hlog. split; [reflexivity |].
    destruct (Hok eq_refl) as [Hlast _].
    pose proof (last_commit calls Hlast). pose proof (mark_at_active _ _ _ Em). lia.
  - injection H as <- _ <-. split; [apply only_marks_refl |].
    exists calls. rewrite Hext, Hlog. split; [reflexivity | lia].
  - destruct e; try discriminate.
    destruct (call_world Connect w2) as (_ & _ & _ & Hc).
    destruct (call Connect w2) as [[u | e] w3]; cbn [snd] in Hc; [| discriminate].
    injection H as <- _ <-. split; [apply only_marks_refl |].
    exists (calls ++ [Connect]). rewrite Hc, Hext, Hlog, app_assoc.
    split; [reflexivity | lia].
Qed.

Lemma review_turn_stops (all : list Group) (page : Z) (w w' : World) :
  review_turn all page w = (Ok None, w') -> db_log w' = db_log w.
Proof.
  intros H.
  destruct (display_outliers all PAGE_SIZE page w)
    as [[[[[a idx] g] |] | e] w1] eqn:Hd.
  - rewrite (review_turn_picked _ _ _ _ _ _ _ Hd) in H.
    destruct (mutate a g w1) as [[[|] | e] w2].
    + destruct (mark_at (Z.to_nat idx) all); discriminate H.
    + discriminate H.
    + destruct e; try discriminate H.
      destruct (call Connect w2) as [[u | e] w3]; discriminate H.
  - unfold review_turn, bind in H. rewrite Hd in H. injection H as <-.
    apply (display_keeps_store _ _ _ _ _ _ Hd).
  - unfold review_turn, bind in H. rewrite Hd in H. discriminate H.
Qed.

Lemma review_loop_invariant (fuel : nat) :
  forall all page w l w',
    review_loop fuel all page w = Some (Ok l, w') ->
    only_marks all l
    /\ exists calls,
         db_log w' = db_log w ++ calls
         /\ len (active all) <= len (active l) + Z.of_nat (commits calls).
Proof.
  induction fuel as [| fuel IH]; intros all page w l w' H; [discriminate |].
  cbn [review_loop] in H.
  destruct (review_turn all page w) as [[[[all1 page1] |] | e] w1] eqn:Ht.
  - destruct (review_turn_invariant _ _ _ _ _ _ Ht) as (Hm1 & c1 & Hl1 & Ha1).
    destruct (IH _ _ _ _ _ H) as (Hm2 & c2 & Hl2 & Ha2).
    split; [apply (only_marks_trans _ _ _ Hm1 Hm2) |].
    exists (c1 ++ c2). rewrite Hl2, Hl1, app_assoc, commits_app.
    split; [reflexivity | lia].
  - injection H as <- <-. split; [apply only_marks_refl |].
    exists []. rewrite app_nil_r. split; [apply (review_turn_stops _ _ _ _ Ht) |].
    unfold commits. cbn [filter List.length]. lia.
  - discriminate.
Qed.

Lemma review_session_loop (all l : list Group) (w w' : World) :
  review_session all w = Some (Ok l, w') ->
  exists w0,
    review_loop (S (List.length (prompts w))) all 0 w = Some (Ok l, w0)
    /\ db_log w' = db_log w0 ++ [Close].
Proof.
  unfold review_session.
  destruct (review_loop (S (List.length (prompts w))) all 0 w)
    as [[[l0 | e] w0] |]; [| discriminate | discriminate].
  destruct (call_world Close w0) as (_ & _ & _ & Hc).
  destruct (call Close w0) as [[u | e] w1]; cbn [snd] in Hc; [| discriminate].
  intros H. injection H as <- <-. eauto.
Qed.

(** X12: a session that runs to its end hands back the list it was given
    with nothing but removal marks added: the same length, at every index
    the same group (same representative, members and count), and a group
    that was removed stays removed. *)
Theorem session_keeps_indices (all l : list Group) (w w' : World) :
  review_session all w = Some (Ok l, w') ->
  List.length l = List.length all
  /\ forall j g', nth_error l j = Some g' ->
       exists g,
         nth_error all j = Some g
         /\ rep g' = rep g
         /\ ids g' = ids g
         /\ timestamps g' = timestamps g
         /\ values g' = values g
         /\ count g' = count g
         /\ (removed g = true -> removed g' = true)
         /\ (g' = g \/ g' = set_removed g).
Proof.
  intros H. destruct (review_session_loop _ _ _ _ H) as (w0 & Hloop & _).
  destruct (review_loop_invariant _ _ _ _ _ _ Hloop) as [[Hlen Hm] _].
  split; [exact Hlen |].
  intros j g' Hj. destruct (Hm j g' Hj) as (g & Hg & Hcase).
  exists g. split; [exact Hg |].
  destruct Hcase as [-> | [-> _]]; cbn [set_removed rep ids timestamps values count removed];
    repeat split; auto.
Qed.

Lemma delete_27_runs :
  review_session thirty_groups delete_27
  = Some (Ok (fst after_delete_27), snd after_delete_27).
Proof. vm_compute. reflexivity. Qed.

Lemma session_keeps_indices_witness :
  List.length (fst after_delete_27) = List.length thirty_groups
  /\ forall j g', nth_error (fst after_delete_27) j = Some g' ->
       exists g,
         nth_error thirty_groups j = Some g
         /\ rep g' = rep g
         /\ ids g' = ids g
         /\ timestamps g' = timestamps g
         /\ values g' = values g
         /\ count g' = count g
         /\ (removed g = true -> removed g' = true)
         /\ (g' = g \/ g' = set_removed g).
Proof.
  exact (session_keeps_indices thirty_groups (fst after_delete_27)
           delete_27 (snd after_delete_27) delete_27_runs).
Defined.

(** X13: the session always comes to an end, whatever the operator types
    and the store answers: a turn that goes on has read a line, so there
    are at most as many turns as lines and one more, and more fuel than
    that does not change the outcome. *)
Theorem session_ends (all : list Group) (w : World) :
  (exists r w', review_session all w = Some (r, w'))
  /\ (forall page all' page' w',
        review_turn all page w = (Ok (Some (all', page')), w') ->
        (List.length (prompts w') < List.length (prompts w))%nat)
  /\ forall fuel page,
       (List.length (prompts w) < fuel)%nat ->
       review_loop fuel all page w
       = review_loop (S (List.length (prompts w))) all page w.
Proof.
  split; [apply review_session_ends |].
  split; [intros page all' page' w'; apply review_turn_reads |].
  assert (Hmore : forall fuel all page w res,
             review_loop fuel all page w = Some res ->
             review_loop (S fuel) all page w = Some res).
  { induction fuel as [| fuel IH]; intros a p v res H; [discriminate |].
    cbn [review_loop] in H. change (review_loop (S (S fuel)) a p v)
      with (match review_turn a p v with
            | (Ok None, w') => Some (Ok a, w')
            | (Ok (Some (all', page')), w') => review_loop (S fuel) all' page' w'
            | (Raise e, w') => Some (Raise e, w')
            end).
    destruct (review_turn a p v) as [[[[a1 p1] |] | e] v1]; auto. }
  assert (Hge : forall n fuel all page w res,
             review_loop fuel all page w = Some res ->
             review_loop (n + fuel) all page w = Some res).
  { induction n as [| n IH]; intros; [assumption |].
    cbn [Nat.add]. apply Hmore, IH. assumption. }
  intros fuel page Hf.
  destruct (review_loop_ends (S (List.length (prompts w))) all page w)
    as (r & w' & Hr); [lia |].
  rewrite Hr.
  replace fuel with ((fuel - S (List.length (prompts w)))
                     + S (List.length (prompts w)))%nat by lia.
  apply Hge, Hr.
Qed.

(** X14: in a session that runs to its end every group that got its mark
    had its mutation committed: the number of groups removed during the
    session is at most the number of commits in the log, and the last
    call of the log closes the connection. *)
Theorem session_commits (all l : list Group) (w w' : World) :
  review_session all w = Some (Ok l, w') ->
  exists calls,
    db_log w' = db_log w ++ calls ++ [Close]
    /\ len (active all) - len (active l) <= Z.of_nat (commits calls).
Proof.
  intros H. destruct (review_session_loop _ _ _ _ H) as (w0 & Hloop & Hclose).
  destruct (review_loop_invariant _ _ _ _ _ _ Hloop) as (_ & calls & Hlog & Hc).
  exists calls. rewrite Hclose, Hlog, app_assoc. split; [reflexivity | lia].
Qed.

Lemma session_commits_witness :
  exists calls,
    db_log (snd after_delete_27) = db_log delete_27 ++ calls ++ [Close]
    /\ len (active thirty_groups) - len (active (fst after_delete_27))
       <= Z.of_nat (commits calls).
Proof.
  exact (session_commits thirty_groups (fst after_delete_27)
           delete_27 (snd after_delete_27) delete_27_runs).
Defined.

(** ** [edit_outlier] and [delete_outlier]: what reaches the store *)

Ltac store_cases :=
  eexists;
  (split;
   [ cbn [db_log]; rewrite <- ?app_assoc; cbn [app]; reflexivity
   | split;
     [ cbn [In]; auto 10
     | split; intros H; first [reflexivity | discriminate H] ] ]).

Lemma update_states_calls (v : pyfloat) (l : list Z) (w : World) :
  exists calls,
    db_log (snd (update_states v l w)) = db_log w ++ calls
    /\ In calls [ [Cursor];
                  [Cursor; Execute (UpdateState v l); Rollback];
                  [Cursor; Execute (UpdateState v l); Commit; Rollback];
                  [Cursor; Execute (UpdateState v l); Commit] ]
    /\ (fst (update_states v l w) = Ok true
        <-> calls = [Cursor; Execute (UpdateState v l); Commit]).
Proof.
  split_replies w;
    cbv [update_states bind call ret except_mysql hd List.tl
         replies prompts confirms db_log shown fst snd];
    store_cases.
Qed.

Lemma purge_states_calls (l : list Z) (w : World) :
  exists calls,
    db_log (snd (purge_states l w)) = db_log w ++ calls
    /\ In calls [ [Cursor];
                  [Cursor; Execute (ClearOldState l); Rollback];
                  [Cursor; Execute (ClearOldState l); Execute (DeleteStates l);
                   Rollback];
                  [Cursor; Execute (ClearOldState l); Execute (DeleteStates l);
                   Commit; Rollback];
                  [Cursor; Execute (ClearOldState l); Execute (DeleteStates l);
                   Commit] ]
    /\ (fst (purge_states l w) = Ok true
        <-> calls = [Cursor; Execute (ClearOldState l);
                     Execute (DeleteStates l); Commit]).
Proof.
  split_replies w;
    cbv [purge_states bind call ret except_mysql hd List.tl
         replies prompts confirms db_log shown fst snd];
    store_cases.
Qed.

Lemma update_states_quiet (v : pyfloat) (l : list Z) (w : World) :
  prompts (snd (update_states v l w)) = prompts w
  /\ confirms (snd (update_states v l w)) = confirms w.
Proof.
  split_replies w;
    cbv [update_states bind call ret except_mysql hd List.tl
         replies prompts confirms db_log shown fst snd];
    split; reflexivity.
Qed.

Lemma purge_states_quiet (l : list Z) (w : World) :
  prompts (snd (purge_states l w)) = prompts w
  /\ confirms (snd (purge_states l w)) = confirms w.
Proof.
  split_replies w;
    cbv [purge_states bind call ret except_mysql hd List.tl
         replies prompts confirms db_log shown fst snd];
    split; reflexivity.
Qed.

(** X15: [delete_outlier] contacts the store only after the operator said
    yes; then it clears the back references to the member ids before it
    deletes those same ids, commits only after both went through, rolls
    back after any failure, and returns [True] exactly when its calls are
    cursor, clear, delete, commit.  It reads no line of the operator. *)
Theorem delete_outlier_calls (g : Group) (w : World) :
  let r := fst (delete_outlier g w) in
  let w' := snd (delete_outlier g w) in
  let clear := Execute (ClearOldState (ids g)) in
  let del := Execute (DeleteStates (ids g)) in
  exists calls,
    db_log w' = db_log w ++ calls
    /\ prompts w' = prompts w
    /\ In calls [ []; [Cursor]; [Cursor; clear; Rollback];
                  [Cursor; clear; del; Rollback];
                  [Cursor; clear; del; Commit; Rollback];
                  [Cursor; clear; del; Commit] ]
    /\ (r = Ok true <-> calls = [Cursor; clear; del; Commit])
    /\ (hd_error (confirms w) <> Some true -> calls = []).
Proof.
  cbv zeta. unfold delete_outlier, bind, confirm.
  destruct (confirms w) as [| sure rest] eqn:Ec.
  - exists []. cbn [fst snd hd_error]. rewrite app_nil_r.
    repeat split; auto; try discriminate. cbn [In]. auto.
  - set (w1 := {| prompts := prompts w; confirms := rest; replies := replies w;
                  db_log := db_log w; shown := shown w |}).
    destruct sure; cbn [negb hd_error].
    + destruct (purge_states_calls (ids g) w1) as (calls & Hlog & Hin & Hok).
      destruct (purge_states_quiet (ids g) w1) as [Hp _].
      exists calls. split; [exact Hlog |]. split; [exact Hp |].
      split; [right; exact Hin |]. split; [exact Hok |].
      intros H. exfalso. apply H. reflexivity.
    + exists []. cbn [ret fst snd db_log prompts]. rewrite app_nil_r.
      repeat split; auto; try discriminate. cbn [In]. auto.
Qed.

(** X16: [edit_outlier] contacts the store only for the answer [m] or a
    number: on [c], on anything [float()] refuses, and when no line comes,
    it makes no call and does not return [True].  Otherwise its one
    statement rewrites the member ids of the group to the mean of the
    group (for [m]) or to the number typed; it commits only after that
    statement went through, rolls back after any failure, and returns
    [True] exactly when its calls are cursor, update, commit. *)
Theorem edit_outlier_calls (g : Group) (w : World) :
  let r := fst (edit_outlier g w) in
  let w' := snd (edit_outlier g w) in
  exists calls,
    db_log w' = db_log w ++ calls
    /\ confirms w' = confirms w
    /\ ((calls = [] /\ r <> Ok true)
        \/ exists line v,
             hd_error (prompts w) = Some line
             /\ lower (strip line) <> "c"
             /\ (lower (strip line) = "m" -> v = Finite (mean (rep g)))
             /\ (lower (strip line) <> "m" -> py_float (lower (strip line)) = Some v)
             /\ In calls [ [Cursor];
                           [Cursor; Execute (UpdateState v (ids g)); Rollback];
                           [Cursor; Execute (UpdateState v (ids g)); Commit;
                            Rollback];
                           [Cursor; Execute (UpdateState v (ids g)); Commit] ]
             /\ (r = Ok true
                 <-> calls = [Cursor; Execute (UpdateState v (ids g)); Commit]))
    /\ (forall line,
          hd_error (prompts w) = Some line ->
          lower (strip line) = "c"
          \/ (lower (strip line) <> "m" /\ py_float (lower (strip line)) = None) ->
          calls = [] /\ r = Ok false).
Proof.
  cbv zeta. unfold edit_outlier, bind, ask.
  destruct (prompts w) as [| line rest] eqn:Ep.
  - exists []. cbn [fst snd hd_error]. rewrite app_nil_r.
    split; [reflexivity |]. split; [reflexivity |].
    split; [left; split; [reflexivity | discriminate] |].
    intros line H. discriminate H.
  - set (choice := lower (strip line)).
    set (w1 := {| prompts := rest; confirms := confirms w; replies := replies w;
                  db_log := db_log w; shown := shown w |}).
    cbn [hd_error].
    destruct (String.eqb choice "c") eqn:Ec.
    { apply String.eqb_eq in Ec. exists []. cbn [ret fst snd db_log confirms].
      rewrite app_nil_r. split; [reflexivity |]. split; [reflexivity |].
      split; [left; split; [reflexivity | discriminate] |].
      intros line' H _. auto. }
    apply String.eqb_neq in Ec.
    destruct (String.eqb choice "m") eqn:Em.
    + apply String.eqb_eq in Em.
      destruct (update_states_calls (Finite (mean (rep g))) (ids g) w1)
        as (calls & Hlog & Hin & Hok).
      destruct (update_states_quiet (Finite (mean (rep g))) (ids g) w1) as [_ Hc].
      exists calls. split; [exact Hlog |]. split; [exact Hc |].
      split.
      * right. exists line, (Finite (mean (rep g))).
        split; [reflexivity |]. split; [exact Ec |].
        split; [intros _; reflexivity |].
        split; [intros H; contradiction |].
        split; [exact Hin | exact Hok].
      * intros line' H [Hc' | [Hm' _]]; injection H as <-; contradiction.
    + apply String.eqb_neq in Em.
      destruct (py_float choice) as [v |] eqn:Ev.
      * destruct (update_states_calls v (ids g) w1) as (calls & Hlog & Hin & Hok).
        destruct (update_states_quiet v (ids g) w1) as [_ Hc].
        exists calls. split; [exact Hlog |]. split; [exact Hc |].
        split.
        -- right. exists line, v.
           split; [reflexivity |]. split; [exact Ec |].
           split; [intros H; contradiction |].
           split; [intros _; exact Ev |].
           split; [exact Hin | exact Hok].
        -- intros line' H [Hc' | [_ Hn]]; injection H as <-;
             [contradiction | fold choice in Hn; congruence].
      * exists []. cbn [ret fst snd db_log confirms]. rewrite app_nil_r.
        split; [reflexivity |]. split; [reflexivity |].
        split; [left; split; [reflexivity | discriminate] |].
        intros line' H _. auto.
Qed.

Example edit_sample :
  edit_outlier (sample_group 27) (operator [" M "] [] [])
  = (Ok true,
     {| prompts := []; confirms := []; replies := [];
        db_log := [Cursor; Execute (UpdateState (Finite 20) [27]); Commit];
        shown := [] |})
  /\ edit_outlier (sample_group 27) (operator ["1e2"] [] [Done; Done; Lost; Lost])
     = (Raise OperationalError,
        {| prompts := []; confirms := []; replies := [];
           db_log := [Cursor; Execute (UpdateState (Finite 100) [27]); Commit;
                      Rollback];
           shown := [] |})
  /\ edit_outlier (sample_group 27) (operator ["-1e400"] [] [])
     = (Ok true,
        {| prompts := []; confirms := []; replies := [];
           db_log := [Cursor; Execute (UpdateState (Infinite true) [27]); Commit];
           shown := [] |})
  /\ edit_outlier (sample_group 27)
                  (operator [String (ascii_of_nat 9)
                               (String "1" (String (ascii_of_nat 31) ""))]
                            [] [])
     = (Ok true,
        {| prompts := []; confirms := []; replies := [];
           db_log := [Cursor; Execute (UpdateState (Finite 1) [27]); Commit];
           shown := [] |}).
Proof. repeat (split; [vm_compute; reflexivity |]). vm_compute. reflexivity. Qed.

(** ** [int(str(n))] *)

Ltac digit_step :=
  lazymatch goal with
  | |- (if is_digit ?c then _ else _) = _ =>
      change (is_digit c) with true; cbv iota;
      let v := eval vm_compute in (digit_val c) in
      change (digit_val c) with v
  end.

Lemma scan_digits_pos (d : Decimal.uint) :
  forall acc k,
    0 < acc ->
    scan_digits (NilEmpty.string_of_uint d) acc k
    = (Zpos (Pos.of_uint_acc d (Z.to_pos acc)),
       k + Z.of_nat (Decimal.nb_digits d), EmptyString).
Proof.
  induction d; intros acc k Hacc;
    cbn [NilEmpty.string_of_uint scan_digits Pos.of_uint_acc Decimal.nb_digits].
  1: { rewrite Z2Pos.id by lia. rewrite Z.add_0_r. reflexivity. }
  all: digit_step; rewrite IHd by lia;
    apply (f_equal2 (fun a b => (a, b, EmptyString))); [| lia];
    do 2 f_equal; apply Pos2Z.inj;
    rewrite Z2Pos.id by lia;
    rewrite ?Pos2Z.inj_add, ?Pos2Z.inj_mul, ?Z2Pos.id by lia;
    lia.
Qed.

Lemma scan_digits_zero (d : Decimal.uint) :
  forall k,
    scan_digits (NilEmpty.string_of_uint d) 0 k
    = (Z.of_N (N.of_uint d), k + Z.of_nat (Decimal.nb_digits d), EmptyString).
Proof.
  unfold N.of_uint.
  induction d; intros k;
    cbn [NilEmpty.string_of_uint scan_digits Pos.of_uint Decimal.nb_digits].
  1: { rewrite Z.add_0_r. reflexivity. }
  1: { digit_step. change (10 * 0 + 0) with 0. rewrite IHd.
       apply (f_equal2 (fun a b => (a, b, EmptyString))); [reflexivity | lia]. }
  all: digit_step; rewrite scan_digits_pos by lia;
    apply (f_equal2 (fun a b => (a, b, EmptyString))); [reflexivity | lia].
Qed.

Lemma all_digits_uint (d : Decimal.uint) :
  all_digits (NilEmpty.string_of_uint d) = true.
Proof. induction d; cbn [NilEmpty.string_of_uint all_digits]; auto. Qed.

Lemma dec_string_digits (n : Z) :
  all_digits (dec_string n) = true /\ dec_string n <> EmptyString.
Proof.
  unfold dec_string, NilZero.string_of_uint.
  destruct (N.to_uint (Z.to_N n)) eqn:E;
    (split; [first [reflexivity | rewrite <- E at 1; apply all_digits_uint
                    | apply (all_digits_uint (_ d)) ]
            | discriminate ]).
Qed.

Lemma dec_string_scan (n : Z) :
  0 <= n ->
  exists k, 0 < k /\ scan_digits (dec_string n) 0 0 = (n, k, EmptyString).
Proof.
  intros Hn. unfold dec_string.
  pose proof (DecimalN.Unsigned.of_to (Z.to_N n)) as Hof.
  assert (Hval : Z.of_N (N.of_uint (N.to_uint (Z.to_N n))) = n)
    by (rewrite Hof; apply Z2N.id, Hn).
  destruct (N.to_uint (Z.to_N n)) as [| d | d | d | d | d | d | d | d | d | d] eqn:E.
  1: { exists 1. split; [lia |]. cbn in Hval. subst n. reflexivity. }
  all: eexists; split;
    [| unfold NilZero.string_of_uint; rewrite scan_digits_zero, Hval; reflexivity];
    cbn [Decimal.nb_digits]; lia.
Qed.

Lemma lstrip_digits (s : string) : all_digits s = true -> lstrip s = s.
Proof.
  destruct s as [| c r]; [reflexivity |]. cbn [all_digits lstrip].
  intros H. apply andb_true_iff in H. destruct H as [Hc _].
  replace (is_space c) with false; [reflexivity |].
  unfold is_digit, is_space in *. apply andb_true_iff in Hc.
  destruct Hc as [H1 H2]. apply Nat.leb_le in H1, H2.
  symmetry. apply orb_false_iff. split; apply andb_false_iff.
  - right. apply Nat.leb_gt. lia.
  - right. apply Nat.leb_gt. lia.
Qed.

Lemma digit_not_space (c : ascii) : is_digit c = true -> is_space c = false.
Proof.
  unfold is_digit, is_space. intros Hc. apply andb_true_iff in Hc.
  destruct Hc as [H1 H2]. apply Nat.leb_le in H1, H2.
  apply orb_false_iff. split; apply andb_false_iff; right; apply Nat.leb_gt; lia.
Qed.

Lemma rstrip_digits (s : string) : all_digits s = true -> rstrip s = s.
Proof.
  unfold rstrip. induction s as [| c r IH]; [reflexivity |].
  cbn [all_digits rstrip_by]. intros H. apply andb_true_iff in H.
  destruct H as [Hc Hr]. rewrite (IH Hr), (digit_not_space c Hc).
  destruct r; reflexivity.
Qed.

Lemma digit_lower (c : ascii) : is_digit c = true -> lower_ascii c = c.
Proof.
  unfold is_digit, lower_ascii. intros Hc. apply andb_true_iff in Hc.
  destruct Hc as [H1 H2]. apply Nat.leb_le in H1, H2.
  replace ((65 <=? nat_of_ascii c)%nat) with false; [reflexivity |].
  symmetry. apply Nat.leb_gt. lia.
Qed.

Lemma lower_digits (s : string) : all_digits s = true -> lower s = s.
Proof.
  induction s as [| c r IH]; [reflexivity |].
  cbn [all_digits lower]. intros H. apply andb_true_iff in H.
  destruct H as [Hc Hr]. rewrite (IH Hr), (digit_lower c Hc). reflexivity.
Qed.

Lemma blank_space (c : ascii) : is_space c = false -> is_blank c = false.
Proof.
  unfold is_space, is_blank. intros H. apply orb_false_iff in H.
  destruct H as [H1 H2]. apply orb_false_iff. split; [exact H1 |].
  apply Nat.eqb_neq. intros E. rewrite E in H2. discriminate H2.
Qed.

(** A text whose characters are no blanks is left alone by [trim]. *)
Lemma trim_free (s : string) : free_of is_blank s = true -> trim s = s.
Proof.
  intros H. unfold trim.
  assert (Hl : lskip s = s).
  { destruct s as [| c r]; [reflexivity |]. cbn [free_of] in H.
    apply andb_true_iff in H. destruct H as [Hc _]. apply negb_true_iff in Hc.
    cbn [lskip]. rewrite Hc. reflexivity. }
  rewrite Hl. induction s as [| c r IH]; [reflexivity |].
  cbn [free_of] in H. apply andb_true_iff in H. destruct H as [Hc Hr].
  apply negb_true_iff in Hc. cbn [rstrip_by]. rewrite IH, Hc.
  - destruct r; reflexivity.
  - exact Hr.
  - destruct r as [| d r']; [reflexivity |]. cbn [free_of] in Hr.
    apply andb_true_iff in Hr. destruct Hr as [Hd _]. apply negb_true_iff in Hd.
    cbn [lskip]. rewrite Hd. reflexivity.
Qed.

Lemma digits_free (s : string) : all_digits s = true -> free_of is_blank s = true.
Proof.
  induction s as [| c r IH]; [reflexivity |]. cbn [all_digits free_of].
  intros H. apply andb_true_iff in H. destruct H as [Hc Hr].
  rewrite (blank_space c (digit_not_space c Hc)), (IH Hr). reflexivity.
Qed.

Lemma trim_digits (s : string) : all_digits s = true -> trim s = s.
Proof. intros H. apply trim_free, digits_free, H. Qed.

Lemma py_int_dec_string (n : Z) : 0 <= n -> py_int (dec_string n) = Some n.
Proof.
  intros Hn. destruct (dec_string_digits n) as [Hd Hne].
  destruct (dec_string_scan n Hn) as (k & Hk & Hs).
  unfold py_int. rewrite (trim_digits _ Hd).
  destruct (dec_string n) as [| c r] eqn:E; [congruence |].
  cbn [all_digits] in Hd. apply andb_true_iff in Hd. destruct Hd as [Hc _].
  assert (Hsign : split_sign (String c r) = (false, String c r)).
  { unfold split_sign.
    destruct (Ascii.eqb_spec c "-") as [-> | _]; [discriminate Hc |].
    destruct (Ascii.eqb_spec c "+") as [-> | _]; [discriminate Hc |].
    destruct c as [[|] [|] [|] [|] [|] [|] [|] [|]]; try reflexivity;
      discriminate Hc. }
  rewrite Hsign, Hs.
  replace (0 <? k) with true by (symmetry; apply Z.ltb_lt; exact Hk).
  reflexivity.
Qed.

Lemma py_int_py_str (n : Z) : py_int (py_str n) = Some n.
Proof.
  unfold py_str. destruct (Z.ltb_spec n 0) as [Hn | Hn];
    [| apply py_int_dec_string, Hn].
  destruct (dec_string_digits (- n)) as [Hd Hne].
  destruct (dec_string_scan (- n) ltac:(lia)) as (k & Hk & Hs).
  unfold py_int.
  rewrite (trim_free (String "-" (dec_string (- n))))
    by (cbn [free_of]; rewrite (digits_free _ Hd); reflexivity).
  cbn [split_sign]. rewrite Hs.
  replace (0 <? k) with true by (symmetry; apply Z.ltb_lt; exact Hk).
  f_equal. lia.
Qed.

Lemma strip_digits (s : string) : all_digits s = true -> strip s = s.
Proof.
  intros H. unfold strip. rewrite (lstrip_digits s H). apply rstrip_digits, H.
Qed.

Lemma command_clean (c : ascii) (s : string) :
  c = "e"%char \/ c = "d"%char ->
  all_digits s = true -> s <> EmptyString ->
  lower (strip (String c s)) = String c s.
Proof.
  intros Hc Hd Hne.
  assert (Hl : lstrip (String c s) = String c s)
    by (destruct Hc as [-> | ->]; reflexivity).
  assert (Hr : rstrip (String c s) = String c s).
  { unfold rstrip. cbn [rstrip_by]. fold rstrip. rewrite (rstrip_digits s Hd).
    destruct s; [congruence | reflexivity]. }
  unfold strip. rewrite Hl, Hr. cbn [lower]. rewrite (lower_digits s Hd).
  destruct Hc as [-> | ->]; reflexivity.
Qed.

(** ** [display_outliers]: the printed number typed back *)

(** X17: what the table prints in front of a row can be typed back.  The
    first column of a row is [str(i)]; the line made of [e] or [d] and that
    text, in either case and with blanks around it, read on whatever page,
    makes [display_outliers] leave its loop at once with the action, the
    index [i - 1] and the group of that row, provided the group is not
    marked removed. *)
Theorem printed_number_selects (outliers : list Group) (page_size page n : Z)
  (g : Group) (c : ascii) :
  0 < page_size -> 0 <= page ->
  In (n, g) (page_rows outliers page_size page) ->
  removed g = false ->
  c = "e"%char \/ c = "d"%char ->
  lower (strip (String c (py_str n))) = String c (py_str n)
  /\ forall total_pages any_page line rest,
       lower (strip line) = String c (py_str n) ->
       browse outliers total_pages any_page (line :: rest)
       = (Ok (Some (c, n - 1, g)), rest, [any_page]).
Proof.
  intros Hp Hpage Hin Hr Hc.
  apply page_rows_In in Hin; [| assumption | assumption].
  destruct Hin as [Hn Hg].
  assert (Hlen : 1 <= n <= len outliers).
  { assert (Hlt : (Z.to_nat (n - 1) < List.length outliers)%nat)
      by (apply nth_error_Some; rewrite Hg; discriminate).
    unfold len. nia. }
  assert (Hs : py_str n = dec_string n).
  { unfold py_str. destruct (Z.ltb_spec n 0); [lia | reflexivity]. }
  destruct (dec_string_digits n) as [Hd Hne].
  rewrite Hs. split; [apply command_clean; assumption |].
  intros total_pages any_page line rest Hline.
  cbn [browse]. rewrite Hline.
  rewrite (handle_choice_pick outliers total_pages any_page c (dec_string n) n g);
    [reflexivity | exact Hc | | exact Hlen | exact Hg | exact Hr].
  rewrite (strip_digits _ Hd). apply py_int_dec_string. lia.
Qed.

Lemma printed_number_selects_witness :
  In (27, sample_group 27) (page_rows thirty_groups PAGE_SIZE 1)
  /\ browse thirty_groups 2 0 ["  D27 "; "q"]
     = (Ok (Some ("d"%char, 26, sample_group 27)), ["q"], [0]).
Proof.
  assert (Hin : In (27, sample_group 27) (page_rows thirty_groups PAGE_SIZE 1)).
  { apply page_rows_In; [reflexivity | discriminate |].
    split; [split; [reflexivity | discriminate] | reflexivity]. }
  split; [exact Hin |].
  destruct (printed_number_selects thirty_groups PAGE_SIZE 1 27 (sample_group 27)
              "d"%char) as [_ Hsel];
    [reflexivity | discriminate | exact Hin | reflexivity | right; reflexivity |].
  apply (Hsel 2 0 "  D27 " ["q"]). reflexivity.
Defined.

(** ** Digit strings *)

Lemma app_string_assoc (a b c : string) : ((a ++ b) ++ c = a ++ (b ++ c))%string.
Proof. induction a as [| x a IH]; cbn [append]; [| rewrite IH]; reflexivity. Qed.

Lemma app_string_nil (a : string) : (a ++ "")%string = a.
Proof. induction a as [| x a IH]; cbn [append]; [| rewrite IH]; reflexivity. Qed.

Lemma app_string_length (a b : string) :
  String.length (a ++ b) = (String.length a + String.length b)%nat.
Proof. induction a as [| x a IH]; cbn [append String.length]; [| rewrite IH]; reflexivity. Qed.

Lemma digit_val_range (c : ascii) : is_digit c = true -> 0 <= digit_val c <= 9.
Proof.
  unfold is_digit, digit_val. intros H. apply andb_true_iff in H.
  destruct H as [H1 H2]. apply Nat.leb_le in H1, H2. lia.
Qed.

Lemma all_digits_app (a b : string) :
  all_digits (a ++ b) = all_digits a && all_digits b.
Proof.
  induction a as [| x a IH]; cbn [append all_digits]; [reflexivity |].
  rewrite IH. apply andb_assoc.
Qed.

Lemma all_digits_zeros (k : nat) : all_digits (zeros k) = true.
Proof. induction k as [| k IH]; cbn [zeros all_digits]; auto. Qed.

Lemma scan_all_digits (s : string) :
  forall acc k, all_digits s = true ->
    scan_digits s acc k
    = (digits_value s acc, k + Z.of_nat (String.length s), EmptyString).
Proof.
  induction s as [| c r IH]; intros acc k H; cbn [scan_digits digits_value String.length].
  - rewrite Z.add_0_r. reflexivity.
  - cbn [all_digits] in H. apply andb_true_iff in H. destruct H as [Hc Hr].
    rewrite Hc, (IH _ _ Hr).
    apply (f_equal2 (fun a b => (a, b, EmptyString))); [reflexivity | lia].
Qed.

Lemma scan_digits_stop (p : string) (c : ascii) (r : string) :
  forall acc k, all_digits p = true -> is_digit c = false -> c <> "_"%char ->
    scan_digits (p ++ String c r) acc k
    = (digits_value p acc, k + Z.of_nat (String.length p), String c r).
Proof.
  intros acc k Hp Hc Hu. revert acc k.
  induction p as [| d p IH]; intros acc k;
    cbn [append scan_digits digits_value String.length].
  - rewrite Hc. destruct (Ascii.eqb_spec c "_") as [E | _]; [contradiction |].
    cbn [andb]. rewrite Z.add_0_r. reflexivity.
  - cbn [all_digits] in Hp. apply andb_true_iff in Hp. destruct Hp as [Hd Hr].
    rewrite Hd, (IH Hr).
    apply (f_equal2 (fun a b => (a, b, String c r))); [reflexivity | lia].
Qed.

Lemma digits_value_lin (s : string) :
  forall acc,
    digits_value s acc = acc * 10 ^ Z.of_nat (String.length s) + digits_value s 0.
Proof.
  induction s as [| c r IH]; intros acc; cbn [digits_value String.length].
  - cbn. lia.
  - rewrite (IH (10 * acc + digit_val c)), (IH (10 * 0 + digit_val c)).
    rewrite Nat2Z.inj_succ, Z.pow_succ_r by lia. ring.
Qed.

Lemma digits_value_bound (s : string) :
  all_digits s = true -> 0 <= digits_value s 0 < 10 ^ Z.of_nat (String.length s).
Proof.
  induction s as [| c r IH]; cbn [all_digits digits_value String.length]; intros H.
  - cbn. lia.
  - apply andb_true_iff in H. destruct H as [Hc Hr].
    rewrite digits_value_lin. specialize (IH Hr).
    pose proof (digit_val_range c Hc).
    rewrite Nat2Z.inj_succ, Z.pow_succ_r by lia. nia.
Qed.

Lemma digits_value_app (a b : string) (acc : Z) :
  digits_value (a ++ b) acc = digits_value b (digits_value a acc).
Proof.
  revert acc. induction a as [| x a IH]; intros acc; cbn [append digits_value];
    [reflexivity | apply IH].
Qed.

Lemma digits_value_zeros (k : nat) (acc : Z) :
  digits_value (zeros k) acc = acc * 10 ^ Z.of_nat k.
Proof.
  revert acc. induction k as [| k IH]; intros acc; cbn [zeros digits_value].
  - cbn. lia.
  - rewrite IH. change (digit_val "0") with 0.
    rewrite Nat2Z.inj_succ, Z.pow_succ_r by lia. ring.
Qed.

Lemma digits_value_dec_string (n : Z) : 0 <= n -> digits_value (dec_string n) 0 = n.
Proof.
  intros Hn. destruct (dec_string_scan n Hn) as (k & _ & Hs).
  destruct (dec_string_digits n) as [Hd _].
  rewrite (scan_all_digits _ 0 0 Hd) in Hs. congruence.
Qed.

Lemma dec_string_short (n : Z) :
  0 <= n < 10000 -> (String.length (dec_string n) <= 4)%nat.
Proof.
  intros Hn.
  assert (Hall : forallb (fun i => Nat.leb (String.length (dec_string (Z.of_nat i))) 4)
                   (seq 0 (Z.to_nat 10000)) = true) by (vm_compute; reflexivity).
  rewrite forallb_forall in Hall.
  specialize (Hall (Z.to_nat n)). rewrite Z2Nat.id in Hall by lia.
  apply Nat.leb_le, Hall, in_seq. lia.
Qed.

Lemma dec_string_long (n : Z) :
  1000 <= n -> (4 <= String.length (dec_string n))%nat.
Proof.
  intros Hn. destruct (dec_string_digits n) as [Hd _].
  pose proof (digits_value_bound _ Hd) as Hb.
  rewrite digits_value_dec_string in Hb by lia.
  destruct (String.length (dec_string n)) as [| [| [| [| k]]]]; cbn in Hb; lia.
Qed.

(** ** Stripping *)

Lemma rstrip_by_keep (p : ascii -> bool) (a : string) (c : ascii) (b : string) :
  p c = false ->
  rstrip_by p (a ++ String c b) = (a ++ String c (rstrip_by p b))%string.
Proof.
  intros Hc. induction a as [| x a IH]; cbn [append rstrip_by].
  - rewrite Hc. destruct (rstrip_by p b); reflexivity.
  - rewrite IH. destruct a; reflexivity.
Qed.

Lemma rstrip_by_drop (p : ascii -> bool) (a b : string) :
  rstrip_by p b = EmptyString -> rstrip_by p (a ++ b) = rstrip_by p a.
Proof.
  intros Hb. induction a as [| x a IH]; cbn [append rstrip_by];
    [exact Hb | rewrite IH; reflexivity].
Qed.

Lemma rstrip_by_fixed (p : ascii -> bool) (a b : string) :
  rstrip_by p b = b -> b <> EmptyString -> rstrip_by p (a ++ b) = (a ++ b)%string.
Proof.
  intros Hb Hne. induction a as [| x a IH]; cbn [append rstrip_by];
    [exact Hb |].
  rewrite IH. destruct (a ++ b)%string eqn:E; [| reflexivity].
  destruct a; [cbn in E; contradiction | discriminate E].
Qed.

Lemma rstrip_by_free (p : ascii -> bool) (s : string) :
  free_of p s = true -> rstrip_by p s = s.
Proof.
  induction s as [| c r IH]; cbn [free_of rstrip_by]; [reflexivity |].
  intros H. apply andb_true_iff in H. destruct H as [Hc Hr].
  rewrite (IH Hr). apply negb_true_iff in Hc. rewrite Hc.
  destruct r; reflexivity.
Qed.

Lemma rstrip_by_digits_tail (p : ascii -> bool) (s : string) :
  all_digits s = true -> all_digits (rstrip_by p s) = true.
Proof.
  induction s as [| c r IH]; cbn [all_digits rstrip_by]; [reflexivity |].
  intros H. apply andb_true_iff in H. destruct H as [Hc Hr].
  specialize (IH Hr).
  destruct (rstrip_by p r) eqn:E.
  - destruct (p c); cbn [all_digits]; [reflexivity | rewrite Hc; reflexivity].
  - cbn [all_digits] in *. rewrite Hc. exact IH.
Qed.

Lemma rstrip_zeros_value (s : string) (acc : Z) :
  all_digits s = true ->
  exists j : nat,
    (String.length (rstrip_zeros s) + j = String.length s)%nat
    /\ digits_value s acc = digits_value (rstrip_zeros s) acc * 10 ^ Z.of_nat j.
Proof.
  unfold rstrip_zeros. revert acc.
  induction s as [| c r IH]; intros acc; cbn [all_digits rstrip_by digits_value].
  - intros _. exists 0%nat. split; [reflexivity | cbn; lia].
  - intros H. apply andb_true_iff in H. destruct H as [Hc Hr].
    destruct (IH (10 * acc + digit_val c) Hr) as (j & Hl & Hv).
    destruct (rstrip_by (fun c0 => Ascii.eqb c0 "0") r) as [| d r'] eqn:E.
    + destruct (Ascii.eqb_spec c "0") as [-> | Hn].
      * exists (S j). cbn [String.length digits_value] in *.
        split; [lia |]. rewrite Hv. change (digit_val "0") with 0.
        rewrite Nat2Z.inj_succ, Z.pow_succ_r by lia. ring.
      * exists j. cbn [String.length digits_value] in *.
        split; [lia | exact Hv].
    + exists j. cbn [String.length digits_value] in *. split; [lia | exact Hv].
Qed.

Lemma rstrip_dot_digits (s : string) :
  all_digits s = true -> rstrip_by (fun c => Ascii.eqb c ".") s = s.
Proof.
  intros H. apply rstrip_by_free.
  induction s as [| c r IH]; cbn [free_of all_digits] in *; [reflexivity |].
  apply andb_true_iff in H. destruct H as [Hc Hr].
  rewrite (IH Hr), andb_true_r.
  destruct (Ascii.eqb_spec c ".") as [-> | _]; [discriminate Hc | reflexivity].
Qed.

(** ** Plain text *)

Lemma plain_app (a b : string) : plain (a ++ b) = plain a && plain b.
Proof.
  induction a as [| x a IH]; cbn [append plain]; [reflexivity |].
  rewrite IH. apply andb_assoc.
Qed.

Lemma plain_digits (s : string) : all_digits s = true -> plain s = true.
Proof.
  induction s as [| c r IH]; cbn [all_digits plain]; [reflexivity |].
  intros H. apply andb_true_iff in H. destruct H as [Hc Hr].
  rewrite Hc, (IH Hr). reflexivity.
Qed.

Lemma plain_rstrip_by (p : ascii -> bool) (s : string) :
  plain s = true -> plain (rstrip_by p s) = true.
Proof.
  induction s as [| c r IH]; cbn [plain rstrip_by]; [reflexivity |].
  intros H. apply andb_true_iff in H. destruct H as [Hc Hr].
  specialize (IH Hr).
  destruct (rstrip_by p r) eqn:E.
  - destruct (p c); cbn [plain]; [reflexivity | rewrite Hc; reflexivity].
  - cbn [plain] in *. rewrite Hc. exact IH.
Qed.

Lemma plain_commas (s : string) : plain s = true -> plain (commas s) = true.
Proof.
  induction s as [| c r IH]; cbn [plain commas]; [reflexivity |].
  intros H. apply andb_true_iff in H. destruct H as [Hc Hr].
  rewrite Hc. cbn [andb].
  destruct (Nat.ltb 0 (String.length r) && Nat.eqb (Nat.modulo (String.length r) 3) 0);
    cbn [plain]; rewrite ?(IH Hr); reflexivity.
Qed.

Lemma plain_sign (x : Q) : plain (sign_text x) = true.
Proof. unfold sign_text. destruct (Qnum x <? 0); reflexivity. Qed.

Lemma plain_no_space (c : ascii) :
  is_digit c || Ascii.eqb c "-" || Ascii.eqb c "," || Ascii.eqb c "." = true ->
  is_space c = false.
Proof.
  intros H. apply orb_true_iff in H. destruct H as [H | H];
    [apply orb_true_iff in H; destruct H as [H | H];
     [apply orb_true_iff in H; destruct H as [H | H] |] |].
  - apply digit_not_space, H.
  - apply Ascii.eqb_eq in H. subst c. reflexivity.
  - apply Ascii.eqb_eq in H. subst c. reflexivity.
  - apply Ascii.eqb_eq in H. subst c. reflexivity.
Qed.

Lemma strip_plain (s : string) : plain s = true -> strip s = s.
Proof.
  intros H. unfold strip.
  assert (Hl : lstrip s = s).
  { destruct s as [| c r]; [reflexivity |]. cbn [plain] in H.
    apply andb_true_iff in H. destruct H as [Hc _].
    cbn [lstrip]. rewrite (plain_no_space c Hc). reflexivity. }
  rewrite Hl. apply rstrip_by_free.
  induction s as [| c r IH]; cbn [plain free_of] in *; [reflexivity |].
  apply andb_true_iff in H. destruct H as [Hc Hr].
  rewrite (plain_no_space c Hc). cbn [negb andb]. apply IH; [exact Hr |].
  destruct r as [| d r']; [reflexivity |]. cbn [plain] in Hr.
  apply andb_true_iff in Hr. destruct Hr as [Hd _].
  cbn [lstrip]. rewrite (plain_no_space d Hd). reflexivity.
Qed.

Lemma trim_plain (s : string) : plain s = true -> trim s = s.
Proof.
  intros H. apply trim_free.
  induction s as [| c r IH]; [reflexivity |]. cbn [plain free_of] in *.
  apply andb_true_iff in H. destruct H as [Hc Hr].
  rewrite (blank_space c (plain_no_space c Hc)), (IH Hr). reflexivity.
Qed.

(** ** Grouping by thousands *)

Lemma commas_long (s : string) :
  all_digits s = true -> (4 <= String.length s)%nat ->
  exists p r,
    commas s = (p ++ String "," r)%string
    /\ all_digits p = true /\ p <> EmptyString.
Proof.
  induction s as [| c r IH]; cbn [all_digits String.length commas]; [lia |].
  intros H Hl. apply andb_true_iff in H. destruct H as [Hc Hr].
  destruct (Nat.ltb 0 (String.length r) && Nat.eqb (Nat.modulo (String.length r) 3) 0)
    eqn:E.
  - exists (String c EmptyString), (commas r). cbn [append all_digits].
    rewrite Hc. repeat split; discriminate.
  - destruct IH as (p & r' & Hp & Hd & Hne); [exact Hr | |].
    + apply andb_false_iff in E. destruct E as [E | E].
      * apply Nat.ltb_ge in E. lia.
      * apply Nat.eqb_neq in E.
        destruct (String.length r) as [| [| [| [| k]]]]; try lia.
        exfalso. apply E. reflexivity.
    + exists (String c p), r'. rewrite Hp. cbn [append all_digits].
      rewrite Hc, Hd. repeat split; discriminate.
Qed.

(** ** [float] on what [format_number] writes *)

Lemma lower_head_digit (d c : ascii) (r w : string) :
  is_digit d = true -> is_digit c = false ->
  String.eqb (lower (String d r)) (String c w) = false.
Proof.
  intros Hd Hc. apply String.eqb_neq. cbn [lower]. rewrite (digit_lower d Hd).
  intros E. injection E as -> _. congruence.
Qed.

Lemma split_sign_digit (d : ascii) (r : string) :
  is_digit d = true -> split_sign (String d r) = (false, String d r).
Proof.
  intros Hd. unfold split_sign.
  destruct d as [[|] [|] [|] [|] [|] [|] [|] [|]]; try reflexivity; discriminate Hd.
Qed.

Lemma split_sign_of (neg : bool) (d : ascii) (r : string) :
  is_digit d = true ->
  split_sign (sign_of neg ++ String d r) = (neg, String d r).
Proof.
  intros Hd. destruct neg; [reflexivity | apply split_sign_digit, Hd].
Qed.

Lemma plain_sign_of (neg : bool) : plain (sign_of neg) = true.
Proof. destruct neg; reflexivity. Qed.

Ltac open_float d Hd :=
  unfold py_float, read_float;
  rewrite trim_plain;
  [ rewrite (split_sign_of _ d _ Hd);
    rewrite (lower_head_digit d "n" _ "an" Hd eq_refl),
            (lower_head_digit d "i" _ "nf" Hd eq_refl),
            (lower_head_digit d "i" _ "nfinity" Hd eq_refl);
    cbn [orb]
  | ].

Lemma py_float_integer (neg : bool) (ip : string) :
  all_digits ip = true -> ip <> EmptyString ->
  py_float (sign_of neg ++ ip)
  = Some (nearest_float (scale10 (signed neg (digits_value ip 0)) 0)).
Proof.
  intros Hd Hne. destruct ip as [| d r]; [congruence |].
  assert (Hc : is_digit d = true)
    by (cbn [all_digits] in Hd; apply andb_true_iff in Hd; tauto).
  open_float d Hc.
  - rewrite (scan_all_digits _ 0 0 Hd).
    replace (0 + Z.of_nat (String.length (String d r)) + 0 =? 0) with false
      by (symmetry; apply Z.eqb_neq; cbn [String.length]; lia).
    reflexivity.
  - rewrite plain_app, plain_sign_of, (plain_digits _ Hd). reflexivity.
Qed.

Lemma py_float_fraction (neg : bool) (ip fr : string) :
  all_digits ip = true -> ip <> EmptyString -> all_digits fr = true ->
  py_float (sign_of neg ++ ip ++ String "." fr)
  = Some (nearest_float
            (scale10 (signed neg (digits_value fr (digits_value ip 0)))
                          (- Z.of_nat (String.length fr)))).
Proof.
  intros Hd Hne Hf. destruct ip as [| d r]; [congruence |].
  assert (Hc : is_digit d = true)
    by (cbn [all_digits] in Hd; apply andb_true_iff in Hd; tauto).
  change ((String d r ++ String "." fr)%string)
    with (String d (r ++ String "." fr)).
  open_float d Hc.
  - change (String d (r ++ String "." fr)) with ((String d r ++ String "." fr)%string).
    rewrite (scan_digits_stop _ "." fr 0 0 Hd eq_refl ltac:(discriminate)).
    rewrite (scan_all_digits _ _ 0 Hf).
    replace (0 + Z.of_nat (String.length (String d r))
             + (0 + Z.of_nat (String.length fr)) =? 0) with false
      by (symmetry; apply Z.eqb_neq; cbn [String.length]; lia).
    rewrite Z.add_0_l. reflexivity.
  - change (String d (r ++ String "." fr)) with ((String d r ++ String "." fr)%string).
    rewrite !plain_app, plain_sign_of, (plain_digits _ Hd).
    cbn [plain]. rewrite (plain_digits _ Hf). reflexivity.
Qed.

Lemma py_float_comma (neg : bool) (p r : string) :
  all_digits p = true -> p <> EmptyString -> plain r = true ->
  py_float (sign_of neg ++ p ++ String "," r) = None.
Proof.
  intros Hd Hne Hr. destruct p as [| d p']; [congruence |].
  assert (Hc : is_digit d = true)
    by (cbn [all_digits] in Hd; apply andb_true_iff in Hd; tauto).
  change ((String d p' ++ String "," r)%string)
    with (String d (p' ++ String "," r)).
  open_float d Hc.
  - change (String d (p' ++ String "," r)) with ((String d p' ++ String "," r)%string).
    rewrite (scan_digits_stop _ "," r 0 0 Hd eq_refl ltac:(discriminate)).
    replace (0 + Z.of_nat (String.length (String d p')) + 0 =? 0) with false
      by (symmetry; apply Z.eqb_neq; cbn [String.length]; lia).
    reflexivity.
  - change (String d (p' ++ String "," r)) with ((String d p' ++ String "," r)%string).
    rewrite !plain_app, plain_sign_of, (plain_digits _ Hd).
    cbn [plain]. rewrite Hr. reflexivity.
Qed.

(** ** [format_number] *)

Lemma round_half_even_near (p q : Z) :
  0 < q -> - q <= 2 * (round_half_even p q * q - p) <= q.
Proof.
  intros Hq. unfold round_half_even.
  pose proof (Z.div_mod p q ltac:(lia)) as Hd.
  pose proof (Z.mod_pos_bound p q Hq) as Hm.
  destruct (Z.compare_spec (2 * (p mod q)) q) as [E | E | E];
    [destruct (Z.even (p / q)) | |]; nia.
Qed.

Lemma round_half_even_floor (p q : Z) :
  0 < q -> p / q <= round_half_even p q.
Proof.
  intros Hq. unfold round_half_even.
  destruct (2 * (p mod q) ?= q); [destruct (Z.even (p / q)) | |]; lia.
Qed.

Lemma sign_text_of (x : Q) : sign_text x = sign_of (Qnum x <? 0).
Proof. reflexivity. Qed.

(** The text of the second branch, and the number it denotes. *)
Lemma trimmed_shape (x : Q) :
  let m := round_half_even (Z.abs (Qnum x) * 10000) (Zpos (Qden x)) in
  let ip := dec_string (m / 10000) in
  0 <= m ->
  exists fr : string,
    all_digits fr = true
    /\ (String.length fr <= 4)%nat
    /\ digits_value fr (m / 10000) * 10 ^ (4 - Z.of_nat (String.length fr)) = m
    /\ rstrip_by (fun c => Ascii.eqb c ".") (rstrip_zeros (fmt_4f x))
       = (sign_text x ++ ip
          ++ match fr with EmptyString => EmptyString | _ => String "." fr end)%string.
Proof.
  intros m ip Hm.
  set (fp := m mod 10000).
  assert (Hfp : 0 <= fp < 10000) by (apply Z.mod_pos_bound; lia).
  set (F := (zeros (4 - String.length (dec_string fp)) ++ dec_string fp)%string).
  destruct (dec_string_digits fp) as [Hfd _].
  destruct (dec_string_digits (m / 10000)) as [Hid Hine]. fold ip in Hid, Hine.
  pose proof (dec_string_short fp Hfp) as Hshort.
  assert (HF : all_digits F = true)
    by (unfold F; rewrite all_digits_app, all_digits_zeros, Hfd; reflexivity).
  assert (HlF : String.length F = 4%nat).
  { unfold F. rewrite app_string_length.
    assert (Hz : forall k, String.length (zeros k) = k)
      by (induction k as [| k IH]; cbn [zeros String.length]; congruence).
    rewrite Hz. lia. }
  assert (HvF : forall acc, digits_value F acc = acc * 10000 + fp).
  { intros acc. unfold F. rewrite digits_value_app, digits_value_zeros.
    rewrite digits_value_lin, digits_value_dec_string by lia.
    pose proof (digits_value_bound _ Hfd) as Hb.
    rewrite digits_value_dec_string in Hb by lia.
    assert (Hsplit : 10 ^ Z.of_nat (4 - String.length (dec_string fp))
                     * 10 ^ Z.of_nat (String.length (dec_string fp)) = 10000).
    { rewrite <- Z.pow_add_r by lia.
      replace (Z.of_nat (4 - String.length (dec_string fp))
               + Z.of_nat (String.length (dec_string fp))) with 4 by lia.
      reflexivity. }
    rewrite <- Z.mul_assoc, Hsplit. reflexivity. }
  destruct (rstrip_zeros_value F (m / 10000) HF) as (j & Hj & Hv).
  exists (rstrip_zeros F).
  assert (Hrd : all_digits (rstrip_zeros F) = true)
    by (apply rstrip_by_digits_tail, HF).
  split; [exact Hrd |]. split; [lia |]. split.
  - replace (4 - Z.of_nat (String.length (rstrip_zeros F))) with (Z.of_nat j) by lia.
    rewrite <- Hv, HvF. unfold fp.
    pose proof (Z.div_mod m 10000 ltac:(lia)). lia.
  - assert (Hz : rstrip_zeros (fmt_4f x)
                 = ((sign_text x ++ ip) ++ String "." (rstrip_zeros F))%string).
    { unfold fmt_4f. cbv zeta. fold m. fold fp. fold ip. fold F.
      change (("." ++ F)%string) with (String "." F).
      rewrite <- app_string_assoc. unfold rstrip_zeros.
      apply rstrip_by_keep. reflexivity. }
    rewrite Hz. destruct (rstrip_zeros F) as [| c r] eqn:E.
    + rewrite rstrip_by_drop by reflexivity.
      rewrite rstrip_by_fixed;
        [rewrite app_string_nil; reflexivity
        | apply rstrip_dot_digits, Hid | exact Hine].
    + rewrite app_string_assoc.
      change (String "." (String c r)) with (("." ++ String c r)%string).
      rewrite <- (app_string_assoc ip), <- (app_string_assoc (sign_text x)).
      rewrite rstrip_by_fixed;
        [ | apply rstrip_dot_digits, Hrd | discriminate].
      rewrite !app_string_assoc. reflexivity.
Qed.

Lemma lower_plain (s : string) : plain s = true -> lower s = s.
Proof.
  induction s as [| c r IH]; cbn [plain lower]; [reflexivity |].
  intros H. apply andb_true_iff in H. destruct H as [Hc Hr].
  rewrite (IH Hr). f_equal.
  apply orb_true_iff in Hc. destruct Hc as [Hc | Hc];
    [apply orb_true_iff in Hc; destruct Hc as [Hc | Hc];
     [apply orb_true_iff in Hc; destruct Hc as [Hc | Hc] |] |].
  - apply digit_lower, Hc.
  - apply Ascii.eqb_eq in Hc. subst c. reflexivity.
  - apply Ascii.eqb_eq in Hc. subst c. reflexivity.
  - apply Ascii.eqb_eq in Hc. subst c. reflexivity.
Qed.

Lemma plain_In (s : string) :
  plain s = true <->
  forall c, In c (list_ascii_of_string s) ->
    is_digit c = true \/ c = "-"%char \/ c = ","%char \/ c = "."%char.
Proof.
  induction s as [| x r IH]; cbn [plain list_ascii_of_string In].
  - split; [intros _ c [] | reflexivity].
  - rewrite andb_true_iff, IH, !orb_true_iff, !Ascii.eqb_eq. split.
    + intros [Hx Hr] c [<- | Hc]; [tauto | apply Hr, Hc].
    + intros H. split; [specialize (H x (or_introl eq_refl)); tauto |].
      intros c Hc. apply H. right. exact Hc.
Qed.

Lemma format_number_is_plain (n : Q) : plain (format_number n) = true.
Proof.
  unfold format_number. destruct (Qle_bool 1000 (Qabs n)).
  - unfold fmt_comma_0f. rewrite plain_app, plain_sign.
    apply plain_commas, plain_digits, dec_string_digits.
  - apply plain_rstrip_by. unfold rstrip_zeros. apply plain_rstrip_by.
    unfold fmt_4f. cbv zeta. rewrite !plain_app, plain_sign.
    rewrite !(plain_digits _ (proj1 (dec_string_digits _))).
    rewrite (plain_digits _ (all_digits_zeros _)). reflexivity.
Qed.

Lemma scale10_neg (s k : Z) :
  0 <= k -> (scale10 s (- k) == s # Z.to_pos (10 ^ k))%Q.
Proof.
  intros Hk. unfold scale10, pow10.
  destruct (Z.leb_spec 0 (- k)) as [E | E].
  - assert (k = 0) by lia. subst k. cbn. unfold Qeq. cbn. lia.
  - rewrite Z.opp_involutive. reflexivity.
Qed.

Lemma signed_mul (neg : bool) (a b : Z) : signed neg a * b = signed neg (a * b).
Proof. destruct neg; cbn [signed]; ring. Qed.

(** What [float] makes of the second branch of [format_number]. *)
Lemma trimmed_reads_back (x : Q) :
  exists q,
    py_float (rstrip_by (fun c => Ascii.eqb c ".") (rstrip_zeros (fmt_4f x)))
    = Some (nearest_float q)
    /\ (Qabs (q - x) <= 1 # 20000)%Q.
Proof.
  pose proof (round_half_even_near (Z.abs (Qnum x) * 10000) (Zpos (Qden x)) eq_refl)
    as Hnear.
  pose proof (round_half_even_floor (Z.abs (Qnum x) * 10000) (Zpos (Qden x)) eq_refl)
    as Hfloor.
  assert (Hm : 0 <= round_half_even (Z.abs (Qnum x) * 10000) (Zpos (Qden x))).
  { etransitivity; [| exact Hfloor]. apply Z.div_pos; lia. }
  destruct (trimmed_shape x Hm) as (fr & Hfd & Hfl & Hv & Hs).
  set (m := round_half_even (Z.abs (Qnum x) * 10000) (Zpos (Qden x))) in *.
  destruct (dec_string_digits (m / 10000)) as [Hid Hine].
  pose proof (digits_value_dec_string (m / 10000)
                ltac:(apply Z.div_pos; lia)) as Hip.
  set (neg := Qnum x <? 0).
  assert (Hq : exists q,
             py_float (rstrip_by (fun c => Ascii.eqb c ".") (rstrip_zeros (fmt_4f x)))
             = Some (nearest_float q)
             /\ (q == signed neg m # 10000)%Q).
  { rewrite Hs, sign_text_of. fold neg. destruct fr as [| c r] eqn:Efr.
    - rewrite app_string_nil, (py_float_integer neg _ Hid Hine), Hip.
      eexists. split; [reflexivity |].
      cbn [digits_value String.length] in Hv.
      change (10 ^ (4 - Z.of_nat 0)) with 10000 in Hv.
      unfold scale10, pow10, Qeq. cbn [Z.leb Z.compare inject_Z Qnum Qden].
      change (10 ^ 0) with 1.
      destruct neg; cbn [signed]; lia.
    - rewrite <- Efr in *. clear Efr.
      rewrite (py_float_fraction neg _ fr Hid Hine Hfd), Hip.
      eexists. split; [reflexivity |].
      rewrite scale10_neg by lia.
      set (T := 10 ^ Z.of_nat (String.length fr)) in *.
      set (J := 10 ^ (4 - Z.of_nat (String.length fr))) in *.
      assert (HT : 0 < T) by (apply Z.pow_pos_nonneg; lia).
      assert (HTJ : T * J = 10000).
      { unfold T, J. rewrite <- Z.pow_add_r by lia.
        replace (Z.of_nat (String.length fr) + (4 - Z.of_nat (String.length fr)))
          with 4 by lia.
        reflexivity. }
      unfold Qeq. cbn [Qnum Qden]. rewrite Z2Pos.id by exact HT.
      change (Zpos 10000) with 10000.
      replace (signed neg m)
        with (signed neg (digits_value fr (m / 10000)) * J)
        by (rewrite signed_mul; f_equal; exact Hv).
      rewrite <- HTJ. ring. }
  destruct Hq as (q & Hpy & Hqe). exists q. split; [exact Hpy |].
  rewrite Hqe. destruct x as [num den]. cbn [Qnum Qden] in *.
  unfold Qle, Qabs, Qminus, Qplus, Qopp. cbn [Qnum Qden].
  rewrite Pos2Z.inj_mul. change (Zpos 10000) with 10000.
  change (Zpos 20000) with 20000.
  unfold neg. destruct (Z.ltb_spec num 0) as [E | E]; cbn [signed]; nia.
Qed.

Lemma fmt_comma_shape (x : Q) :
  (1000 <= Qabs x)%Q ->
  exists p r,
    fmt_comma_0f x = (sign_of (Qnum x <? 0)%Z ++ p ++ String "," r)%string
    /\ all_digits p = true /\ p <> EmptyString /\ plain r = true.
Proof.
  intros Hx. unfold fmt_comma_0f.
  set (m := round_half_even (Z.abs (Qnum x)) (Zpos (Qden x))).
  assert (Hm : 1000 <= m).
  { pose proof (round_half_even_floor (Z.abs (Qnum x)) (Zpos (Qden x)) eq_refl) as Hf.
    fold m in Hf. etransitivity; [| exact Hf].
    apply Z.div_le_lower_bound; [lia |].
    destruct x as [num den]. unfold Qle, Qabs in Hx. cbn [Qnum Qden] in *. lia. }
  destruct (dec_string_digits m) as [Hd _].
  destruct (commas_long _ Hd (dec_string_long m Hm)) as (p & r & Hc & Hp & Hne).
  exists p, r. rewrite Hc. split; [reflexivity |].
  split; [exact Hp |]. split; [exact Hne |].
  pose proof (plain_commas _ (plain_digits _ Hd)) as Hpl.
  rewrite Hc, plain_app in Hpl. apply andb_true_iff in Hpl.
  destruct Hpl as [_ Hpl]. cbn [plain] in Hpl.
  apply andb_true_iff in Hpl. tauto.
Qed.

Lemma edit_outlier_line (outlier : Group) (w : World) (line : string)
  (rest : list string) :
  prompts w = line :: rest ->
  edit_outlier outlier w
  = (let choice := lower (strip line) in
     if String.eqb choice "c" then ret false
     else
       match (if String.eqb choice "m"
              then Some (Finite (mean (rep outlier)))
              else py_float choice) with
       | None => ret false
       | Some new_value => update_states new_value (ids outlier)
       end)
      {| prompts := rest; confirms := confirms w; replies := replies w;
         db_log := db_log w; shown := shown w |}.
Proof. intros H. unfold edit_outlier, bind, ask. rewrite H. reflexivity. Qed.

Lemma format_number_typed (n : Q) :
  lower (strip (format_number n)) = format_number n.
Proof.
  pose proof (format_number_is_plain n) as H.
  rewrite (strip_plain _ H). apply lower_plain, H.
Qed.

(** X18: [format_number] never writes an exponent: whatever the number,
    its text is made of decimal digits, a minus sign, commas and a point
    only. *)
Theorem format_number_plain (n : Q) :
  plain (format_number n) = true
  /\ ~ In "e"%char (list_ascii_of_string (format_number n)).
Proof.
  split; [apply format_number_is_plain |].
  intros H. apply (proj1 (plain_In _) (format_number_is_plain n)) in H.
  destruct H as [H | [H | [H | H]]]; discriminate H.
Qed.

(** X19: below a thousand the text of [format_number] is a number [float]
    reads, at most half a unit of the fourth decimal away from the number
    formatted; typed at the prompt of [edit_outlier] it is that number
    which goes to the store. *)
Theorem format_number_reads_back (n : Q) :
  (Qabs n < 1000)%Q ->
  exists q,
    py_float (format_number n) = Some (Finite q)
    /\ (Qabs (q - n) <= 1 # 20000)%Q
    /\ forall (outlier : Group) (w : World) (rest : list string),
         prompts w = format_number n :: rest ->
         edit_outlier outlier w
         = update_states (Finite q) (ids outlier)
             {| prompts := rest; confirms := confirms w; replies := replies w;
                db_log := db_log w; shown := shown w |}.
Proof.
  intros Hn.
  assert (Hb : Qle_bool 1000 (Qabs n) = false).
  { destruct (Qle_bool 1000 (Qabs n)) eqn:E; [| reflexivity].
    apply Qle_bool_iff in E. exfalso. apply (Qlt_not_le _ _ Hn E). }
  destruct (trimmed_reads_back n) as (q & Hpy & Hq).
  assert (Hf : format_number n
               = rstrip_by (fun c => Ascii.eqb c ".") (rstrip_zeros (fmt_4f n)))
    by (unfold format_number; rewrite Hb; reflexivity).
  rewrite <- Hf in Hpy.
  assert (Hfin : nearest_float q = Finite q).
  { unfold nearest_float, overflows.
    destruct (Qle_bool (inject_Z (2 ^ 1024 - 2 ^ 970)) (Qabs q)) eqn:E;
      [| reflexivity].
    apply Qle_bool_iff in E. exfalso.
    assert (Hq' : (Qabs q <= Qabs (q - n) + Qabs n)%Q).
    { setoid_replace q with ((q - n) + n)%Q at 1 by ring. apply Qabs_triangle. }
    assert (Hbig : (1001 < inject_Z (2 ^ 1024 - 2 ^ 970))%Q) by reflexivity.
    lra. }
  rewrite Hfin in Hpy.
  exists q. split; [exact Hpy |]. split; [exact Hq |].
  intros outlier w rest Hw. rewrite (edit_outlier_line _ _ _ _ Hw). cbv zeta.
  rewrite format_number_typed.
  destruct (String.eqb_spec (format_number n) "c") as [E | _];
    [rewrite E in Hpy; discriminate Hpy |].
  destruct (String.eqb_spec (format_number n) "m") as [E | _];
    [rewrite E in Hpy; discriminate Hpy |].
  rewrite Hpy. reflexivity.
Qed.

Lemma format_number_reads_back_witness :
  format_number (423 # 10) = "42.3"
  /\ exists q,
       py_float (format_number (423 # 10)) = Some (Finite q)
       /\ (Qabs (q - (423 # 10)) <= 1 # 20000)%Q.
Proof.
  split; [reflexivity |].
  destruct (format_number_reads_back (423 # 10)) as (q & Hpy & Hq & _);
    [reflexivity |].
  exists q. split; [exact Hpy | exact Hq].
Defined.

(** X20: from a thousand on the text of [format_number] has a comma, and
    [float] refuses it: typed at the prompt of [edit_outlier], a figure the
    program printed itself is an invalid number, and the store is not
    called. *)
Theorem thousands_not_read_back (n : Q) :
  (1000 <= Qabs n)%Q ->
  In ","%char (list_ascii_of_string (format_number n))
  /\ py_float (format_number n) = None
  /\ forall (outlier : Group) (w : World) (rest : list string),
       prompts w = format_number n :: rest ->
       edit_outlier outlier w
       = (Ok false,
          {| prompts := rest; confirms := confirms w; replies := replies w;
             db_log := db_log w; shown := shown w |}).
Proof.
  intros Hn.
  assert (Hb : Qle_bool 1000 (Qabs n) = true) by (apply Qle_bool_iff, Hn).
  assert (Hf : format_number n = fmt_comma_0f n)
    by (unfold format_number; rewrite Hb; reflexivity).
  destruct (fmt_comma_shape n Hn) as (p & r & Hs & Hp & Hne & Hr).
  rewrite <- Hf in Hs.
  assert (Hpy : py_float (format_number n) = None)
    by (rewrite Hs; apply py_float_comma; assumption).
  split; [| split; [exact Hpy |]].
  - rewrite Hs.
    assert (Happ : forall a b, list_ascii_of_string (a ++ b)
                               = list_ascii_of_string a ++ list_ascii_of_string b).
    { intros a b. induction a as [| x a IH]; cbn [append list_ascii_of_string app];
        [| rewrite IH]; reflexivity. }
    rewrite !Happ. cbn [list_ascii_of_string].
    apply in_or_app. right. apply in_or_app. right. left. reflexivity.
  - intros outlier w rest Hw. rewrite (edit_outlier_line _ _ _ _ Hw). cbv zeta.
    rewrite format_number_typed, Hpy.
    assert (Hhead : exists d t, format_number n = String d t
                                /\ d <> "c"%char /\ d <> "m"%char).
    { rewrite Hs. destruct p as [| d p']; [congruence |].
      cbn [all_digits] in Hp. apply andb_true_iff in Hp. destruct Hp as [Hd _].
      destruct (Qnum n <? 0); cbn [sign_of append].
      - eexists _, _. split; [reflexivity |]. split; discriminate.
      - eexists _, _. split; [reflexivity |].
        split; intros ->; discriminate Hd. }
    destruct Hhead as (d & t & -> & Hc & Hm).
    destruct (String.eqb_spec (String d t) "c") as [E | _];
      [injection E as E _; contradiction |].
    destruct (String.eqb_spec (String d t) "m") as [E | _];
      [injection E as E _; contradiction |].
    reflexivity.
Qed.

Lemma thousands_not_read_back_witness :
  format_number (12345678 # 10000) = "1,235"
  /\ py_float (format_number (12345678 # 10000)) = None.
Proof.
  split; [reflexivity |].
  destruct (thousands_not_read_back (12345678 # 10000)) as (_ & Hpy & _);
    [discriminate | exact Hpy].
Defined.

Example format_number_sample :
  format_number (12345678 # 10000) = "1,235"
  /\ format_number (- (12345675 # 10)) = "-1,234,568"
  /\ format_number (9999999996 # 10000000) = "1000"
  /\ format_number (- (1 # 100000)) = "-0"
  /\ format_number 0 = "0"
  /\ format_number (1 # 3) = "0.3333"
  /\ format_number 100 = "100"
  /\ format_number (- (25 # 10)) = "-2.5"
  /\ format_number 1000000 = "1,000,000".
Proof. repeat split; vm_compute; reflexivity. Qed.

(** ** [interactive_config] *)

(** X21: an operator who answers every prompt of [interactive_config] with
    an empty line gets the defaults back as they stand after the cache was
    merged in: the port survives its way through [str] and [int], and the
    cached password survives although only stars were shown; run on what
    it saved, the function returns what it saved.  Whatever the other
    answers, an empty line or the ten stars at the password prompt keep a
    cached password. *)
Theorem config_defaults_kept (cached : option Cache) :
  interactive_config cached "" "" "" "" "" = Some (config_defaults cached)
  /\ (forall config,
        interactive_config (Some (cache_of config)) "" "" "" "" "" = Some config)
  /\ forall host_line user_line database_line stars,
       stars = "" \/ stars = "**********" ->
       password (config_defaults cached) <> "" ->
       exists config,
         interactive_config cached host_line "" user_line stars database_line
         = Some config
         /\ port config = port (config_defaults cached)
         /\ password config = password (config_defaults cached).
Proof.
  assert (Hall : forall c, interactive_config c "" "" "" "" ""
                           = Some (config_defaults c)).
  { intros c. unfold interactive_config. cbv zeta.
    change (prompt_ask "" ?d) with d. rewrite py_int_py_str.
    rewrite String.eqb_refl. destruct (config_defaults c); reflexivity. }
  split; [apply Hall |]. split.
  - intros config. rewrite Hall. destruct config; reflexivity.
  - intros host_line user_line database_line stars Hs Hpw.
    unfold interactive_config. cbv zeta.
    change (prompt_ask "" ?d) with d. rewrite py_int_py_str.
    eexists. split; [reflexivity |]. cbn [port password].
    split; [reflexivity |].
    destruct (String.eqb_spec (password (config_defaults cached)) "") as [E | _];
      [contradiction |].
    destruct Hs as [-> | ->]; reflexivity.
Qed.

(** ** The row of the table: the latest timestamp *)

Lemma later_latest (seen : list (option Q)) (best ts : option Q) :
  latest_of seen best -> latest_of (seen ++ [ts]) (later best ts).
Proof.
  intros H. unfold later.
  destruct ts as [t |].
  - destruct (Qeq_bool t 0) eqn:Ez.
    + apply Qeq_bool_iff in Ez. destruct best as [b |]; cbn [latest_of] in *.
      * destruct H as (Hin & Hnz & Hmax). split; [apply in_or_app; auto |].
        split; [exact Hnz |]. intros t' Ht' Hnz'.
        apply in_app_or in Ht'. destruct Ht' as [Ht' | [Ht' | []]];
          [apply Hmax; assumption |].
        injection Ht' as ->. contradiction.
      * intros ts Hts. apply in_app_or in Hts. destruct Hts as [Hts | [<- | []]];
          [apply H, Hts | right; eauto].
    + assert (Hnz : ~ (t == 0)%Q)
        by (intros E; apply Qeq_bool_iff in E; congruence).
      destruct best as [b |]; cbn [latest_of] in *.
      * destruct H as (Hin & Hbz & Hmax).
        destruct (Qltb b t) eqn:El.
        -- apply Qltb_lt in El. split; [apply in_or_app; right; left; reflexivity |].
           split; [exact Hnz |]. intros t' Ht' Hnz'.
           apply in_app_or in Ht'. destruct Ht' as [Ht' | [Ht' | []]].
           ++ apply Qle_trans with b; [apply Hmax; assumption | apply Qlt_le_weak, El].
           ++ injection Ht' as ->. apply Qle_refl.
        -- split; [apply in_or_app; auto |]. split; [exact Hbz |].
           intros t' Ht' Hnz'.
           apply in_app_or in Ht'. destruct Ht' as [Ht' | [Ht' | []]];
             [apply Hmax; assumption |].
           injection Ht' as ->. apply Qnot_lt_le. intros Hlt.
           apply Qltb_lt in Hlt. congruence.
      * split; [apply in_or_app; right; left; reflexivity |].
        split; [exact Hnz |]. intros t' Ht' Hnz'.
        apply in_app_or in Ht'. destruct Ht' as [Ht' | [Ht' | []]].
        -- destruct (H _ Ht') as [E | (t0 & E & Ez0)]; [discriminate E |].
           injection E as ->. contradiction.
        -- injection Ht' as ->. apply Qle_refl.
  - destruct best as [b |]; cbn [latest_of] in *.
    + destruct H as (Hin & Hnz & Hmax). split; [apply in_or_app; auto |].
      split; [exact Hnz |]. intros t' Ht' Hnz'.
      apply in_app_or in Ht'. destruct Ht' as [Ht' | [Ht' | []]];
        [apply Hmax; assumption | discriminate Ht'].
    + intros ts Hts. apply in_app_or in Hts. destruct Hts as [Hts | [<- | []]];
        [apply H, Hts | left; reflexivity].
Qed.

Lemma fold_later_latest (rest seen : list (option Q)) (best : option Q) :
  latest_of seen best -> latest_of (seen ++ rest) (fold_left later rest best).
Proof.
  revert seen best. induction rest as [| ts rest IH]; intros seen best H;
    cbn [fold_left].
  - rewrite app_nil_r. exact H.
  - replace (seen ++ ts :: rest) with ((seen ++ [ts]) ++ rest)
      by (rewrite <- app_assoc; reflexivity).
    apply IH, later_latest, H.
Qed.

(** X22: the timestamp shown in a row is the greatest of the group's
    timestamps that are neither missing nor zero, and the row has none
    exactly when every timestamp of the group is missing or zero; in a
    group built by [group_outliers] it is the timestamp of a record of the
    group. *)
Theorem latest_ts_greatest (stamps : list (option Q)) :
  match latest_ts stamps with
  | Some latest =>
      In (Some latest) stamps
      /\ ~ (latest == 0)%Q
      /\ (forall t, In (Some t) stamps -> ~ (t == 0)%Q -> (t <= latest)%Q)
      /\ forall outliers g,
           In g (group_outliers outliers) -> timestamps g = stamps ->
           exists o, In o outliers /\ key_of o = group_key g
                     /\ timestamp o = Some latest
  | None =>
      forall ts, In ts stamps ->
        ts = None \/ exists t, ts = Some t /\ (t == 0)%Q
  end.
Proof.
  pose proof (fold_later_latest stamps [] None) as H.
  cbn [app] in H. fold (latest_ts stamps) in H.
  destruct (latest_ts stamps) as [latest |]; cbn [latest_of] in H.
  - destruct H as (Hin & Hnz & Hmax); [intros ts [] |].
    split; [exact Hin |]. split; [exact Hnz |]. split; [exact Hmax |].
    intros outliers g Hg Ht. apply group_outliers_In in Hg. destruct Hg as [k Hg].
    destruct (build_groups_spec _ _ _ Hg) as (m & ms & Hm & _ & Hk & _ & Hts & _).
    rewrite <- Ht, Hts in Hin. apply in_map_iff in Hin.
    destruct Hin as (o & Ho & Hino). exists o.
    rewrite <- Hm in Hino. apply members_In in Hino.
    destruct Hino as [Hino Hkey]. rewrite Hk.
    split; [exact Hino |]. split; [exact Hkey | exact Ho].
  - apply H. intros ts [].
Qed.

(** ** The statements sent to the store *)

Lemma placeholders_list (k : nat) (tail : string) :
  placeholders tail = O ->
  (forall r, tail <> String "s" r) ->
  tail <> EmptyString ->
  placeholders (String "(" (join "," (repeat "%s" k) ++ tail)) = k.
Proof.
  intros Ht Hs Hne.
  assert (Hstep : forall k c,
             c = "("%char \/ c = ","%char ->
             placeholders (String c (join "," (repeat "%s" (S k)) ++ tail))
             = S (placeholders (match k with
                                | O => tail
                                | S _ => String "," (join "," (repeat "%s" k) ++ tail)
                                end))).
  { intros j c Hc. cbn [repeat join].
    destruct j as [| j]; cbn [repeat]; destruct Hc as [-> | ->]; reflexivity. }
  destruct k as [| k].
  - cbn [repeat join append]. destruct tail as [| d r]; [congruence |].
    cbn [placeholders]. cbn [Ascii.eqb Bool.eqb andb]. exact Ht.
  - rewrite Hstep by (left; reflexivity).
    induction k as [| k IH]; [rewrite Ht; reflexivity |].
    rewrite Hstep by (right; reflexivity). rewrite IH. reflexivity.
Qed.

Lemma placeholders_skip (c d : ascii) (r : string) :
  c <> "%"%char -> placeholders (String c (String d r)) = placeholders (String d r).
Proof.
  intros Hc. cbn [placeholders].
  destruct (Ascii.eqb_spec c "%") as [E | _]; [contradiction | reflexivity].
Qed.

Lemma placeholders_hit (r : string) :
  placeholders (String "%" (String "s" r)) = S (placeholders r).
Proof. reflexivity. Qed.

(** X23: every statement is sent with as many parameters as its text has
    [%s] placeholders, and for a group built by [group_outliers] the list
    between the parentheses of [IN (...)] is not empty. *)
Theorem placeholders_match (s : statement) :
  placeholders (statement_text s) = statement_arity s
  /\ forall outliers g,
       In g (group_outliers outliers) ->
       ids g <> [] /\ _in_placeholders (ids g) <> "".
Proof.
  split.
  - assert (Htail : forall k,
               placeholders (String "(" (join "," (repeat "%s" k) ++ ")")) = k)
      by (intros k; apply placeholders_list;
          [reflexivity | discriminate | discriminate]).
    destruct s as [v l | l | l]; cbn [statement_text statement_arity];
      unfold _in_placeholders; cbn [append];
      repeat first [ rewrite Htail
                   | rewrite placeholders_hit
                   | rewrite placeholders_skip by discriminate ];
      reflexivity.
  - intros outliers g Hg. apply group_outliers_In in Hg. destruct Hg as [k Hg].
    destruct (build_groups_spec _ _ _ Hg) as (m & ms & _ & _ & _ & Hi & _).
    rewrite Hi. split; [discriminate |].
    unfold _in_placeholders. cbn [map List.length repeat join].
    destruct (repeat "%s" (List.length (map id ms))); discriminate.
Qed.

Example statement_text_sample :
  statement_text (DeleteStates [4; 5; 6])
  = "DELETE FROM states WHERE state_id IN (%s,%s,%s)"
  /\ statement_text (UpdateState (Finite 20) [4])
     = "UPDATE states SET state = %s WHERE state_id IN (%s)".
Proof. split; reflexivity. Qed.

Example latest_ts_sample :
  latest_ts [Some 5%Q; None; Some 0%Q; Some 7%Q; Some (- (3))%Q] = Some 7%Q
  /\ latest_ts [None; Some 0%Q] = None.
Proof. split; reflexivity. Qed.

Example interactive_config_sample :
  interactive_config
    (Some {| cached_host := Some "db.local"; cached_port := Some 3307;
             cached_user := None; cached_password := Some "secret";
             cached_database := None |})
    "" "" " ha " "**********" ""
  = Some {| host := "db.local"; port := 3307; user := "ha";
            password := "secret"; database := "homeassistant" |}
  /\ interactive_config None "" "33o6" "" "" "" = None.
Proof. split; vm_compute; reflexivity. Qed.
